(** * A shallow embedding of [accounts.py]

    The module [engineering_team/output/accounts.py] implements a simulated
    brokerage account: a cash balance, share holdings, a ledger of
    transactions, and valuation against a fixed price table.

    Python [float] is IEEE-754 binary64; it is modelled by Rocq's primitive
    [float], which is the same format with the same rounding (to nearest,
    ties to even).  Python [int] is unbounded and is modelled by [Z].  The
    [dict] of holdings keeps insertion order, which the valuation loop
    observes, so it is an association list.  Methods mutate [self] and may
    raise: they are computations in a state monad whose result is either a
    value or the exception raised, paired with the state at that point.

    Arguments have their annotated types: amounts are floats and quantities
    are ints.  (An int passed as an amount behaves as the float of the same
    value whenever a float represents it exactly.)

    Sums, differences and products in the statements below are the binary64
    operations the code performs, in the order it performs them; equalities
    between floats are equalities of the values, bit for bit.

    The handlers of [app.py], through which a user drives one account, are
    embedded after the account, in the module [App]. *)

From Stdlib Require Import ZArith List String Ascii DecimalString Bool Lia.
From Stdlib Require Import Uint63 Floats.
Import ListNotations.

Local Open Scope string_scope.
Local Open Scope Z_scope.

(** ** Exceptions and the method monad *)

Inductive exn : Type :=
| ValueError (msg : string)
| KeyError (key : string)
| OverflowError (msg : string).

Inductive outcome (A : Type) : Type :=
| Returned (v : A)
| Raised (e : exn).

Arguments Returned {A} v.
Arguments Raised {A} e.

Definition is_returned {A} (o : outcome A) : bool :=
  match o with Returned _ => true | Raised _ => false end.

(** ** Python values used by the module *)

(** [int -> float] as performed by [float * int]: the integer is rounded to
    the nearest binary64 value (ties to even) and the conversion raises
    [OverflowError] when that value is not finite.  The top 62 bits are kept,
    the bits below are folded into a sticky bit, [of_uint63] rounds to 53
    bits, and [ldexp] scales back. *)
Definition float_of_int (n : Z) : option float :=
  let a := Z.abs n in
  let sh := Z.max 0 (Z.log2 a + 1 - 62) in
  let hi := Z.shiftr a sh in
  let sticky := if Z.eqb (Z.land a (Z.ones sh)) 0 then 0 else 1 in
  let f := Z.ldexp (of_uint63 (Uint63.of_Z (Z.lor hi sticky))) sh in
  if is_infinity f then None
  else Some (if Z.ltb n 0 then (- f)%float else f).

Definition int_too_large : exn :=
  OverflowError "int too large to convert to float".

(** [price * quantity] and [quantity * price] with a float and an int. *)
Definition mul_float_int (x : float) (n : Z) : outcome float :=
  match float_of_int n with
  | Some y => Returned (x * y)%float
  | None => Raised int_too_large
  end.

(** An insertion-ordered [dict] from [str] to [int]. *)
Definition dict : Type := list (string * Z).

(** [d.get(k, default)] *)
Fixpoint dict_get (d : dict) (k : string) (default : Z) : Z :=
  match d with
  | [] => default
  | (k', v) :: d' => if String.eqb k' k then v else dict_get d' k default
  end.

(** [d[k]]: [None] stands for [KeyError]. *)
Fixpoint dict_getitem (d : dict) (k : string) : option Z :=
  match d with
  | [] => None
  | (k', v) :: d' => if String.eqb k' k then Some v else dict_getitem d' k
  end.

(** [d[k] = v]: an existing key keeps its position, a new key goes last. *)
Fixpoint dict_setitem (d : dict) (k : string) (v : Z) : dict :=
  match d with
  | [] => [(k, v)]
  | (k', v') :: d' =>
      if String.eqb k' k then (k', v) :: d' else (k', v') :: dict_setitem d' k v
  end.

(** [del d[k]]: [None] stands for [KeyError]. *)
Fixpoint dict_delitem (d : dict) (k : string) : option dict :=
  match d with
  | [] => None
  | (k', v) :: d' =>
      if String.eqb k' k then Some d'
      else match dict_delitem d' k with
           | Some d'' => Some ((k', v) :: d'')
           | None => None
           end
  end.

(** ** The price table *)

Definition unsupported_symbol : exn := ValueError "Unsupported symbol".

Definition get_share_price (symbol : string) : outcome float :=
  if String.eqb symbol "AAPL" then Returned 150%float
  else if String.eqb symbol "TSLA" then Returned 700%float
  else if String.eqb symbol "GOOGL" then Returned 2800%float
  else Raised unsupported_symbol.

(** ** Account state *)

(** A ledger entry.  The Python dictionaries carry ['symbol'] and
    ['quantity'] only for trades. *)
Record transaction : Type := mk_transaction {
  tx_type : string;
  tx_symbol : option string;
  tx_quantity : option Z;
  tx_amount : float;
  tx_timestamp : string
}.

Record Account : Type := mk_Account {
  user_id : string;
  cash_balance : float;
  holdings : dict;
  transactions : list transaction;
  initial_deposit : float
}.

(** [Account.__init__] *)
Definition new_account (uid : string) : Account :=
  {| user_id := uid;
     cash_balance := 0%float;
     holdings := [];
     transactions := [];
     initial_deposit := 0%float |}.

Definition set_cash_balance (self : Account) (x : float) : Account :=
  {| user_id := user_id self;
     cash_balance := x;
     holdings := holdings self;
     transactions := transactions self;
     initial_deposit := initial_deposit self |}.

Definition set_holdings (self : Account) (d : dict) : Account :=
  {| user_id := user_id self;
     cash_balance := cash_balance self;
     holdings := d;
     transactions := transactions self;
     initial_deposit := initial_deposit self |}.

Definition set_transactions (self : Account) (l : list transaction) : Account :=
  {| user_id := user_id self;
     cash_balance := cash_balance self;
     holdings := holdings self;
     transactions := l;
     initial_deposit := initial_deposit self |}.

Definition set_initial_deposit (self : Account) (x : float) : Account :=
  {| user_id := user_id self;
     cash_balance := cash_balance self;
     holdings := holdings self;
     transactions := transactions self;
     initial_deposit := x |}.

(** A method body: it runs on [self], leaves a state behind, and either
    returns or raises.  The state of a raising run is the state at the
    [raise]. *)
Definition M (A : Type) : Type := Account -> Account * outcome A.

Definition ret {A} (v : A) : M A := fun self => (self, Returned v).

Definition raise {A} (e : exn) : M A := fun self => (self, Raised e).

Definition bind {A B} (c : M A) (k : A -> M B) : M B :=
  fun self =>
    match c self with
    | (self', Returned v) => k v self'
    | (self', Raised e) => (self', Raised e)
    end.

Definition get_self : M Account := fun self => (self, Returned self).

Definition modify (f : Account -> Account) : M unit :=
  fun self => (f self, Returned tt).

Definition lift {A} (o : outcome A) : M A := fun self => (self, o).

Definition lift_key {A} (k : string) (o : option A) : M A :=
  fun self =>
    match o with
    | Some v => (self, Returned v)
    | None => (self, Raised (KeyError k))
    end.

Notation "x <- c ;; k" := (bind c (fun x => k))
  (at level 61, c at next level, right associativity).
Notation "c ;;; k" := (bind c (fun _ => k))
  (at level 61, right associativity).

(** [self.transactions.append(t)] *)
Definition append_transaction (t : transaction) : M unit :=
  modify (fun self => set_transactions self (transactions self ++ [t])).

(** ** The four mutating methods

    [now] is the string [datetime.now().isoformat()] read by the call. *)

Definition deposit (now : string) (amount : float) : M unit :=
  if (amount <=? 0)%float then
    raise (ValueError "Deposit amount must be positive.")
  else
    modify (fun self => set_cash_balance self (cash_balance self + amount)%float) ;;;
    modify (fun self => set_initial_deposit self (initial_deposit self + amount)%float) ;;;
    append_transaction
      {| tx_type := "deposit"; tx_symbol := None; tx_quantity := None;
         tx_amount := amount; tx_timestamp := now |}.

Definition withdraw (now : string) (amount : float) : M unit :=
  if (amount <=? 0)%float then
    raise (ValueError "Withdrawal amount must be positive.")
  else
    self <- get_self ;;
    if (cash_balance self - amount <? 0)%float then
      raise (ValueError "Cannot withdraw more than the available balance.")
    else
      modify (fun self => set_cash_balance self (cash_balance self - amount)%float) ;;;
      append_transaction
        {| tx_type := "withdraw"; tx_symbol := None; tx_quantity := None;
           tx_amount := amount; tx_timestamp := now |}.

Definition buy_shares (now : string) (symbol : string) (quantity : Z) : M unit :=
  if quantity <=? 0 then
    raise (ValueError "Quantity must be a positive integer.")
  else
    price <- lift (get_share_price symbol) ;;
    total_cost <- lift (mul_float_int price quantity) ;;
    self <- get_self ;;
    if (cash_balance self <? total_cost)%float then
      raise (ValueError "Insufficient funds to buy shares.")
    else
      modify (fun self => set_cash_balance self (cash_balance self - total_cost)%float) ;;;
      modify (fun self =>
                set_holdings self
                  (dict_setitem (holdings self) symbol
                     (dict_get (holdings self) symbol 0 + quantity))) ;;;
      append_transaction
        {| tx_type := "buy"; tx_symbol := Some symbol; tx_quantity := Some quantity;
           tx_amount := total_cost; tx_timestamp := now |}.

Definition sell_shares (now : string) (symbol : string) (quantity : Z) : M unit :=
  if quantity <=? 0 then
    raise (ValueError "Quantity must be a positive integer.")
  else
    self <- get_self ;;
    if dict_get (holdings self) symbol 0 <? quantity then
      raise (ValueError "Insufficient shares to sell.")
    else
      price <- lift (get_share_price symbol) ;;
      total_proceeds <- lift (mul_float_int price quantity) ;;
      modify (fun self => set_cash_balance self (cash_balance self + total_proceeds)%float) ;;;
      (* self.holdings[symbol] -= quantity *)
      self <- get_self ;;
      held <- lift_key symbol (dict_getitem (holdings self) symbol) ;;
      modify (fun self =>
                set_holdings self (dict_setitem (holdings self) symbol (held - quantity))) ;;;
      (* if self.holdings[symbol] == 0: del self.holdings[symbol] *)
      self <- get_self ;;
      left <- lift_key symbol (dict_getitem (holdings self) symbol) ;;
      (if left =? 0 then
         d <- lift_key symbol (dict_delitem (holdings self) symbol) ;;
         modify (fun self => set_holdings self d)
       else ret tt) ;;;
      append_transaction
        {| tx_type := "sell"; tx_symbol := Some symbol; tx_quantity := Some quantity;
           tx_amount := total_proceeds; tx_timestamp := now |}.

(** ** Reporting *)

Definition get_holdings (self : Account) : dict :=
  filter (fun kv => 0 <? snd kv) (holdings self).

(** The loop of [get_portfolio_value], started from [total_value]. *)
Fixpoint add_holdings_value (items : dict) (total_value : float) : outcome float :=
  match items with
  | [] => Returned total_value
  | (symbol, quantity) :: items' =>
      match get_share_price symbol with
      | Raised e => Raised e
      | Returned price =>
          match mul_float_int price quantity with
          | Raised e => Raised e
          | Returned value => add_holdings_value items' (total_value + value)%float
          end
      end
  end.

Definition get_portfolio_value (self : Account) : outcome float :=
  add_holdings_value (holdings self) (cash_balance self).

(** The amounts selected by
    [transaction['amount'] for transaction in self.transactions
     if transaction['type'] == kind]. *)
Definition amounts_of (kind : string) (l : list transaction) : list float :=
  map tx_amount (filter (fun t => String.eqb (tx_type t) kind) l).

(** Left-to-right accumulation from zero. *)
Definition sum_left (l : list float) : float :=
  fold_left (fun acc x => (acc + x)%float) l 0%float.

Section Reporting.

(** The builtin [sum].  Interpreters differ on how they add floats (plain
    left-to-right accumulation, or a compensated sum), so only what every
    one of them does is assumed: the sum of nothing is zero. *)
Variable builtin_sum : list float -> float.

Definition net_deposits (self : Account) : float :=
  (initial_deposit self - builtin_sum (amounts_of "withdraw" (transactions self)))%float.

Definition get_profit_loss (self : Account) : outcome float :=
  let net := net_deposits self in
  match get_portfolio_value self with
  | Returned value => Returned (value - net)%float
  | Raised e => Raised e
  end.

End Reporting.

Definition get_transactions (self : Account) : list transaction :=
  transactions self.

(** ** Sequences of calls *)

Inductive call : Type :=
| Deposit (amount : float)
| Withdraw (amount : float)
| BuyShares (symbol : string) (quantity : Z)
| SellShares (symbol : string) (quantity : Z).

Definition run_call (now : string) (c : call) : M unit :=
  match c with
  | Deposit amount => deposit now amount
  | Withdraw amount => withdraw now amount
  | BuyShares symbol quantity => buy_shares now symbol quantity
  | SellShares symbol quantity => sell_shares now symbol quantity
  end.

(** The account left behind by a call, whether it returned or raised. *)
Definition after (now : string) (c : call) (self : Account) : Account :=
  fst (run_call now c self).

Fixpoint run_calls (cs : list (string * call)) (self : Account) : Account :=
  match cs with
  | [] => self
  | (now, c) :: cs' => run_calls cs' (after now c self)
  end.

(** The accounts a caller can obtain: a fresh account, then any calls. *)
Inductive reachable : Account -> Prop :=
| reachable_new uid : reachable (new_account uid)
| reachable_call self now c : reachable self -> reachable (after now c self).

(** ** Notions used in the statements *)

(** [del d[k]] as a total function: the first entry for [k] is dropped. *)
Fixpoint dict_remove (d : dict) (k : string) : dict :=
  match d with
  | [] => []
  | (k', v) :: d' =>
      if String.eqb k' k then d' else (k', v) :: dict_remove d' k
  end.

(** The states left by the four methods when they return. *)
Definition deposited (self : Account) (now : string) (amount : float) : Account :=
  {| user_id := user_id self;
     cash_balance := (cash_balance self + amount)%float;
     holdings := holdings self;
     transactions :=
       transactions self ++
         [{| tx_type := "deposit"; tx_symbol := None; tx_quantity := None;
             tx_amount := amount; tx_timestamp := now |}];
     initial_deposit := (initial_deposit self + amount)%float |}.

Definition withdrawn (self : Account) (now : string) (amount : float) : Account :=
  {| user_id := user_id self;
     cash_balance := (cash_balance self - amount)%float;
     holdings := holdings self;
     transactions :=
       transactions self ++
         [{| tx_type := "withdraw"; tx_symbol := None; tx_quantity := None;
             tx_amount := amount; tx_timestamp := now |}];
     initial_deposit := initial_deposit self |}.

Definition bought (self : Account) (now symbol : string) (quantity : Z)
    (total_cost : float) : Account :=
  {| user_id := user_id self;
     cash_balance := (cash_balance self - total_cost)%float;
     holdings :=
       dict_setitem (holdings self) symbol (dict_get (holdings self) symbol 0 + quantity);
     transactions :=
       transactions self ++
         [{| tx_type := "buy"; tx_symbol := Some symbol; tx_quantity := Some quantity;
             tx_amount := total_cost; tx_timestamp := now |}];
     initial_deposit := initial_deposit self |}.

Definition sold (self : Account) (now symbol : string) (quantity : Z)
    (total_proceeds : float) : Account :=
  {| user_id := user_id self;
     cash_balance := (cash_balance self + total_proceeds)%float;
     holdings :=
       (let left := dict_get (holdings self) symbol 0 - quantity in
        if left =? 0 then dict_remove (holdings self) symbol
        else dict_setitem (holdings self) symbol left);
     transactions :=
       transactions self ++
         [{| tx_type := "sell"; tx_symbol := Some symbol; tx_quantity := Some quantity;
             tx_amount := total_proceeds; tx_timestamp := now |}];
     initial_deposit := initial_deposit self |}.

(** When a call returns, and the state it leaves. *)
Inductive returns (now : string) (self : Account) : call -> Account -> Prop :=
| returns_deposit amount :
    (amount <=? 0)%float = false ->
    returns now self (Deposit amount) (deposited self now amount)
| returns_withdraw amount :
    (amount <=? 0)%float = false ->
    (cash_balance self - amount <? 0)%float = false ->
    returns now self (Withdraw amount) (withdrawn self now amount)
| returns_buy symbol quantity price total_cost :
    0 < quantity ->
    get_share_price symbol = Returned price ->
    mul_float_int price quantity = Returned total_cost ->
    (cash_balance self <? total_cost)%float = false ->
    returns now self (BuyShares symbol quantity) (bought self now symbol quantity total_cost)
| returns_sell symbol quantity price total_proceeds :
    0 < quantity ->
    quantity <= dict_get (holdings self) symbol 0 ->
    get_share_price symbol = Returned price ->
    mul_float_int price quantity = Returned total_proceeds ->
    returns now self (SellShares symbol quantity) (sold self now symbol quantity total_proceeds).

(** The four ways a call returns, with the names the proofs below use. *)
Ltac returns_cases R :=
  destruct R as [amount Ha|amount Ha Hc|s q p t Hq Hp Ht Hc|s q p t Hq Hh Hp Ht].

(** The exceptions the methods raise, by their messages. *)
Definition deposit_not_positive : exn :=
  ValueError "Deposit amount must be positive.".
Definition withdrawal_not_positive : exn :=
  ValueError "Withdrawal amount must be positive.".
Definition cannot_withdraw : exn :=
  ValueError "Cannot withdraw more than the available balance.".
Definition quantity_not_positive : exn :=
  ValueError "Quantity must be a positive integer.".
Definition insufficient_funds : exn :=
  ValueError "Insufficient funds to buy shares.".
Definition insufficient_shares : exn :=
  ValueError "Insufficient shares to sell.".

(** Every stored quantity is a strictly positive integer. *)
Definition positive_holdings (d : dict) : Prop :=
  Forall (fun kv => 0 < snd kv) d.

(** The symbols of the price table. *)
Definition catalog : list string := ["AAPL"; "TSLA"; "GOOGL"].

Definition is_deposit (c : call) : bool :=
  match c with Deposit _ => true | _ => false end.

(** A call whose amount, if it has one, is a number and not a NaN. *)
Definition number_call (c : call) : bool :=
  match c with
  | Deposit amount | Withdraw amount => negb (is_nan amount)
  | BuyShares _ _ | SellShares _ _ => true
  end.

(** The sign of a binary64 number that is not a NaN. *)
Definition has_sign (s : bool) (x : spec_float) : Prop :=
  match x with
  | S754_zero s' | S754_infinity s' | S754_finite s' _ _ => s' = s
  | S754_nan => False
  end.

(** A number with a plus sign: [+0], a positive finite number or [+inf]. *)
Definition plus_signed (x : float) : Prop := has_sign false (Prim2SF x).

(** The signed mantissa of a finite number on exponent [ez], as the
    addition and the subtraction align it. *)
Definition aligned (s : bool) (m : positive) (e ez : Z) : Z :=
  cond_Zopp s (Zpos (fst (shl_align m e ez))).

(** The value of a finite number, counted in units of [2^emin], the
    smallest positive number of the format. *)
Definition units (x : spec_float) : option Z :=
  match x with
  | S754_zero _ => Some 0
  | S754_finite s m e => Some (cond_Zopp s (Zpos m * 2 ^ (e - emin)))
  | _ => None
  end.

(** A positive finite number that is a whole number. *)
Definition positive_integer (x : spec_float) : Prop :=
  exists m e, x = S754_finite false m e /\ (2 ^ (0 - emin) | Zpos m * 2 ^ (e - emin)).

(** ** The ledger as a record of the calls *)

(** What one ledger entry did to the cash balance and to the holdings, as
    the method that wrote it did it. *)
Definition apply_entry (st : float * dict) (t : transaction) : float * dict :=
  let (cash, held) := st in
  if String.eqb (tx_type t) "deposit" then ((cash + tx_amount t)%float, held)
  else if String.eqb (tx_type t) "withdraw" then ((cash - tx_amount t)%float, held)
  else
    match tx_symbol t, tx_quantity t with
    | Some symbol, Some quantity =>
        if String.eqb (tx_type t) "buy" then
          ((cash - tx_amount t)%float,
           dict_setitem held symbol (dict_get held symbol 0 + quantity))
        else if String.eqb (tx_type t) "sell" then
          ((cash + tx_amount t)%float,
           let left := dict_get held symbol 0 - quantity in
           if left =? 0 then dict_remove held symbol else dict_setitem held symbol left)
        else st
    | _, _ => st
    end.

(** The cash balance and the holdings a ledger leads to from a fresh
    account. *)
Definition replay (l : list transaction) : float * dict :=
  fold_left apply_entry l (0%float, []).

(** The number of shares of [symbol] in the entries of type [kind]. *)
Definition traded (kind symbol : string) (l : list transaction) : Z :=
  fold_right
    (fun t acc =>
       match tx_symbol t, tx_quantity t with
       | Some s, Some q =>
           if String.eqb (tx_type t) kind && String.eqb s symbol then q + acc else acc
       | _, _ => acc
       end)
    0 l.

(** The calls of a sequence that return, in order. *)
Fixpoint returned_calls (cs : list (string * call)) (self : Account)
    : list (string * call) :=
  match cs with
  | [] => []
  | (now, c) :: cs' =>
      if is_returned (snd (run_call now c self))
      then (now, c) :: returned_calls cs' (after now c self)
      else returned_calls cs' (after now c self)
  end.

(** The entry a returning call writes. *)
Definition records (nc : string * call) (t : transaction) : Prop :=
  tx_timestamp t = fst nc /\
  match snd nc with
  | Deposit amount =>
      tx_type t = "deposit" /\ tx_symbol t = None /\ tx_quantity t = None /\
      tx_amount t = amount
  | Withdraw amount =>
      tx_type t = "withdraw" /\ tx_symbol t = None /\ tx_quantity t = None /\
      tx_amount t = amount
  | BuyShares symbol quantity =>
      tx_type t = "buy" /\ tx_symbol t = Some symbol /\ tx_quantity t = Some quantity /\
      exists price, get_share_price symbol = Returned price /\
                    mul_float_int price quantity = Returned (tx_amount t)
  | SellShares symbol quantity =>
      tx_type t = "sell" /\ tx_symbol t = Some symbol /\ tx_quantity t = Some quantity /\
      exists price, get_share_price symbol = Returned price /\
                    mul_float_int price quantity = Returned (tx_amount t)
  end.

(** A well-formed ledger entry: a cash movement of an amount that is not
    zero or less, or a trade of a positive quantity of a priced symbol whose
    amount is the price times the quantity. *)
Definition entry_ok (t : transaction) : Prop :=
  ((tx_type t = "deposit" \/ tx_type t = "withdraw") /\
   tx_symbol t = None /\ tx_quantity t = None /\ (tx_amount t <=? 0)%float = false) \/
  ((tx_type t = "buy" \/ tx_type t = "sell") /\
   exists symbol quantity price,
     tx_symbol t = Some symbol /\ tx_quantity t = Some quantity /\ 0 < quantity /\
     get_share_price symbol = Returned price /\
     mul_float_int price quantity = Returned (tx_amount t)).

(** ** Whole amounts *)

(** The whole number below [2^53] that a float is, when it is one: every
    such number is a float, and sums, differences and products of such
    numbers that stay below [2^53] are computed without rounding. *)
Definition dollars (x : float) : option Z :=
  match Prim2SF x with
  | S754_zero false => Some 0
  | S754_finite false m e =>
      if (e <=? 0) && (Zpos m mod 2 ^ (- e) =? 0) then Some (Zpos m / 2 ^ (- e)) else None
  | _ => None
  end.

Definition is_whole (x : float) : bool :=
  match dollars x with Some _ => true | None => false end.

(** The sum of the whole numbers of a list of floats. *)
Definition total_dollars (l : list float) : Z :=
  fold_right (fun x acc => match dollars x with Some n => n + acc | None => acc end) 0 l.

(** A summation that is exact on whole numbers: what the builtin [sum] does,
    however it accumulates, when no partial sum needs rounding. *)
Definition sums_whole_dollars (builtin_sum : list float -> float) : Prop :=
  forall l,
    forallb is_whole l = true -> total_dollars l < 2 ^ 53 ->
    dollars (builtin_sum l) = Some (total_dollars l).

(** A call whose amount, if it has one, is a whole number. *)
Definition whole_call (c : call) : bool :=
  match c with
  | Deposit amount | Withdraw amount => is_whole amount
  | BuyShares _ _ | SellShares _ _ => true
  end.

(** The whole amounts that the deposits of a sequence of calls bring in. *)
Definition deposited_dollars (cs : list (string * call)) : Z :=
  fold_right
    (fun nc acc =>
       match snd nc with
       | Deposit amount => match dollars amount with Some n => n + acc | None => acc end
       | _ => acc
       end)
    0 cs.

(** The price of a symbol as a whole number, zero when it has none. *)
Definition price_dollars (symbol : string) : Z :=
  match get_share_price symbol with
  | Returned price => match dollars price with Some n => n | None => 0 end
  | Raised _ => 0
  end.

(** The holdings at their prices. *)
Definition holdings_dollars (d : dict) : Z :=
  fold_right (fun kv acc => snd kv * price_dollars (fst kv) + acc) 0 d.

(** The float [x] is the whole number [n], below [2^53]. *)
Definition whole (x : spec_float) (n : Z) : Prop :=
  match x with
  | S754_zero false => n = 0
  | S754_finite false m e =>
      0 < n < 2 ^ 53 /\ Zpos m * 2 ^ (e - emin) = n * 2 ^ (0 - emin)
  | _ => False
  end.

(** The books balance: the initial deposit is the whole amount deposited,
    the withdrawals are whole amounts, and the cash balance is what was
    deposited, less what was withdrawn, less the holdings at their prices. *)
Definition books_balance (self : Account) : Prop :=
  let deposits := total_dollars (amounts_of "deposit" (transactions self)) in
  let withdrawals := total_dollars (amounts_of "withdraw" (transactions self)) in
  forallb is_whole (amounts_of "withdraw" (transactions self)) = true /\
  dollars (initial_deposit self) = Some deposits /\
  dollars (cash_balance self)
  = Some (deposits - withdrawals - holdings_dollars (holdings self)) /\
  positive_holdings (holdings self) /\
  Forall (fun kv => In (fst kv) catalog) (holdings self).

(** * The interface of [app.py]

    The handlers of [app.py] work on one global [account], which is [None]
    until [create_account] is called, and answer with a text.  The handlers
    that change the account run their body under [try ... except Exception];
    the reporting handlers do not.

    A Python [str] of ASCII characters is the [string] of the same
    characters.  [upper], [capitalize], [strip] and [repr] below are what the
    builtins of these names do on such strings.  The handlers apply
    [capitalize] to the types of the ledger entries and [strip] to a text
    that starts with a letter and ends with a line feed after a digit or a
    letter.  They apply [str.upper] to a symbol that the user typed, which
    may hold any character: that builtin is a parameter of the handlers,
    [str_upper], and the statements that depend on what it returns assume
    that it is [upper] on ASCII strings. *)

(** ** Texts *)

Definition newline : string := String "010"%char EmptyString.

Definition double_quote : string := String "034"%char EmptyString.

(** [str(n)] for an int. *)
Definition str_of_int (n : Z) : string := NilZero.string_of_int (Z.to_int n).

(** The integer nearest to [n * 2^e], the even one of the two on a tie. *)
Definition round_half_even (n e : Z) : Z :=
  if 0 <=? e then n * 2 ^ e
  else
    let d := 2 ^ (- e) in
    let q := n / d in
    let r := n mod d in
    if 2 * r <? d then q
    else if d <? 2 * r then q + 1
    else if Z.even q then q else q + 1.

Definition two_digits (n : Z) : string :=
  if n <? 10 then "0" ++ str_of_int n else str_of_int n.

(** [f"{x:.2f}"] for a float: the decimal number with two digits after the
    point that is nearest to [x], the one with an even last digit on a
    tie. *)
Definition format_2f (x : float) : string :=
  match Prim2SF x with
  | S754_nan => "nan"
  | S754_infinity s => if s then "-inf" else "inf"
  | S754_zero s => (if s then "-" else "") ++ "0.00"
  | S754_finite s m e =>
      let hundredths := round_half_even (Zpos m * 100) e in
      (if s then "-" else "") ++ str_of_int (hundredths / 100) ++ "."
      ++ two_digits (hundredths mod 100)
  end.

Definition is_ascii_char (c : ascii) : bool := (N_of_ascii c <? 128)%N.

Fixpoint is_ascii (s : string) : bool :=
  match s with
  | EmptyString => true
  | String c s' => is_ascii_char c && is_ascii s'
  end.

Definition upper_char (c : ascii) : ascii :=
  let n := N_of_ascii c in
  if ((97 <=? n) && (n <=? 122))%N then ascii_of_N (n - 32) else c.

Definition lower_char (c : ascii) : ascii :=
  let n := N_of_ascii c in
  if ((65 <=? n) && (n <=? 90))%N then ascii_of_N (n + 32) else c.

(** [s.upper()] *)
Fixpoint upper (s : string) : string :=
  match s with
  | EmptyString => EmptyString
  | String c s' => String (upper_char c) (upper s')
  end.

Fixpoint lower (s : string) : string :=
  match s with
  | EmptyString => EmptyString
  | String c s' => String (lower_char c) (lower s')
  end.

(** [s.capitalize()] *)
Definition capitalize (s : string) : string :=
  match s with
  | EmptyString => EmptyString
  | String c s' => String (upper_char c) (lower s')
  end.

(** The blanks of ASCII: tab, line feed, vertical tab, form feed, carriage
    return, the four separators and the space. *)
Definition is_space (c : ascii) : bool :=
  let n := N_of_ascii c in
  (((9 <=? n) && (n <=? 13)) || ((28 <=? n) && (n <=? 32)))%N.

Fixpoint lstrip (s : string) : string :=
  match s with
  | EmptyString => EmptyString
  | String c s' => if is_space c then lstrip s' else s
  end.

Fixpoint rstrip (s : string) : string :=
  match s with
  | EmptyString => EmptyString
  | String c s' =>
      match rstrip s' with
      | EmptyString => if is_space c then EmptyString else String c EmptyString
      | r => String c r
      end
  end.

(** [s.strip()] *)
Definition strip (s : string) : string := lstrip (rstrip s).

Fixpoint contains_char (c : ascii) (s : string) : bool :=
  match s with
  | EmptyString => false
  | String c' s' => Ascii.eqb c' c || contains_char c s'
  end.

Definition hex_digit (n : N) : ascii :=
  if (n <? 10)%N then ascii_of_N (48 + n) else ascii_of_N (87 + n).

(** One character of [repr(s)], inside the quotes [quote]. *)
Definition repr_char (quote c : ascii) : string :=
  let n := N_of_ascii c in
  if Ascii.eqb c quote || Ascii.eqb c "\"%char then String "\"%char (String c EmptyString)
  else if (n =? 9)%N then "\t"
  else if (n =? 10)%N then "\n"
  else if (n =? 13)%N then "\r"
  else if ((n <? 32) || (n =? 127))%N then
    "\x" ++ String (hex_digit (n / 16)) (String (hex_digit (n mod 16)) EmptyString)
  else String c EmptyString.

Fixpoint repr_chars (quote : ascii) (s : string) : string :=
  match s with
  | EmptyString => EmptyString
  | String c s' => repr_char quote c ++ repr_chars quote s'
  end.

(** [repr(s)] for a [str]: in single quotes, unless it holds a single quote
    and no double quote. *)
Definition repr (s : string) : string :=
  let quote :=
    if contains_char "'"%char s && negb (contains_char "034"%char s)
    then "034"%char else "'"%char in
  String quote (repr_chars quote s ++ String quote EmptyString).

(** [str(e)]: the message of a [ValueError] or an [OverflowError], the
    [repr] of the key of a [KeyError]. *)
Definition str_exn (e : exn) : string :=
  match e with
  | ValueError msg => msg
  | OverflowError msg => msg
  | KeyError key => repr key
  end.

(** ** The handlers *)

(** A handler: it runs on the global [account] and answers or raises. *)
Definition UI (A : Type) : Type := option Account -> option Account * outcome A.

(** [try: body  except Exception as e: handler(e)] *)
Definition try_except {A} (body : UI A) (handler : exn -> UI A) : UI A :=
  fun st =>
    match body st with
    | (st', Returned v) => (st', Returned v)
    | (st', Raised e) => handler e st'
    end.

Definition please_create : string := "Please create an account first.".

Definition error_reply (e : exn) : UI string :=
  fun st => (st, Returned ("Error: " ++ str_exn e)).

Module App.

Section Builtins.

(** The builtin [str.upper]. *)
Variable str_upper : string -> string.

Definition create_account (uid : string) : UI string :=
  fun _ =>
    (Some (new_account uid),
     Returned ("Account created for user '" ++ uid ++ "'. Balance: $0.00")).

Definition deposit (now : string) (amount : float) : UI string :=
  try_except
    (fun st =>
       match st with
       | None => (st, Returned please_create)
       | Some account =>
           match deposit now amount account with
           | (account', Raised e) => (Some account', Raised e)
           | (account', Returned _) =>
               (Some account',
                Returned ("Deposited $" ++ format_2f amount ++ ". New balance: $"
                          ++ format_2f (cash_balance account')))
           end
       end)
    error_reply.

Definition withdraw (now : string) (amount : float) : UI string :=
  try_except
    (fun st =>
       match st with
       | None => (st, Returned please_create)
       | Some account =>
           match withdraw now amount account with
           | (account', Raised e) => (Some account', Raised e)
           | (account', Returned _) =>
               (Some account',
                Returned ("Withdrew $" ++ format_2f amount ++ ". New balance: $"
                          ++ format_2f (cash_balance account')))
           end
       end)
    error_reply.

Definition buy_shares (now : string) (symbol : string) (quantity : Z) : UI string :=
  try_except
    (fun st =>
       match st with
       | None => (st, Returned please_create)
       | Some account =>
           let symbol := str_upper symbol in
           match buy_shares now symbol quantity account with
           | (account', Raised e) => (Some account', Raised e)
           | (account', Returned _) =>
               match get_share_price symbol with
               | Raised e => (Some account', Raised e)
               | Returned price =>
                   (Some account',
                    Returned ("Bought " ++ str_of_int quantity ++ " shares of " ++ symbol
                              ++ " at $" ++ format_2f price ++ " each."))
               end
           end
       end)
    error_reply.

Definition sell_shares (now : string) (symbol : string) (quantity : Z) : UI string :=
  try_except
    (fun st =>
       match st with
       | None => (st, Returned please_create)
       | Some account =>
           let symbol := str_upper symbol in
           match sell_shares now symbol quantity account with
           | (account', Raised e) => (Some account', Raised e)
           | (account', Returned _) =>
               match get_share_price symbol with
               | Raised e => (Some account', Raised e)
               | Returned price =>
                   (Some account',
                    Returned ("Sold " ++ str_of_int quantity ++ " shares of " ++ symbol
                              ++ " at $" ++ format_2f price ++ " each."))
               end
           end
       end)
    error_reply.

(** The loop of [show_holdings], started from [result]. *)
Fixpoint holdings_lines (items : dict) (result : string) : outcome string :=
  match items with
  | [] => Returned result
  | (symbol, qty) :: items' =>
      match get_share_price symbol with
      | Raised e => Raised e
      | Returned price =>
          match mul_float_int price qty with
          | Raised e => Raised e
          | Returned value =>
              holdings_lines items'
                (result ++ symbol ++ ": " ++ str_of_int qty ++ " shares @ $"
                 ++ format_2f price ++ " = $" ++ format_2f value ++ newline)
          end
      end
  end.

Definition show_holdings : UI string :=
  fun st =>
    match st with
    | None => (st, Returned please_create)
    | Some account =>
        match get_holdings account with
        | [] => (st, Returned "No holdings.")
        | items =>
            match holdings_lines items ("Holdings:" ++ newline) with
            | Raised e => (st, Raised e)
            | Returned result => (st, Returned (strip result))
            end
        end
    end.

Definition show_portfolio_value : UI string :=
  fun st =>
    match st with
    | None => (st, Returned please_create)
    | Some account =>
        match get_portfolio_value account with
        | Raised e => (st, Raised e)
        | Returned val => (st, Returned ("Total portfolio value: $" ++ format_2f val))
        end
    end.

Definition show_profit_loss (builtin_sum : list float -> float) : UI string :=
  fun st =>
    match st with
    | None => (st, Returned please_create)
    | Some account =>
        match get_profit_loss builtin_sum account with
        | Raised e => (st, Raised e)
        | Returned pl =>
            let color := if (0 <=? pl)%float then "green" else "red" in
            let sign := if (0 <=? pl)%float then "+" else "" in
            (st,
             Returned ("<span style=" ++ double_quote ++ "color:" ++ color ++ ";"
                       ++ double_quote ++ ">Profit/Loss: " ++ sign ++ "$" ++ format_2f pl
                       ++ "</span>"))
        end
    end.

(** The line of one transaction: none when its type is not one of the four,
    a [KeyError] when a trade lacks its symbol or its quantity. *)
Definition transaction_line (t : transaction) : outcome (option string) :=
  let ts := tx_timestamp t in
  let ttype := capitalize (tx_type t) in
  if String.eqb ttype "Deposit" || String.eqb ttype "Withdraw" then
    let amt := "$" ++ format_2f (tx_amount t) in
    Returned (Some (ts ++ ": " ++ ttype ++ " " ++ amt))
  else if String.eqb ttype "Buy" || String.eqb ttype "Sell" then
    match tx_symbol t with
    | None => Raised (KeyError "symbol")
    | Some sym =>
        match tx_quantity t with
        | None => Raised (KeyError "quantity")
        | Some qty =>
            let amt := "$" ++ format_2f (tx_amount t) in
            Returned (Some (ts ++ ": " ++ ttype ++ " " ++ str_of_int qty ++ " shares of "
                            ++ sym ++ " for " ++ amt))
        end
    end
  else Returned None.

(** The loop of [list_transactions], started from [lines]. *)
Fixpoint transaction_lines (l : list transaction) (lines : list string)
    : outcome (list string) :=
  match l with
  | [] => Returned lines
  | t :: l' =>
      match transaction_line t with
      | Raised e => Raised e
      | Returned None => transaction_lines l' lines
      | Returned (Some line) => transaction_lines l' (lines ++ [line])
      end
  end.

Definition list_transactions : UI string :=
  fun st =>
    match st with
    | None => (st, Returned please_create)
    | Some account =>
        match get_transactions account with
        | [] => (st, Returned "No transactions yet.")
        | l =>
            match transaction_lines l [] with
            | Raised e => (st, Raised e)
            | Returned lines => (st, Returned (String.concat newline lines))
            end
        end
    end.

End Builtins.

End App.

(** ** What a user does *)

Inductive ui_event : Type :=
| CreateAccount (uid : string)
| Change (now : string) (c : call)
| ShowHoldings
| ShowPortfolioValue
| ShowProfitLoss
| ListTransactions.

Section Session.

(** The builtins [sum] and [str.upper]. *)
Variable builtin_sum : list float -> float.
Variable str_upper : string -> string.

(** The handler of a change, the symbol being as the user typed it. *)
Definition ui_change (now : string) (c : call) : UI string :=
  match c with
  | Deposit amount => App.deposit now amount
  | Withdraw amount => App.withdraw now amount
  | BuyShares symbol quantity => App.buy_shares str_upper now symbol quantity
  | SellShares symbol quantity => App.sell_shares str_upper now symbol quantity
  end.

Definition ui_handle (ev : ui_event) : UI string :=
  match ev with
  | CreateAccount uid => App.create_account uid
  | Change now c => ui_change now c
  | ShowHoldings => App.show_holdings
  | ShowPortfolioValue => App.show_portfolio_value
  | ShowProfitLoss => App.show_profit_loss builtin_sum
  | ListTransactions => App.list_transactions
  end.

(** The global account after a session. *)
Fixpoint ui_run (evs : list ui_event) (st : option Account) : option Account :=
  match evs with
  | [] => st
  | ev :: evs' => ui_run evs' (fst (ui_handle ev st))
  end.

(** The call the interface makes for a change: the symbol in upper case. *)
Definition upper_call (c : call) : call :=
  match c with
  | BuyShares symbol quantity => BuyShares (str_upper symbol) quantity
  | SellShares symbol quantity => SellShares (str_upper symbol) quantity
  | _ => c
  end.

End Session.

(** [str_upper] is the upper-casing of ASCII on ASCII strings. *)
Definition upper_on_ascii (str_upper : string -> string) : Prop :=
  forall s, is_ascii s = true -> str_upper s = upper s.

(** ** Notions used in the statements about the interface *)

(** The exceptions of the four methods. *)
Definition method_errors : list exn :=
  [deposit_not_positive; withdrawal_not_positive; cannot_withdraw;
   quantity_not_positive; insufficient_funds; insufficient_shares;
   unsupported_symbol; int_too_large].

(** The answer of the interface to a change that was made. *)
Definition confirmation (c : call) (account : Account) : string :=
  match c with
  | Deposit amount =>
      "Deposited $" ++ format_2f amount ++ ". New balance: $"
      ++ format_2f (cash_balance account)
  | Withdraw amount =>
      "Withdrew $" ++ format_2f amount ++ ". New balance: $"
      ++ format_2f (cash_balance account)
  | BuyShares symbol quantity =>
      "Bought " ++ str_of_int quantity ++ " shares of " ++ symbol ++ " at $"
      ++ format_2f (match get_share_price symbol with Returned p => p | Raised _ => 0%float end)
      ++ " each."
  | SellShares symbol quantity =>
      "Sold " ++ str_of_int quantity ++ " shares of " ++ symbol ++ " at $"
      ++ format_2f (match get_share_price symbol with Returned p => p | Raised _ => 0%float end)
      ++ " each."
  end.

(** Lines, each followed by a line feed. *)
Fixpoint lines_text (lines : list string) : string :=
  match lines with
  | [] => EmptyString
  | line :: lines' => line ++ newline ++ lines_text lines'
  end.

(** A text whose last character is not a blank. *)
Definition ends_in_print (s : string) : Prop :=
  exists s' c, s = s' ++ String c EmptyString /\ is_space c = false.

(** * Binary64 arithmetic

    Facts about rounding, signs and order, derived from the specification
    of the primitive operations. *)

Section Binary64.

Lemma digits2_pos_size (p : positive) : digits2_pos p = Pos.size p.
Proof. induction p; simpl; congruence. Qed.

Lemma Zdigits2_log2 (p : positive) : Zdigits2 (Zpos p) = Z.log2 (Zpos p) + 1.
Proof.
  unfold Zdigits2. rewrite digits2_pos_size.
  destruct p; simpl; lia.
Qed.

Lemma digits_bounds (p : positive) :
  2 ^ (Zpos (digits2_pos p) - 1) <= Zpos p < 2 ^ Zpos (digits2_pos p).
Proof.
  change (Zpos (digits2_pos p)) with (Zdigits2 (Zpos p)).
  rewrite Zdigits2_log2.
  replace (Z.log2 (Zpos p) + 1 - 1) with (Z.log2 (Zpos p)) by lia.
  apply (Z.log2_spec (Zpos p)). lia.
Qed.

Lemma digits_le (p q : positive) :
  Zpos p <= Zpos q -> Zpos (digits2_pos p) <= Zpos (digits2_pos q).
Proof.
  intros H.
  change (Zdigits2 (Zpos p) <= Zdigits2 (Zpos q)).
  rewrite !Zdigits2_log2.
  apply Z.log2_le_mono in H. lia.
Qed.

Lemma digits_shift (p : positive) (k : Z) (q : positive) :
  0 <= k -> Zpos q = Zpos p * 2 ^ k ->
  Zpos (digits2_pos q) = Zpos (digits2_pos p) + k.
Proof.
  intros Hk Hq.
  change (Zdigits2 (Zpos q) = Zdigits2 (Zpos p) + k).
  rewrite !Zdigits2_log2, Hq, Z.log2_mul_pow2 by lia. lia.
Qed.

Lemma shr_1_m (mrs : shr_record) :
  0 <= shr_m mrs -> shr_m (shr_1 mrs) = shr_m mrs / 2.
Proof.
  destruct mrs as [m r s]. simpl. intros Hm.
  rewrite <- Z.div2_div.
  destruct m as [|[p|p|]|p]; try reflexivity. lia.
Qed.

Lemma iter_shr_1_m (p : positive) :
  forall mrs, 0 <= shr_m mrs ->
    shr_m (iter_pos shr_1 p mrs) = shr_m mrs / 2 ^ Zpos p.
Proof.
  induction p as [p IH|p IH|]; intros mrs Hm; simpl iter_pos.
  - assert (H1 : 0 <= shr_m (shr_1 mrs)) by (rewrite shr_1_m by assumption; apply Z.div_pos; lia).
    assert (H2 : 0 <= shr_m (iter_pos shr_1 p (shr_1 mrs)))
      by (rewrite IH by assumption; apply Z.div_pos; lia).
    rewrite IH, IH, shr_1_m by assumption.
    replace (Zpos p~1) with (1 + Zpos p + Zpos p) by lia.
    rewrite !Z.pow_add_r, Z.pow_1_r by lia.
    rewrite <- !Z.div_div by lia. reflexivity.
  - assert (H2 : 0 <= shr_m (iter_pos shr_1 p mrs))
      by (rewrite IH by assumption; apply Z.div_pos; lia).
    rewrite IH, IH by assumption.
    replace (Zpos p~0) with (Zpos p + Zpos p) by lia.
    rewrite Z.pow_add_r by lia.
    rewrite <- Z.div_div by lia. reflexivity.
  - rewrite shr_1_m by assumption. reflexivity.
Qed.

Lemma shr_record_of_loc_m (m : Z) (l : location) : shr_m (shr_record_of_loc m l) = m.
Proof. destruct l as [|[ | | ]]; reflexivity. Qed.

(** What [shr_fexp] does to the mantissa and the exponent. *)
Lemma shr_fexp_spec (m e : Z) (l : location) :
  0 <= m ->
  let n := Z.max 0 (fexp prec emax (Zdigits2 m + e) - e) in
  shr_m (fst (shr_fexp prec emax m e l)) = m / 2 ^ n /\
  snd (shr_fexp prec emax m e l) = e + n.
Proof.
  intros Hm n. unfold shr_fexp, shr. subst n.
  destruct (fexp prec emax (Zdigits2 m + e) - e) as [|p|p] eqn:E; simpl fst; simpl snd.
  - rewrite shr_record_of_loc_m, Z.max_l, Z.div_1_r by lia. lia.
  - rewrite iter_shr_1_m by (rewrite shr_record_of_loc_m; assumption).
    rewrite shr_record_of_loc_m, Z.max_r by lia. split; reflexivity.
  - rewrite shr_record_of_loc_m, Z.max_l, Z.div_1_r by lia. lia.
Qed.

Lemma round_nearest_even_bounds (m : Z) (l : location) :
  m <= round_nearest_even m l <= m + 1.
Proof.
  destruct l as [|[ | | ]]; simpl; try lia.
  destruct (Z.even m); lia.
Qed.


Lemma binary_round_aux_sign (s : bool) (mx ex : Z) (lx : location) :
  0 <= mx -> has_sign s (binary_round_aux prec emax s mx ex lx).
Proof.
  intros Hm. unfold binary_round_aux.
  destruct (shr_fexp_spec mx ex lx Hm) as [H1 _].
  destruct (shr_fexp prec emax mx ex lx) as [mrs' e']. simpl fst in H1.
  pose proof (round_nearest_even_bounds (shr_m mrs') (loc_of_shr_record mrs')) as Hr.
  set (m2 := round_nearest_even (shr_m mrs') (loc_of_shr_record mrs')) in *.
  assert (H0 : 0 <= m2).
  { rewrite H1 in Hr. pose proof (Z.div_pos mx (2 ^ Z.max 0 (fexp prec emax (Zdigits2 mx + ex) - ex))).
    assert (0 < 2 ^ Z.max 0 (fexp prec emax (Zdigits2 mx + ex) - ex)) by (apply Z.pow_pos_nonneg; lia).
    lia. }
  destruct (shr_fexp_spec m2 e' loc_Exact H0) as [H2 _].
  destruct (shr_fexp prec emax m2 e' loc_Exact) as [mrs'' e'']. simpl fst in H2.
  destruct (shr_m mrs'') as [|q|q].
  - reflexivity.
  - destruct (e'' <=? emax - prec); reflexivity.
  - exfalso.
    assert (0 <= m2 / 2 ^ Z.max 0 (fexp prec emax (Zdigits2 m2 + e') - e')).
    { apply Z.div_pos; [assumption|]. apply Z.pow_pos_nonneg; lia. }
    lia.
Qed.

Lemma shift_keeps_positive (q : positive) (e : Z) :
  emin <= e ->
  1 <= Zpos q / 2 ^ Z.max 0 (fexp prec emax (Zpos (digits2_pos q) + e) - e).
Proof.
  intros He.
  pose proof (digits_bounds q) as [Hlo _].
  set (d := Zpos (digits2_pos q)) in *.
  assert (Hd : 1 <= d) by (unfold d; lia).
  set (n := Z.max 0 (fexp prec emax (d + e) - e)).
  assert (Hn : 0 <= n <= d - 1).
  { unfold n, fexp, SpecFloat.emin, prec, emax in *. lia. }
  assert (Hp : 2 ^ n <= 2 ^ (d - 1)) by (apply Z.pow_le_mono_r; lia).
  apply Z.div_le_lower_bound; [apply Z.pow_pos_nonneg; lia | lia].
Qed.

(** The result of rounding a positive integer [M * 2^e]: never a zero and
    never a NaN, with an exponent and a mantissa bounded from below. *)
Lemma binary_round_aux_lower (s : bool) (M : positive) (e : Z) (l : location) :
  emin <= e ->
  let n := Z.max 0 (fexp prec emax (Zpos (digits2_pos M) + e) - e) in
  let r := binary_round_aux prec emax s (Zpos M) e l in
  r = S754_infinity s \/
  exists mr er, r = S754_finite s mr er /\ e + n <= er /\
                (er = e + n -> Zpos M / 2 ^ n <= Zpos mr).
Proof.
  intros He n r. subst r. unfold binary_round_aux.
  destruct (shr_fexp_spec (Zpos M) e l ltac:(lia)) as [H1 H1e].
  destruct (shr_fexp prec emax (Zpos M) e l) as [mrs' e']. simpl fst in H1. simpl snd in H1e.
  change (Zdigits2 (Zpos M)) with (Zpos (digits2_pos M)) in H1, H1e. fold n in H1, H1e.
  pose proof (round_nearest_even_bounds (shr_m mrs') (loc_of_shr_record mrs')) as Hr.
  set (m2 := round_nearest_even (shr_m mrs') (loc_of_shr_record mrs')) in *.
  pose proof (shift_keeps_positive M e He) as Hpos. fold n in Hpos.
  destruct m2 as [|q|q] eqn:Em2; try lia.
  assert (He' : emin <= e') by (unfold n in H1e; lia).
  destruct (shr_fexp_spec (Zpos q) e' loc_Exact ltac:(lia)) as [H2 H2e].
  destruct (shr_fexp prec emax (Zpos q) e' loc_Exact) as [mrs'' e'']. simpl fst in H2. simpl snd in H2e.
  change (Zdigits2 (Zpos q)) with (Zpos (digits2_pos q)) in H2, H2e.
  pose proof (shift_keeps_positive q e' He') as Hpos2.
  set (n2 := Z.max 0 (fexp prec emax (Zpos (digits2_pos q) + e') - e')) in *.
  destruct (shr_m mrs'') as [|mr|mr]; try lia.
  destruct (e'' <=? emax - prec).
  - right. exists mr, e''. split; [reflexivity|]. split; [unfold n2 in H2e; lia|].
    intros Heq. assert (n2 = 0) by lia.
    rewrite H in H2. rewrite Z.pow_0_r, Z.div_1_r in H2. lia.
  - left. reflexivity.
Qed.

Lemma iter_xO_spec (d m : positive) : Zpos (Pos.iter xO m d) = Zpos m * 2 ^ Zpos d.
Proof.
  induction d as [|d IH] using Pos.peano_ind.
  - simpl. lia.
  - rewrite Pos.iter_succ, Pos2Z.inj_xO, IH, Pos2Z.inj_succ, Z.pow_succ_r by lia. lia.
Qed.

Lemma shl_align_spec (m : positive) (e e' : Z) :
  e' <= e ->
  Zpos (fst (shl_align m e e')) = Zpos m * 2 ^ (e - e') /\ snd (shl_align m e e') = e'.
Proof.
  intros H. unfold shl_align.
  destruct (e' - e) as [|p|p] eqn:E; simpl fst; simpl snd; try lia.
  - replace (e - e') with 0 by lia. rewrite Z.pow_0_r. lia.
  - rewrite iter_xO_spec. replace (e - e') with (Zpos p) by lia. lia.
Qed.

Lemma shl_align_id (m : positive) (e e' : Z) :
  e <= e' -> shl_align m e e' = (m, e).
Proof.
  intros H. unfold shl_align. destruct (e' - e) eqn:E; try reflexivity. lia.
Qed.

Lemma binary_round_lower (s : bool) (M : positive) (ez : Z) :
  emin <= ez ->
  let E := fexp prec emax (Zpos (digits2_pos M) + ez) in
  let r := binary_round prec emax s M ez in
  r = S754_infinity s \/
  exists mr er, r = S754_finite s mr er /\ E <= er /\
                (er = E -> ez <= E -> Zpos M / 2 ^ (E - ez) <= Zpos mr).
Proof.
  intros Hez E r. subst r. unfold binary_round. fold E.
  destruct (Z_le_gt_dec ez E) as [Hle|Hgt].
  - rewrite shl_align_id by assumption.
    destruct (binary_round_aux_lower s M ez loc_Exact Hez) as [Hinf|(mr & er & Hr & H1 & H2)].
    + left. assumption.
    + right. exists mr, er. fold E in H1, H2.
      rewrite Z.max_r in H1, H2 by lia.
      split; [assumption|]. split; [lia|]. intros. apply H2. lia.
  - destruct (shl_align_spec M ez E ltac:(lia)) as [Hm He].
    destruct (shl_align M ez E) as [mz ezz]. simpl fst in Hm. simpl snd in He. subst ezz.
    assert (HE : emin <= E) by (unfold E, fexp; lia).
    destruct (binary_round_aux_lower s mz E loc_Exact HE) as [Hinf|(mr & er & Hr & H1 & H2)].
    + left. assumption.
    + right. exists mr, er. split; [assumption|]. split; [lia|]. intros. lia.
Qed.

Lemma valid_finite_inv (s : bool) (m : positive) (e : Z) :
  valid_binary (S754_finite s m e) = true ->
  fexp prec emax (Zpos (digits2_pos m) + e) = e /\ e <= emax - prec.
Proof.
  unfold SpecFloat.valid_binary, bounded, canonical_mantissa.
  rewrite andb_true_iff, Z.eqb_eq, Z.leb_le. tauto.
Qed.

Lemma valid_finite_emin (s : bool) (m : positive) (e : Z) :
  valid_binary (S754_finite s m e) = true -> emin <= e.
Proof.
  intros H. apply valid_finite_inv in H. destruct H as [H _].
  unfold fexp in H. lia.
Qed.

(** Canonical positive numbers are ordered as their integer values on a
    common exponent. *)
Lemma compare_canonical (m1 m2 : positive) (e1 e2 : Z) :
  valid_binary (S754_finite false m1 e1) = true ->
  valid_binary (S754_finite false m2 e2) = true ->
  match e1 ?= e2 with
  | Lt => Lt
  | Gt => Gt
  | Eq => Pos.compare_cont Eq m1 m2
  end = (Zpos m1 * 2 ^ (e1 - Z.min e1 e2) ?= Zpos m2 * 2 ^ (e2 - Z.min e1 e2)).
Proof.
  intros V1 V2.
  apply valid_finite_inv in V1, V2. destruct V1 as [V1 _], V2 as [V2 _].
  pose proof (digits_bounds m1) as [L1 U1]. pose proof (digits_bounds m2) as [L2 U2].
  set (d1 := Zpos (digits2_pos m1)) in *. set (d2 := Zpos (digits2_pos m2)) in *.
  assert (Hd1 : 1 <= d1) by (unfold d1; lia). assert (Hd2 : 1 <= d2) by (unfold d2; lia).
  assert (P : 2 ^ prec = 2 * 2 ^ (prec - 1)) by reflexivity.
  destruct (Z.compare_spec e1 e2) as [E|E|E].
  - subst e2. rewrite Z.min_id, Z.sub_diag, Z.pow_0_r, !Z.mul_1_r. reflexivity.
  - symmetry. apply Z.compare_lt_iff.
    rewrite Z.min_l, Z.sub_diag, Z.pow_0_r, Z.mul_1_r by lia.
    assert (D2 : d2 = prec) by (unfold fexp, SpecFloat.emin, prec, emax in *; lia).
    assert (D1 : d1 <= prec) by (unfold fexp, SpecFloat.emin, prec, emax in *; lia).
    assert (2 ^ d1 <= 2 ^ prec) by (apply Z.pow_le_mono_r; lia).
    assert (2 ^ 1 <= 2 ^ (e2 - e1)) by (apply Z.pow_le_mono_r; lia).
    rewrite D2 in L2. change (2 ^ 1) with 2 in *. nia.
  - symmetry. apply Z.compare_gt_iff.
    rewrite Z.min_r, Z.sub_diag, Z.pow_0_r, Z.mul_1_r by lia.
    assert (D1 : d1 = prec) by (unfold fexp, SpecFloat.emin, prec, emax in *; lia).
    assert (D2 : d2 <= prec) by (unfold fexp, SpecFloat.emin, prec, emax in *; lia).
    assert (2 ^ d2 <= 2 ^ prec) by (apply Z.pow_le_mono_r; lia).
    assert (2 ^ 1 <= 2 ^ (e1 - e2)) by (apply Z.pow_le_mono_r; lia).
    rewrite D1 in L1. change (2 ^ 1) with 2 in *. nia.
Qed.


Lemma aligned_spec (s : bool) (m : positive) (e ez : Z) :
  ez <= e -> aligned s m e ez = cond_Zopp s (Zpos m * 2 ^ (e - ez)).
Proof.
  intros H. unfold aligned. destruct (shl_align_spec m e ez H) as [-> _]. reflexivity.
Qed.

Lemma SFcompare_finite (s1 s2 : bool) (m1 m2 : positive) (e1 e2 : Z) :
  valid_binary (S754_finite s1 m1 e1) = true ->
  valid_binary (S754_finite s2 m2 e2) = true ->
  SFcompare (S754_finite s1 m1 e1) (S754_finite s2 m2 e2)
  = Some (aligned s1 m1 e1 (Z.min e1 e2) ?= aligned s2 m2 e2 (Z.min e1 e2)).
Proof.
  intros V1 V2.
  rewrite !aligned_spec by lia.
  assert (P1 : 0 < Zpos m1 * 2 ^ (e1 - Z.min e1 e2)).
  { apply Z.mul_pos_pos; [lia|]. apply Z.pow_pos_nonneg; lia. }
  assert (P2 : 0 < Zpos m2 * 2 ^ (e2 - Z.min e1 e2)).
  { apply Z.mul_pos_pos; [lia|]. apply Z.pow_pos_nonneg; lia. }
  unfold SFcompare. f_equal.
  destruct s1, s2; unfold cond_Zopp.
  - rewrite Z.compare_opp, (Z.min_comm e1 e2), <- (compare_canonical m2 m1 e2 e1 V2 V1).
    rewrite (Z.compare_antisym e2 e1).
    destruct (e2 ?= e1); try reflexivity. simpl CompOpp.
    rewrite Pos.compare_cont_antisym. reflexivity.
  - symmetry. apply Z.compare_lt_iff. lia.
  - symmetry. apply Z.compare_gt_iff. lia.
  - apply compare_canonical; assumption.
Qed.

Lemma binary_round_sign (s : bool) (m : positive) (e : Z) :
  has_sign s (binary_round prec emax s m e).
Proof.
  unfold binary_round.
  destruct (shl_align m e (fexp prec emax (Zpos (digits2_pos m) + e))) as [mz ez].
  apply binary_round_aux_sign. lia.
Qed.

Lemma binary_normalize_nonneg (m e : Z) :
  0 <= m -> has_sign false (binary_normalize prec emax m e false).
Proof.
  intros H. destruct m as [|p|p]; simpl.
  - reflexivity.
  - apply binary_round_sign.
  - lia.
Qed.

Lemma SFltb_zero_sign_false (x : spec_float) :
  has_sign false x -> SFltb x (S754_zero false) = false.
Proof. destruct x as [s|s| |s m e]; simpl; intros H; try subst s; try reflexivity; contradiction. Qed.

Lemma SFcompare_antisym (x y : spec_float) :
  SFcompare y x = option_map CompOpp (SFcompare x y).
Proof.
  destruct x as [s1|s1| |s1 m1 e1], y as [s2|s2| |s2 m2 e2]; simpl;
    try reflexivity; try (destruct s1; reflexivity); try (destruct s2; reflexivity);
    try (destruct s1, s2; reflexivity).
  destruct s1, s2; try reflexivity; f_equal; rewrite (Z.compare_antisym e1 e2);
    destruct (e1 ?= e2); simpl; try reflexivity.
  - f_equal. symmetry. exact (Pos.compare_cont_antisym m1 m2 Eq).
  - symmetry. exact (Pos.compare_cont_antisym m1 m2 Eq).
Qed.

Lemma Prim2SF_0 : Prim2SF 0%float = S754_zero false.
Proof. reflexivity. Qed.

Lemma SFltb_zero_inv (x : spec_float) :
  SFltb x (S754_zero false) = false ->
  match x with
  | S754_finite s _ _ | S754_infinity s => s = false
  | _ => True
  end.
Proof.
  destruct x as [s|s| |s m e]; simpl; try exact (fun _ => I);
    destruct s; simpl; intros H; (reflexivity || discriminate H).
Qed.

(** Adding two numbers neither of which is below zero. *)
Lemma add_not_negative (x y : float) :
  (x <? 0)%float = false -> (y <? 0)%float = false -> (x + y <? 0)%float = false.
Proof.
  rewrite !ltb_spec, add_spec, Prim2SF_0. intros Hx Hy.
  apply SFltb_zero_inv in Hx, Hy.
  destruct (Prim2SF x) as [s1|s1| |s1 m1 e1], (Prim2SF y) as [s2|s2| |s2 m2 e2];
    try subst s1; try subst s2; try reflexivity;
    try (destruct s1; reflexivity); try (destruct s2; reflexivity);
    try (destruct s1, s2; reflexivity).
  unfold SF64add, SFadd. apply SFltb_zero_sign_false, binary_normalize_nonneg.
  unfold cond_Zopp. lia.
Qed.

Lemma mul_not_negative (x y : float) :
  (x <? 0)%float = false -> (y <? 0)%float = false -> (x * y <? 0)%float = false.
Proof.
  rewrite !ltb_spec, mul_spec, Prim2SF_0. intros Hx Hy.
  apply SFltb_zero_inv in Hx, Hy.
  destruct (Prim2SF x) as [s1|s1| |s1 m1 e1], (Prim2SF y) as [s2|s2| |s2 m2 e2];
    try subst s1; try subst s2; try reflexivity;
    try (destruct s1; reflexivity); try (destruct s2; reflexivity);
    try (destruct s1, s2; reflexivity).
  unfold SF64mul, SFmul. apply SFltb_zero_sign_false, binary_round_aux_sign. lia.
Qed.

(** [x - y] is not below zero when [y] is not above [x]. *)
Lemma sub_not_negative (x y : float) :
  (x <? y)%float = false -> (x - y <? 0)%float = false.
Proof.
  rewrite !ltb_spec, sub_spec, Prim2SF_0.
  pose proof (Prim2SF_valid x) as Vx. pose proof (Prim2SF_valid y) as Vy.
  destruct (Prim2SF x) as [s1|s1| |s1 m1 e1], (Prim2SF y) as [s2|s2| |s2 m2 e2];
    try reflexivity;
    try (destruct s1; simpl; (reflexivity || discriminate));
    try (destruct s2; simpl; (reflexivity || discriminate));
    try (destruct s1, s2; simpl; (reflexivity || discriminate)).
  unfold SFltb. rewrite (SFcompare_finite _ _ _ _ _ _ Vx Vy). intros H.
  unfold SF64sub, SFsub. fold (aligned s1 m1 e1 (Z.min e1 e2)). fold (aligned s2 m2 e2 (Z.min e1 e2)).
  apply SFltb_zero_sign_false, binary_normalize_nonneg.
  destruct (Z.compare_spec (aligned s1 m1 e1 (Z.min e1 e2)) (aligned s2 m2 e2 (Z.min e1 e2)));
    try discriminate; lia.
Qed.

Lemma binary_round_negative (m : positive) (e : Z) :
  emin <= e -> SFltb (binary_round prec emax true m e) (S754_zero false) = true.
Proof.
  intros He.
  destruct (binary_round_lower true m e He) as [-> | (mr & er & -> & _)]; reflexivity.
Qed.

(** [x - y] is below zero when [x] is below [y]: a difference of distinct
    numbers never rounds to zero. *)
Lemma sub_negative (x y : float) :
  (x <? y)%float = true -> (x - y <? 0)%float = true.
Proof.
  rewrite !ltb_spec, sub_spec, Prim2SF_0.
  pose proof (Prim2SF_valid x) as Vx. pose proof (Prim2SF_valid y) as Vy.
  destruct (Prim2SF x) as [s1|s1| |s1 m1 e1], (Prim2SF y) as [s2|s2| |s2 m2 e2];
    try discriminate;
    try (destruct s1; simpl; (reflexivity || discriminate));
    try (destruct s2; simpl; (reflexivity || discriminate));
    try (destruct s1, s2; simpl; (reflexivity || discriminate)).
  unfold SFltb at 1. rewrite (SFcompare_finite _ _ _ _ _ _ Vx Vy). intros H.
  unfold SF64sub, SFsub. fold (aligned s1 m1 e1 (Z.min e1 e2)). fold (aligned s2 m2 e2 (Z.min e1 e2)).
  destruct (Z.compare_spec (aligned s1 m1 e1 (Z.min e1 e2)) (aligned s2 m2 e2 (Z.min e1 e2)));
    try discriminate.
  destruct (aligned s1 m1 e1 (Z.min e1 e2) - aligned s2 m2 e2 (Z.min e1 e2)) as [|p|p] eqn:E;
    try lia.
  simpl. apply binary_round_negative.
  apply valid_finite_emin in Vx, Vy. lia.
Qed.



Lemma SFcompare_None (x y : spec_float) :
  SFcompare x y = None -> x = S754_nan \/ y = S754_nan.
Proof.
  destruct x as [s1|s1| |s1 m1 e1], y as [s2|s2| |s2 m2 e2]; simpl; auto; discriminate.
Qed.

Lemma SFltb_negb_SFleb (x y : spec_float) :
  x <> S754_nan -> y <> S754_nan -> SFltb x y = negb (SFleb y x).
Proof.
  intros Hx Hy. unfold SFltb, SFleb. rewrite (SFcompare_antisym x y).
  destruct (SFcompare x y) as [[ | | ]|] eqn:E; try reflexivity.
  apply SFcompare_None in E. tauto.
Qed.


Lemma plus_signed_not_negative (x : float) : plus_signed x -> (x <? 0)%float = false.
Proof.
  unfold plus_signed. rewrite ltb_spec, Prim2SF_0. apply SFltb_zero_sign_false.
Qed.

Lemma leb_zero_plus_or_zero (x : float) :
  (0 <=? x)%float = true -> Prim2SF x <> S754_nan /\ (x <? 0)%float = false.
Proof.
  rewrite leb_spec, ltb_spec, Prim2SF_0.
  destruct (Prim2SF x) as [s|s| |s m e]; simpl; try discriminate;
    try (split; [discriminate|reflexivity]);
    destruct s; simpl; try discriminate; split; (discriminate || reflexivity).
Qed.

(** Without NaN, ``not greater'' is ``less or equal''. *)
Lemma not_ltb_leb (x y : float) :
  (0 <=? x)%float = true -> plus_signed y ->
  (x <? y)%float = negb (y <=? x)%float.
Proof.
  intros Hx Hy. apply leb_zero_plus_or_zero in Hx. destruct Hx as [Hx _].
  rewrite ltb_spec, leb_spec. apply SFltb_negb_SFleb; [assumption|].
  unfold plus_signed in Hy. intros E. rewrite E in Hy. exact Hy.
Qed.

Lemma SFldexp_sign (s : bool) (x : spec_float) (e : Z) :
  has_sign s x -> has_sign s (SFldexp prec emax x e).
Proof.
  destruct x as [s1|s1| |s1 m1 e1]; simpl; try exact (fun H => H).
  intros ->. apply binary_round_sign.
Qed.

Lemma of_uint63_plus_signed (n : int) : plus_signed (of_uint63 n).
Proof.
  unfold plus_signed. rewrite of_uint63_spec.
  apply binary_normalize_nonneg. pose proof (Uint63.to_Z_bounded n). lia.
Qed.

Lemma mul_plus_signed (x y : float) :
  plus_signed x -> plus_signed y ->
  (exists m e, Prim2SF x = S754_finite false m e) ->
  plus_signed (x * y).
Proof.
  unfold plus_signed. rewrite mul_spec. intros _ Hy (m & e & ->).
  destruct (Prim2SF y) as [s2|s2| |s2 m2 e2]; simpl in *; try subst s2; try contradiction;
    try reflexivity.
  apply binary_round_aux_sign. lia.
Qed.

Lemma sub_zero_r (x : float) : (x - 0)%float = x.
Proof.
  apply Prim2SF_inj. rewrite sub_spec, Prim2SF_0.
  destruct (Prim2SF x) as [s|s| |s m e]; try reflexivity. destruct s; reflexivity.
Qed.

Lemma is_finite_spec (x : float) :
  is_finite x = true ->
  match Prim2SF x with
  | S754_zero _ | S754_finite _ _ _ => True
  | _ => False
  end.
Proof.
  unfold is_finite, is_nan, is_infinity.
  rewrite !eqb_spec, abs_spec.
  change (Prim2SF infinity) with (S754_infinity false).
  destruct (Prim2SF x) as [s|s| |s m e]; simpl; try exact (fun _ => I);
    try destruct s; simpl; discriminate.
Qed.

Lemma sub_diag_finite (x : float) : is_finite x = true -> (x - x)%float = 0%float.
Proof.
  intros H. apply is_finite_spec in H.
  apply Prim2SF_inj. rewrite sub_spec, Prim2SF_0.
  destruct (Prim2SF x) as [s|s| |s m e]; try contradiction.
  - destruct s; reflexivity.
  - unfold SF64sub, SFsub. rewrite Z.sub_diag. reflexivity.
Qed.

(** An amount above a balance that is not below zero is positive. *)
Lemma above_not_negative_is_positive (x a : float) :
  (x <? 0)%float = false -> (x <? a)%float = true -> (a <=? 0)%float = false.
Proof.
  rewrite !ltb_spec, leb_spec, Prim2SF_0. intros Hx.
  apply SFltb_zero_inv in Hx.
  destruct (Prim2SF x) as [s1|s1| |s1 m1 e1], (Prim2SF a) as [s2|s2| |s2 m2 e2];
    try subst s1; simpl; try discriminate; try reflexivity;
    destruct s2; simpl; try discriminate; try reflexivity.
Qed.

(** ** Exact operations *)

(** Shifting out zeros leaves no trace in the rounding bits. *)
Lemma shr_1_exact (m : Z) :
  0 <= m -> shr_1 (Build_shr_record (2 * m) false false) = Build_shr_record m false false.
Proof.
  intros _. destruct m as [|p|p]; reflexivity.
Qed.

Lemma iter_shr_1_exact (p : positive) :
  forall m, 0 <= m ->
    iter_pos shr_1 p (Build_shr_record (m * 2 ^ Zpos p) false false)
    = Build_shr_record m false false.
Proof.
  induction p as [p IH|p IH|]; intros m Hm.
  - replace (m * 2 ^ Zpos p~1) with (2 * ((m * 2 ^ Zpos p) * 2 ^ Zpos p)).
    + assert (0 <= m * 2 ^ Zpos p) by (apply Z.mul_nonneg_nonneg; lia).
      change (iter_pos shr_1 p~1 ?x) with (iter_pos shr_1 p (iter_pos shr_1 p (shr_1 x))).
      rewrite shr_1_exact by (apply Z.mul_nonneg_nonneg; lia).
      rewrite IH by assumption. apply IH. assumption.
    + replace (Zpos p~1) with (1 + Zpos p + Zpos p) by lia.
      rewrite !Z.pow_add_r, Z.pow_1_r by lia. ring.
  - replace (m * 2 ^ Zpos p~0) with ((m * 2 ^ Zpos p) * 2 ^ Zpos p).
    + assert (0 <= m * 2 ^ Zpos p) by (apply Z.mul_nonneg_nonneg; lia).
      change (iter_pos shr_1 p~0 ?x) with (iter_pos shr_1 p (iter_pos shr_1 p x)).
      rewrite IH by assumption. apply IH. assumption.
    + replace (Zpos p~0) with (Zpos p + Zpos p) by lia.
      rewrite Z.pow_add_r by lia. ring.
  - rewrite Z.pow_1_r, Z.mul_comm. apply shr_1_exact. assumption.
Qed.

Lemma shr_fexp_exact (M m : positive) (e E : Z) :
  fexp prec emax (Zpos (digits2_pos m) + E) = E ->
  e <= E ->
  Zpos M = Zpos m * 2 ^ (E - e) ->
  shr_fexp prec emax (Zpos M) e loc_Exact = (Build_shr_record (Zpos m) false false, E).
Proof.
  intros HC He HM.
  assert (HD : Zpos (digits2_pos M) = Zpos (digits2_pos m) + (E - e))
    by (apply digits_shift; [lia|assumption]).
  unfold shr_fexp.
  change (Zdigits2 (Zpos M)) with (Zpos (digits2_pos M)).
  replace (Zpos (digits2_pos M) + e) with (Zpos (digits2_pos m) + E) by lia.
  rewrite HC. change (shr_record_of_loc (Zpos M) loc_Exact) with (Build_shr_record (Zpos M) false false).
  unfold shr.
  destruct (E - e) as [|p|p] eqn:En; try lia.
  - rewrite Z.pow_0_r, Z.mul_1_r in HM. rewrite HM. f_equal. lia.
  - rewrite HM, iter_shr_1_exact by lia. f_equal. lia.
Qed.

(** Rounding a number that the format represents gives that number. *)
Lemma binary_round_aux_exact (s : bool) (M m : positive) (e E : Z) :
  fexp prec emax (Zpos (digits2_pos m) + E) = E ->
  E <= emax - prec ->
  e <= E ->
  Zpos M = Zpos m * 2 ^ (E - e) ->
  binary_round_aux prec emax s (Zpos M) e loc_Exact = S754_finite s m E.
Proof.
  intros HC HB He HM.
  unfold binary_round_aux.
  rewrite (shr_fexp_exact M m e E HC He HM).
  cbv [shr_m loc_of_shr_record round_nearest_even].
  rewrite (shr_fexp_exact m m E E HC (Z.le_refl E))
    by (rewrite Z.sub_diag, Z.pow_0_r; lia).
  cbv [shr_m]. apply Z.leb_le in HB. rewrite HB. reflexivity.
Qed.

Lemma binary_round_exact (s : bool) (M m : positive) (e E : Z) :
  fexp prec emax (Zpos (digits2_pos m) + E) = E ->
  E <= emax - prec ->
  (e <= E /\ Zpos M = Zpos m * 2 ^ (E - e)) \/ (E <= e /\ Zpos m = Zpos M * 2 ^ (e - E)) ->
  binary_round prec emax s M e = S754_finite s m E.
Proof.
  intros HC HB [[He HM]|[He HM]]; unfold binary_round.
  - assert (HD : Zpos (digits2_pos M) = Zpos (digits2_pos m) + (E - e))
      by (apply digits_shift; [lia|assumption]).
    replace (Zpos (digits2_pos M) + e) with (Zpos (digits2_pos m) + E) by lia.
    rewrite HC, shl_align_id by assumption.
    apply binary_round_aux_exact; assumption.
  - assert (HD : Zpos (digits2_pos m) = Zpos (digits2_pos M) + (e - E))
      by (apply digits_shift; [lia|assumption]).
    replace (Zpos (digits2_pos M) + e) with (Zpos (digits2_pos m) + E) by lia.
    rewrite HC.
    destruct (shl_align_spec M e E He) as [H1 H2].
    destruct (shl_align M e E) as [mz ez]. cbn [fst snd] in H1, H2. subst ez.
    assert (mz = m) by lia. subst mz.
    apply binary_round_aux_exact; try assumption; try lia.
    rewrite Z.sub_diag, Z.pow_0_r. lia.
Qed.

Lemma pow2_split (a b c : Z) : c <= b -> b <= a -> 2 ^ (a - c) = 2 ^ (a - b) * 2 ^ (b - c).
Proof. intros. rewrite <- Z.pow_add_r by lia. f_equal. lia. Qed.

Lemma aligned_units (s : bool) (m : positive) (e e0 : Z) :
  emin <= e0 -> e0 <= e ->
  aligned s m e e0 * 2 ^ (e0 - emin) = cond_Zopp s (Zpos m * 2 ^ (e - emin)).
Proof.
  intros H0 H1. rewrite aligned_spec by assumption.
  rewrite (pow2_split e e0 emin) by assumption.
  destruct s; unfold cond_Zopp; ring.
Qed.

(** Normalizing an integer that stands for a representable number. *)
Lemma binary_normalize_exact (A e0 : Z) (sz : bool) (mz : positive) (ez : Z) :
  emin <= e0 ->
  valid_binary (S754_finite sz mz ez) = true ->
  A * 2 ^ (e0 - emin) = cond_Zopp sz (Zpos mz * 2 ^ (ez - emin)) ->
  binary_normalize prec emax A e0 false = S754_finite sz mz ez.
Proof.
  intros H0 V HA.
  pose proof (valid_finite_emin _ _ _ V) as Hez.
  apply valid_finite_inv in V. destruct V as [HC HB].
  assert (P0 : 0 < 2 ^ (e0 - emin)) by (apply Z.pow_pos_nonneg; lia).
  assert (Pz : 0 < 2 ^ (ez - emin)) by (apply Z.pow_pos_nonneg; lia).
  assert (Hrel : forall p : positive,
             Zpos p * 2 ^ (e0 - emin) = Zpos mz * 2 ^ (ez - emin) ->
             (e0 <= ez /\ Zpos p = Zpos mz * 2 ^ (ez - e0)) \/
             (ez <= e0 /\ Zpos mz = Zpos p * 2 ^ (e0 - ez))).
  { intros p Hp. destruct (Z_le_gt_dec e0 ez) as [L|G].
    - left. split; [assumption|].
      rewrite (pow2_split ez e0 emin) in Hp by lia.
      rewrite Z.mul_assoc in Hp. apply Z.mul_cancel_r in Hp; lia.
    - right. split; [lia|].
      rewrite (pow2_split e0 ez emin) in Hp by lia.
      rewrite Z.mul_assoc in Hp. apply Z.mul_cancel_r in Hp; lia. }
  destruct A as [|p|p]; destruct sz; unfold cond_Zopp in HA; try lia.
  - simpl. apply binary_round_exact; try assumption. apply Hrel. lia.
  - simpl. apply binary_round_exact; try assumption. apply Hrel. lia.
Qed.

Lemma SFsub_exact (sx sy sz : bool) (mx my mz : positive) (ex ey ez : Z) :
  valid_binary (S754_finite sx mx ex) = true ->
  valid_binary (S754_finite sy my ey) = true ->
  valid_binary (S754_finite sz mz ez) = true ->
  cond_Zopp sx (Zpos mx * 2 ^ (ex - emin)) - cond_Zopp sy (Zpos my * 2 ^ (ey - emin))
  = cond_Zopp sz (Zpos mz * 2 ^ (ez - emin)) ->
  SF64sub (S754_finite sx mx ex) (S754_finite sy my ey) = S754_finite sz mz ez.
Proof.
  intros Vx Vy Vz H.
  pose proof (valid_finite_emin _ _ _ Vx). pose proof (valid_finite_emin _ _ _ Vy).
  unfold SF64sub, SFsub.
  fold (aligned sx mx ex (Z.min ex ey)). fold (aligned sy my ey (Z.min ex ey)).
  apply binary_normalize_exact; [lia|assumption|].
  rewrite Z.mul_sub_distr_r, !aligned_units by lia. assumption.
Qed.

Lemma SFadd_exact (sx sy sz : bool) (mx my mz : positive) (ex ey ez : Z) :
  valid_binary (S754_finite sx mx ex) = true ->
  valid_binary (S754_finite sy my ey) = true ->
  valid_binary (S754_finite sz mz ez) = true ->
  cond_Zopp sx (Zpos mx * 2 ^ (ex - emin)) + cond_Zopp sy (Zpos my * 2 ^ (ey - emin))
  = cond_Zopp sz (Zpos mz * 2 ^ (ez - emin)) ->
  SF64add (S754_finite sx mx ex) (S754_finite sy my ey) = S754_finite sz mz ez.
Proof.
  intros Vx Vy Vz H.
  pose proof (valid_finite_emin _ _ _ Vx). pose proof (valid_finite_emin _ _ _ Vy).
  unfold SF64add, SFadd.
  fold (aligned sx mx ex (Z.min ex ey)). fold (aligned sy my ey (Z.min ex ey)).
  apply binary_normalize_exact; [lia|assumption|].
  rewrite Z.mul_add_distr_r, !aligned_units by lia. assumption.
Qed.

(** Two valid positive numbers of equal value are the same number. *)
Lemma canonical_unique (m1 m2 : positive) (e1 e2 : Z) :
  valid_binary (S754_finite false m1 e1) = true ->
  valid_binary (S754_finite false m2 e2) = true ->
  Zpos m1 * 2 ^ (e1 - emin) = Zpos m2 * 2 ^ (e2 - emin) ->
  m1 = m2 /\ e1 = e2.
Proof.
  intros V1 V2 H.
  pose proof (valid_finite_emin _ _ _ V1). pose proof (valid_finite_emin _ _ _ V2).
  pose proof (compare_canonical m1 m2 e1 e2 V1 V2) as C.
  assert (E : Zpos m1 * 2 ^ (e1 - Z.min e1 e2) = Zpos m2 * 2 ^ (e2 - Z.min e1 e2)).
  { rewrite (pow2_split e1 (Z.min e1 e2) emin), (pow2_split e2 (Z.min e1 e2) emin) in H by lia.
    rewrite !Z.mul_assoc in H. apply Z.mul_cancel_r in H; [assumption|].
    assert (0 < 2 ^ (Z.min e1 e2 - emin)) by (apply Z.pow_pos_nonneg; lia). lia. }
  rewrite E, Z.compare_refl in C.
  destruct (Z.compare_spec e1 e2); try discriminate.
  split; [|assumption].
  apply Pos.compare_eq. exact C.
Qed.

(** A positive multiple of [2^e] with at most [prec] digits is representable. *)
Lemma representable_multiple (n : positive) (e : Z) :
  emin <= e -> e <= emax - prec -> Zpos (digits2_pos n) <= prec ->
  exists m E,
    valid_binary (S754_finite false m E) = true /\
    Zpos m * 2 ^ (E - emin) = Zpos n * 2 ^ (e - emin).
Proof.
  intros H0 H1 Hd.
  set (E := fexp prec emax (Zpos (digits2_pos n) + e)).
  assert (HE : emin <= E <= e) by (unfold E, fexp; lia).
  assert (exists m, Zpos m = Zpos n * 2 ^ (e - E)) as [m Hm].
  { assert (0 < 2 ^ (e - E)) by (apply Z.pow_pos_nonneg; lia).
    destruct (Zpos n * 2 ^ (e - E)) as [|m|m] eqn:Em; try lia. exists m. reflexivity. }
  exists m, E. split.
  - unfold SpecFloat.valid_binary, bounded, canonical_mantissa.
    rewrite (digits_shift n (e - E) m) by (lia || assumption).
    replace (Zpos (digits2_pos n) + (e - E) + E) with (Zpos (digits2_pos n) + e) by lia.
    fold E. rewrite Z.eqb_refl. apply Z.leb_le. lia.
  - rewrite Hm, (pow2_split e E emin) by lia. ring.
Qed.

(** Taking [y] away from [x] and putting it back, when [y] is at most [x]
    and a multiple of the exponent unit of [x]. *)
Lemma SF_sub_add_exact (mx my : positive) (ex ey : Z) :
  valid_binary (S754_finite false mx ex) = true ->
  valid_binary (S754_finite false my ey) = true ->
  Zpos my * 2 ^ (ey - emin) <= Zpos mx * 2 ^ (ex - emin) ->
  (2 ^ (ex - emin) | Zpos my * 2 ^ (ey - emin)) ->
  SF64add (SF64sub (S754_finite false mx ex) (S754_finite false my ey))
    (S754_finite false my ey)
  = S754_finite false mx ex /\
  units (SF64sub (S754_finite false mx ex) (S754_finite false my ey))
  = Some (Zpos mx * 2 ^ (ex - emin) - Zpos my * 2 ^ (ey - emin)).
Proof.
  intros Vx Vy Hle [k Hk].
  pose proof (valid_finite_emin _ _ _ Vx) as Hex.
  pose proof (valid_finite_emin _ _ _ Vy) as Hey.
  assert (Pg : 0 < 2 ^ (ex - emin)) by (apply Z.pow_pos_nonneg; lia).
  assert (Py : 0 < Zpos my * 2 ^ (ey - emin)).
  { apply Z.mul_pos_pos; [lia|]. apply Z.pow_pos_nonneg; lia. }
  assert (Hk0 : 0 < k) by nia.
  assert (Hkx : k <= Zpos mx) by nia.
  destruct (Z.eq_dec k (Zpos mx)) as [Ek|Nk].
  - (* equal values: the same number *)
    assert (Zpos my * 2 ^ (ey - emin) = Zpos mx * 2 ^ (ex - emin)) as Heq by (subst k; lia).
    destruct (canonical_unique my mx ey ex Vy Vx Heq) as [-> ->].
    unfold SF64sub, SFsub. rewrite Z.sub_diag. simpl binary_normalize. split.
    + reflexivity.
    + unfold units. f_equal. lia.
  - destruct (Zpos mx - k) as [|n|n] eqn:En; try lia.
    assert (Hd : Zpos (digits2_pos n) <= prec).
    { pose proof (digits_le n mx ltac:(lia)).
      apply valid_finite_inv in Vx. destruct Vx as [C _].
      unfold fexp in C. lia. }
    destruct (representable_multiple n ex Hex
                ltac:(apply valid_finite_inv in Vx; tauto) Hd) as (mz & E & Vz & Hz).
    assert (Hsub : SF64sub (S754_finite false mx ex) (S754_finite false my ey)
                   = S754_finite false mz E).
    { apply SFsub_exact; try assumption. unfold cond_Zopp. rewrite Hz, Hk. nia. }
    rewrite Hsub. split.
    + apply SFadd_exact; try assumption. unfold cond_Zopp. rewrite Hz, Hk. nia.
    + unfold units, cond_Zopp. f_equal. rewrite Hz, Hk. nia.
Qed.

(** The same without the bound on the exponent: beyond it, infinity. *)
Lemma binary_round_aux_exact_or_overflow (s : bool) (M m : positive) (e E : Z) :
  fexp prec emax (Zpos (digits2_pos m) + E) = E ->
  e <= E ->
  Zpos M = Zpos m * 2 ^ (E - e) ->
  binary_round_aux prec emax s (Zpos M) e loc_Exact
  = if E <=? emax - prec then S754_finite s m E else S754_infinity s.
Proof.
  intros HC He HM.
  unfold binary_round_aux.
  rewrite (shr_fexp_exact M m e E HC He HM).
  cbv [shr_m loc_of_shr_record round_nearest_even].
  rewrite (shr_fexp_exact m m E E HC (Z.le_refl E))
    by (rewrite Z.sub_diag, Z.pow_0_r; lia).
  reflexivity.
Qed.

(** Rounding keeps multiples of [2^k] multiples of [2^k], and never gives
    a zero. *)
Lemma binary_round_aux_multiple (s : bool) (M : positive) (e k : Z) :
  emin <= e -> emin <= k ->
  e <= fexp prec emax (Zpos (digits2_pos M) + e) ->
  (2 ^ (k - emin) | Zpos M * 2 ^ (e - emin)) ->
  binary_round_aux prec emax s (Zpos M) e loc_Exact = S754_infinity s \/
  exists mr er,
    binary_round_aux prec emax s (Zpos M) e loc_Exact = S754_finite s mr er /\
    emin <= er /\
    (2 ^ (k - emin) | Zpos mr * 2 ^ (er - emin)).
Proof.
  intros He Hk HE [j Hj].
  pose proof (binary_round_aux_lower s M e loc_Exact He) as Hlow.
  cbv zeta in Hlow.
  remember (fexp prec emax (Zpos (digits2_pos M) + e)) as E eqn:EE.
  assert (HEm : emin <= E) by (rewrite EE; unfold fexp; lia).
  destruct (Z_le_gt_dec k E) as [L|G].
  - destruct Hlow as [H|(mr & er & H & H1 & _)].
    + left. exact H.
    + right. exists mr, er. split; [exact H|]. split; [lia|].
      apply Z.divide_mul_r. exists (2 ^ (er - k)).
      rewrite <- Z.pow_add_r by lia. f_equal. lia.
  - clear Hlow.
    assert (P1 : 0 < 2 ^ (e - emin)) by (apply Z.pow_pos_nonneg; lia).
    assert (HM : Zpos M = j * 2 ^ (k - e)).
    { rewrite (pow2_split k e emin) in Hj by lia.
      rewrite Z.mul_assoc in Hj. apply Z.mul_cancel_r in Hj; lia. }
    assert (P2 : 0 < 2 ^ (k - e)) by (apply Z.pow_pos_nonneg; lia).
    assert (Hj0 : 0 < j) by nia.
    assert (P3 : 0 < 2 ^ (k - E)) by (apply Z.pow_pos_nonneg; lia).
    assert (HMj : Zpos M = j * 2 ^ (k - E) * 2 ^ (E - e)).
    { rewrite HM, <- Z.mul_assoc, <- Z.pow_add_r by lia. do 2 f_equal. lia. }
    destruct (j * 2 ^ (k - E)) as [|m|m] eqn:Em; try nia.
    assert (HC : fexp prec emax (Zpos (digits2_pos m) + E) = E).
    { pose proof (digits_shift m (E - e) M ltac:(lia) HMj) as D.
      replace (Zpos (digits2_pos m) + E) with (Zpos (digits2_pos M) + e) by lia.
      symmetry. exact EE. }
    rewrite (binary_round_aux_exact_or_overflow s M m e E HC HE HMj).
    destruct (E <=? emax - prec); [right|left; reflexivity].
    exists m, E. split; [reflexivity|]. split; [assumption|].
    exists j. rewrite <- Em, <- Z.mul_assoc, <- Z.pow_add_r by lia.
    do 2 f_equal. lia.
Qed.

Lemma binary_round_multiple (s : bool) (M : positive) (e k : Z) :
  emin <= e -> emin <= k ->
  (2 ^ (k - emin) | Zpos M * 2 ^ (e - emin)) ->
  binary_round prec emax s M e = S754_infinity s \/
  exists mr er,
    binary_round prec emax s M e = S754_finite s mr er /\
    emin <= er /\
    (2 ^ (k - emin) | Zpos mr * 2 ^ (er - emin)).
Proof.
  intros He Hk Hd. unfold binary_round.
  set (E := fexp prec emax (Zpos (digits2_pos M) + e)).
  destruct (Z_le_gt_dec e E) as [L|G].
  - rewrite shl_align_id by assumption.
    apply binary_round_aux_multiple; assumption.
  - destruct (shl_align_spec M e E ltac:(lia)) as [H1 H2].
    destruct (shl_align M e E) as [mz ez]. cbn [fst snd] in H1, H2. subst ez.
    assert (HE : emin <= E) by (unfold E, fexp; lia).
    pose proof (digits_shift M (e - E) mz ltac:(lia) H1) as D.
    apply binary_round_aux_multiple; try assumption.
    + replace (Zpos (digits2_pos mz) + E) with (Zpos (digits2_pos M) + e) by lia.
      fold E. lia.
    + rewrite H1, <- Z.mul_assoc, <- (pow2_split e E emin) by lia. assumption.
Qed.

End Binary64.

(** * Conversions and prices *)

Lemma float_of_int_plus_signed (n : Z) (y : float) :
  0 <= n -> float_of_int n = Some y -> plus_signed y.
Proof.
  unfold float_of_int. intros Hn.
  destruct (is_infinity _); [discriminate|].
  replace (n <? 0) with false by (symmetry; apply Z.ltb_ge; lia).
  intros H. injection H as <-.
  unfold plus_signed. rewrite Z_ldexp_spec.
  apply SFldexp_sign, of_uint63_plus_signed.
Qed.

(** The conversion on small integers, on ties above [2^53] (to even), at the
    largest finite float and beyond it. *)
Example float_of_int_examples :
  float_of_int 5 = Some 5%float /\
  float_of_int (-7) = Some (-7)%float /\
  float_of_int (2 ^ 53 + 1) = Some 9007199254740992%float /\
  float_of_int (2 ^ 53 + 3) = Some 9007199254740996%float /\
  float_of_int (10 ^ 22 + 1) = Some 1e22%float /\
  float_of_int (2 ^ 1024 - 2 ^ 970 - 1) = Some 0x1.fffffffffffffp+1023%float /\
  float_of_int (2 ^ 1024 - 2 ^ 970) = None /\
  float_of_int (2 ^ 1024) = None /\
  mul_float_int 150 (2 ^ 1024) = Raised int_too_large.
Proof. vm_compute. repeat split. Qed.

Lemma get_share_price_cases (symbol : string) :
  (symbol = "AAPL" /\ get_share_price symbol = Returned 150%float) \/
  (symbol = "TSLA" /\ get_share_price symbol = Returned 700%float) \/
  (symbol = "GOOGL" /\ get_share_price symbol = Returned 2800%float) \/
  (~ In symbol catalog /\ get_share_price symbol = Raised unsupported_symbol).
Proof.
  unfold get_share_price, catalog.
  destruct (String.eqb_spec symbol "AAPL") as [->|H1]; [left; split; reflexivity|].
  destruct (String.eqb_spec symbol "TSLA") as [->|H2]; [right; left; split; reflexivity|].
  destruct (String.eqb_spec symbol "GOOGL") as [->|H3];
    [right; right; left; split; reflexivity|].
  right; right; right. split; [|reflexivity].
  simpl. intros [H|[H|[H|[]]]]; congruence.
Qed.

Lemma get_share_price_raises (symbol : string) (e : exn) :
  get_share_price symbol = Raised e -> e = unsupported_symbol.
Proof.
  destruct (get_share_price_cases symbol) as [[_ H]|[[_ H]|[[_ H]|[_ H]]]];
    rewrite H; congruence.
Qed.

Lemma get_share_price_in_catalog (symbol : string) :
  is_returned (get_share_price symbol) = true <-> In symbol catalog.
Proof.
  unfold catalog.
  destruct (get_share_price_cases symbol) as [[-> H]|[[-> H]|[[-> H]|[N H]]]];
    rewrite ?H; simpl; try tauto.
  split; [discriminate|]. intros HI. exfalso. apply N. exact HI.
Qed.

(** Every price of the table is a positive finite number. *)
Lemma price_finite_positive (symbol : string) (price : float) :
  get_share_price symbol = Returned price ->
  plus_signed price /\ exists m e, Prim2SF price = S754_finite false m e.
Proof.
  destruct (get_share_price_cases symbol) as [[_ H]|[[_ H]|[[_ H]|[_ H]]]];
    rewrite H; intros E; inversion E; subst price;
    (split; [reflexivity | eexists; eexists; reflexivity]).
Qed.

(** The cost of a positive number of shares is a number with a plus sign:
    it is neither a NaN nor below zero. *)
Lemma total_plus_signed (symbol : string) (price : float) (quantity : Z) (total : float) :
  get_share_price symbol = Returned price ->
  0 <= quantity ->
  mul_float_int price quantity = Returned total ->
  plus_signed total.
Proof.
  intros Hp Hq. unfold mul_float_int.
  destruct (float_of_int quantity) as [y|] eqn:Ey; [|discriminate].
  intros E. inversion E. subst total.
  destruct (price_finite_positive symbol price Hp) as [P1 P2].
  apply mul_plus_signed; [assumption| |assumption].
  exact (float_of_int_plus_signed quantity y Hq Ey).
Qed.

(** ** Whole numbers *)


Lemma is_infinity_spec (x : float) (s : bool) :
  Prim2SF x = S754_infinity s -> is_infinity x = true.
Proof.
  intros H. unfold is_infinity. rewrite eqb_spec, abs_spec, H. reflexivity.
Qed.

Lemma float_of_int_top_bits (q : Z) :
  1 <= q ->
  let sh := Z.max 0 (Z.log2 q + 1 - 62) in
  let sticky := if Z.eqb (Z.land q (Z.ones sh)) 0 then 0 else 1 in
  1 <= Z.lor (Z.shiftr q sh) sticky < 2 ^ 63.
Proof.
  intros Hq sh sticky.
  assert (Hsh : 0 <= sh) by (unfold sh; lia).
  pose proof (Z.log2_spec q ltac:(lia)) as [Hlo Hhi].
  pose proof (Z.log2_nonneg q) as Hl.
  assert (Hhi' : 1 <= Z.shiftr q sh < 2 ^ 62).
  { rewrite Z.shiftr_div_pow2 by assumption.
    assert (P : 0 < 2 ^ sh) by (apply Z.pow_pos_nonneg; lia).
    split.
    - apply Z.div_le_lower_bound; [assumption|].
      rewrite Z.mul_1_r. etransitivity; [|exact Hlo].
      apply Z.pow_le_mono_r; unfold sh; lia.
    - apply Z.div_lt_upper_bound; [assumption|].
      rewrite <- Z.pow_add_r by lia.
      eapply Z.lt_le_trans; [exact Hhi|].
      apply Z.pow_le_mono_r; unfold sh; lia. }
  assert (Hs : 0 <= sticky <= 1) by (unfold sticky; destruct (_ =? 0); lia).
  pose proof (Z.add_lor_land (Z.shiftr q sh) sticky) as Hadd.
  assert (0 <= Z.land (Z.shiftr q sh) sticky) by (apply Z.land_nonneg; lia).
  assert (0 <= Z.lor (Z.shiftr q sh) sticky) by (apply Z.lor_nonneg; lia).
  split.
  - destruct (Z.eq_dec (Z.lor (Z.shiftr q sh) sticky) 0) as [E0|N0]; [|lia].
    apply Z.lor_eq_0_iff in E0. lia.
  - change (2 ^ 63) with (2 ^ 62 + 2 ^ 62). change (2 ^ 62) with 4611686018427387904 in *. lia.
Qed.

(** The float of a positive int is a positive whole number. *)
Lemma float_of_int_positive_integer (q : Z) (y : float) :
  1 <= q -> float_of_int q = Some y -> positive_integer (Prim2SF y).
Proof.
  intros Hq. unfold float_of_int.
  replace (Z.abs q) with q by lia.
  pose proof (float_of_int_top_bits q Hq) as Hm. cbv zeta in Hm.
  set (sh := Z.max 0 (Z.log2 q + 1 - 62)) in *.
  set (m := Z.lor (Z.shiftr q sh) (if Z.land q (Z.ones sh) =? 0 then 0 else 1)) in *.
  destruct (is_infinity _) eqn:Einf; [discriminate|].
  replace (q <? 0) with false by (symmetry; apply Z.ltb_ge; lia).
  intros H. injection H as <-.
  set (y := Z.ldexp (of_uint63 (of_Z m)) sh) in *.
  assert (Hy : Prim2SF y = SFldexp prec emax (Prim2SF (of_uint63 (of_Z m))) sh)
    by apply Z_ldexp_spec.
  rewrite of_uint63_spec, Uint63.of_Z_spec in Hy.
  rewrite Z.mod_small in Hy by (change wB with (2 ^ 63); lia).
  destruct m as [|M|M]; try lia.
  simpl binary_normalize in Hy.
  assert (Hsh : 0 <= sh) by (unfold sh; lia).
  destruct (binary_round_multiple false M 0 0 ltac:(unfold SpecFloat.emin, prec, emax; lia)
              ltac:(unfold SpecFloat.emin, prec, emax; lia)
              ltac:(apply Z.divide_mul_r; apply Z.divide_refl))
    as [H0|(m0 & e0 & H0 & He0 & Hd0)]; rewrite H0 in Hy.
  - simpl in Hy. rewrite (is_infinity_spec y false Hy) in Einf. discriminate.
  - unfold SFldexp in Hy.
    destruct (binary_round_multiple false m0 (e0 + sh) 0 ltac:(lia)
                ltac:(unfold SpecFloat.emin, prec, emax; lia)) as [H1|(m1 & e1 & H1 & He1 & Hd1)].
    + replace (e0 + sh - emin) with ((e0 - emin) + sh) by lia.
      rewrite Z.pow_add_r, Z.mul_assoc by lia.
      apply Z.divide_mul_l. assumption.
    + rewrite H1 in Hy. rewrite (is_infinity_spec y false Hy) in Einf. discriminate.
    + rewrite H1 in Hy. exists m1, e1. split; assumption.
Qed.

Lemma positive_integer_exponent (m : positive) (e : Z) :
  valid_binary (S754_finite false m e) = true ->
  (2 ^ (0 - emin) | Zpos m * 2 ^ (e - emin)) ->
  -52 <= e.
Proof.
  intros V [j Hj].
  pose proof (valid_finite_emin _ _ _ V) as He.
  apply valid_finite_inv in V. destruct V as [C _].
  destruct (Z_le_gt_dec 0 e) as [|G]; [lia|].
  assert (P : 0 < 2 ^ (e - emin)) by (apply Z.pow_pos_nonneg; lia).
  rewrite (pow2_split 0 e emin) in Hj by lia.
  rewrite Z.mul_assoc in Hj. apply Z.mul_cancel_r in Hj; [|lia].
  pose proof (digits_bounds m) as [_ U].
  assert (P2 : 0 < 2 ^ (0 - e)) by (apply Z.pow_pos_nonneg; lia).
  assert (0 < j) by nia.
  assert (2 ^ (0 - e) <= Zpos m) by nia.
  assert (0 - e < Zpos (digits2_pos m)).
  { apply (Z.pow_lt_mono_r_iff 2); lia. }
  unfold fexp, SpecFloat.emin, prec, emax in *. lia.
Qed.

(** Every price of the table is a whole number with a full mantissa. *)
Lemma price_shape (symbol : string) (price : float) :
  get_share_price symbol = Returned price ->
  exists m e,
    Prim2SF price = S754_finite false m e /\
    Zpos (digits2_pos m) = prec /\ -52 <= e /\
    (2 ^ (0 - emin) | Zpos m * 2 ^ (e - emin)).
Proof.
  destruct (get_share_price_cases symbol) as [[_ H]|[[_ H]|[[_ H]|[_ H]]]];
    rewrite H; intros E; inversion E; subst price.
  - exists 5277655813324800%positive, (-45).
    split; [reflexivity|]. split; [reflexivity|]. split; [lia|].
    exists 150. vm_compute. reflexivity.
  - exists 6157265115545600%positive, (-43).
    split; [reflexivity|]. split; [reflexivity|]. split; [lia|].
    exists 700. vm_compute. reflexivity.
  - exists 6157265115545600%positive, (-41).
    split; [reflexivity|]. split; [reflexivity|]. split; [lia|].
    exists 2800. vm_compute. reflexivity.
Qed.

(** The total of a positive number of shares is a positive whole number,
    or infinite. *)
Lemma total_positive_integer (symbol : string) (price : float) (quantity : Z) (total : float) :
  get_share_price symbol = Returned price ->
  1 <= quantity ->
  mul_float_int price quantity = Returned total ->
  Prim2SF total = S754_infinity false \/ positive_integer (Prim2SF total).
Proof.
  intros Hp Hq. unfold mul_float_int.
  destruct (float_of_int quantity) as [y|] eqn:Ey; [|discriminate].
  intros E. inversion E. subst total. clear E.
  destruct (price_shape symbol price Hp) as (mp & ep & Pp & Dp & Lp & [a Ha]).
  destruct (float_of_int_positive_integer quantity y Hq Ey) as (my & ey & Py & [b Hb]).
  pose proof (Prim2SF_valid y) as Vy. rewrite Py in Vy.
  pose proof (positive_integer_exponent my ey Vy (ex_intro _ b Hb)) as Ly.
  rewrite mul_spec, Pp, Py. unfold SF64mul, SFmul. simpl xorb.
  assert (He : emin <= ep + ey) by (unfold SpecFloat.emin, prec, emax; lia).
  assert (HE : ep + ey <= fexp prec emax (Zpos (digits2_pos (mp * my)) + (ep + ey))).
  { assert (Zpos mp <= Zpos (mp * my)) by nia.
    apply digits_le in H. unfold fexp. lia. }
  assert (HD : (2 ^ (0 - emin) | Zpos (mp * my) * 2 ^ (ep + ey - emin))).
  { exists (a * b).
    assert (P : 0 < 2 ^ (0 - emin)) by (apply Z.pow_pos_nonneg; unfold SpecFloat.emin, prec, emax; lia).
    apply (Z.mul_cancel_r _ _ (2 ^ (0 - emin))); [lia|].
    rewrite Pos2Z.inj_mul.
    replace (Zpos mp * Zpos my * 2 ^ (ep + ey - emin) * 2 ^ (0 - emin))
      with ((Zpos mp * 2 ^ (ep - emin)) * (Zpos my * 2 ^ (ey - emin))).
    - rewrite Ha, Hb. ring.
    - rewrite <- !Z.mul_assoc. f_equal.
      rewrite (Z.mul_comm (2 ^ (ep - emin))), <- !Z.mul_assoc. f_equal.
      rewrite <- !Z.pow_add_r by (unfold SpecFloat.emin, prec, emax in *; lia).
      f_equal. lia. }
  destruct (binary_round_aux_multiple false (mp * my) (ep + ey) 0 He
              ltac:(unfold SpecFloat.emin, prec, emax; lia) HE HD)
    as [H|(mr & er & H & _ & Hd)]; rewrite H.
  - left. reflexivity.
  - right. exists mr, er. split; [reflexivity|assumption].
Qed.

Lemma sub_add_exact (c t : float) :
  (0 <=? c)%float = true ->
  (c <? 0x1p+53)%float = true ->
  (c <? t)%float = false ->
  positive_integer (Prim2SF t) ->
  ((c - t) + t)%float = c.
Proof.
  rewrite leb_spec, !ltb_spec, Prim2SF_0. intros H0 H53 Hle (mt & et & Pt & Dt).
  change (Prim2SF 0x1p+53) with (S754_finite false 4503599627370496 1) in H53.
  pose proof (Prim2SF_valid c) as Vc. pose proof (Prim2SF_valid t) as Vt.
  apply Prim2SF_inj. rewrite add_spec, sub_spec, Pt in *.
  destruct (Prim2SF c) as [s|s| |s mc ec].
  - simpl in Hle. discriminate Hle.
  - destruct s; simpl in H0, H53; discriminate.
  - simpl in H0. discriminate H0.
  - destruct s; [simpl in H0; discriminate H0|].
    unfold SFltb in Hle, H53.
    rewrite (SFcompare_finite _ _ _ _ _ _ Vc Vt) in Hle.
    pose proof (valid_finite_emin _ _ _ Vc) as Hec.
    pose proof (valid_finite_emin _ _ _ Vt) as Het.
    assert (Hec0 : ec <= 0).
    { destruct (Z_le_gt_dec ec 0) as [|G]; [assumption|]. exfalso.
      assert (V53 : valid_binary (S754_finite false 4503599627370496 1) = true)
        by reflexivity.
      rewrite (SFcompare_finite _ _ _ _ _ _ Vc V53) in H53.
      rewrite Z.min_r, !aligned_spec in H53 by lia.
      unfold cond_Zopp in H53. rewrite Z.sub_diag, Z.pow_0_r, Z.mul_1_r in H53.
      apply valid_finite_inv in Vc. destruct Vc as [C _].
      pose proof (digits_bounds mc) as [L _].
      assert (D : Zpos (digits2_pos mc) = prec)
        by (unfold fexp, SpecFloat.emin, prec, emax in *; lia).
      rewrite D in L. change (2 ^ (prec - 1)) with 4503599627370496 in L.
      assert (P : 1 <= 2 ^ (ec - 1)) by (apply (Z.pow_le_mono_r 2 0); lia).
      destruct (Z.compare_spec (Zpos mc * 2 ^ (ec - 1)) 4503599627370496);
        try discriminate. nia. }
    assert (Hord : Zpos mt * 2 ^ (et - emin) <= Zpos mc * 2 ^ (ec - emin)).
    { pose proof (aligned_units false mc ec (Z.min ec et) ltac:(lia) ltac:(lia)) as A1.
      pose proof (aligned_units false mt et (Z.min ec et) ltac:(lia) ltac:(lia)) as A2.
      unfold cond_Zopp in A1, A2. rewrite <- A1, <- A2.
      apply Z.mul_le_mono_nonneg_r; [apply Z.pow_nonneg; lia|].
      destruct (Z.compare_spec (aligned false mc ec (Z.min ec et))
                  (aligned false mt et (Z.min ec et))); try discriminate; lia. }
    assert (Hgrid : (2 ^ (ec - emin) | Zpos mt * 2 ^ (et - emin))).
    { eapply Z.divide_trans; [|exact Dt].
      exists (2 ^ (0 - ec)). rewrite <- Z.pow_add_r by lia. f_equal. lia. }
    destruct (SF_sub_add_exact mc mt ec et Vc Vt Hord Hgrid) as [H _]. exact H.
Qed.

Lemma finite_below_infinity (c t : float) :
  Prim2SF t = S754_infinity false ->
  (c <? 0x1p+53)%float = true ->
  (c <? t)%float = true.
Proof.
  rewrite !ltb_spec. intros ->.
  change (Prim2SF 0x1p+53) with (S754_finite false 4503599627370496 1).
  destruct (Prim2SF c) as [s|s| |s m e]; try reflexivity; try discriminate.
  destruct s; [reflexivity|discriminate].
Qed.

(** Paying a total out of a balance below [2^53] and getting it back: no
    rounding occurs either way. *)
Lemma pay_and_refund_exact (symbol : string) (price : float) (quantity : Z)
    (total c : float) :
  get_share_price symbol = Returned price ->
  0 < quantity ->
  mul_float_int price quantity = Returned total ->
  (0 <=? c)%float = true ->
  (c <? 0x1p+53)%float = true ->
  (c <? total)%float = false ->
  ((c - total) + total)%float = c.
Proof.
  intros Hp Hq Ht H0 H53 Hle.
  destruct (total_positive_integer symbol price quantity total Hp ltac:(lia) Ht) as [Hinf|Hint].
  - rewrite (finite_below_infinity c total Hinf H53) in Hle. discriminate.
  - apply sub_add_exact; assumption.
Qed.

(** * Dictionaries *)

Lemma dict_get_getitem (d : dict) (k : string) (default : Z) :
  dict_get d k default =
  match dict_getitem d k with Some v => v | None => default end.
Proof.
  induction d as [|[k' v] d IH]; simpl; [reflexivity|].
  destruct (String.eqb k' k); [reflexivity|exact IH].
Qed.

Lemma dict_getitem_held (d : dict) (k : string) :
  dict_get d k 0 <> 0 -> dict_getitem d k = Some (dict_get d k 0).
Proof.
  rewrite dict_get_getitem. destruct (dict_getitem d k); [reflexivity|congruence].
Qed.

Lemma dict_getitem_setitem (d : dict) (k : string) (v : Z) :
  dict_getitem (dict_setitem d k v) k = Some v.
Proof.
  induction d as [|[k' v'] d IH]; simpl.
  - rewrite String.eqb_refl. reflexivity.
  - destruct (String.eqb k' k) eqn:E; simpl; rewrite E; [reflexivity|exact IH].
Qed.

Lemma dict_delitem_setitem (d : dict) (k : string) (v : Z) :
  dict_delitem (dict_setitem d k v) k = Some (dict_remove d k).
Proof.
  induction d as [|[k' v'] d IH]; simpl.
  - rewrite String.eqb_refl. reflexivity.
  - destruct (String.eqb k' k) eqn:E; simpl; rewrite E; [reflexivity|].
    rewrite IH. reflexivity.
Qed.

Lemma dict_setitem_setitem (d : dict) (k : string) (v w : Z) :
  dict_setitem (dict_setitem d k v) k w = dict_setitem d k w.
Proof.
  induction d as [|[k' v'] d IH]; simpl.
  - rewrite String.eqb_refl. reflexivity.
  - destruct (String.eqb k' k) eqn:E; simpl; rewrite E; [reflexivity|].
    rewrite IH. reflexivity.
Qed.

Lemma dict_setitem_same (d : dict) (k : string) (v : Z) :
  dict_getitem d k = Some v -> dict_setitem d k v = d.
Proof.
  induction d as [|[k' v'] d IH]; simpl; [discriminate|].
  destruct (String.eqb k' k) eqn:E.
  - intros H. injection H as ->. reflexivity.
  - intros H. rewrite (IH H). reflexivity.
Qed.

Lemma dict_remove_setitem (d : dict) (k : string) (v : Z) :
  dict_remove (dict_setitem d k v) k = dict_remove d k.
Proof.
  induction d as [|[k' v'] d IH]; simpl.
  - rewrite String.eqb_refl. reflexivity.
  - destruct (String.eqb k' k) eqn:E; simpl; rewrite E; [reflexivity|].
    rewrite IH. reflexivity.
Qed.

Lemma dict_remove_absent (d : dict) (k : string) :
  dict_getitem d k = None -> dict_remove d k = d.
Proof.
  induction d as [|[k' v'] d IH]; simpl; [reflexivity|].
  destruct (String.eqb k' k); [discriminate|].
  intros H. rewrite (IH H). reflexivity.
Qed.

Lemma dict_getitem_In (d : dict) (k : string) (v : Z) :
  dict_getitem d k = Some v -> In (k, v) d.
Proof.
  induction d as [|[k' v'] d IH]; simpl; [discriminate|].
  destruct (String.eqb_spec k' k) as [->|N].
  - intros H. injection H as ->. left. reflexivity.
  - intros H. right. exact (IH H).
Qed.

Lemma dict_getitem_None (d : dict) (k : string) :
  dict_getitem d k = None <-> ~ In k (map fst d).
Proof.
  induction d as [|[k' v'] d IH]; simpl; [tauto|].
  destruct (String.eqb_spec k' k) as [->|N].
  - split; [discriminate|]. intros H. exfalso. apply H. left. reflexivity.
  - rewrite IH. tauto.
Qed.

Lemma Forall_dict_setitem (P : string * Z -> Prop) (d : dict) (k : string) (v : Z) :
  Forall P d -> P (k, v) -> Forall P (dict_setitem d k v).
Proof.
  intros Hd Hv. induction d as [|[k' v'] d IH]; simpl.
  - constructor; [assumption|constructor].
  - inversion Hd as [|? ? H1 H2]; subst.
    destruct (String.eqb_spec k' k) as [->|N]; constructor; auto.
Qed.

Lemma Forall_dict_remove (P : string * Z -> Prop) (d : dict) (k : string) :
  Forall P d -> Forall P (dict_remove d k).
Proof.
  intros Hd. induction d as [|[k' v'] d IH]; simpl; [constructor|].
  inversion Hd as [|? ? H1 H2]; subst.
  destruct (String.eqb k' k); [assumption|]. constructor; auto.
Qed.

Lemma keys_dict_setitem (d : dict) (k : string) (v : Z) :
  map fst (dict_setitem d k v) =
  match dict_getitem d k with
  | Some _ => map fst d
  | None => (map fst d ++ [k])%list
  end.
Proof.
  induction d as [|[k' v'] d IH]; simpl; [reflexivity|].
  destruct (String.eqb k' k) eqn:E; simpl; [reflexivity|].
  rewrite IH. destruct (dict_getitem d k); reflexivity.
Qed.

Lemma NoDup_dict_setitem (d : dict) (k : string) (v : Z) :
  NoDup (map fst d) -> NoDup (map fst (dict_setitem d k v)).
Proof.
  intros H. rewrite keys_dict_setitem.
  destruct (dict_getitem d k) eqn:E; [assumption|].
  apply dict_getitem_None in E.
  apply NoDup_rev in H. rewrite <- (rev_involutive (map fst d ++ [k])%list).
  apply NoDup_rev. rewrite rev_app_distr. simpl.
  constructor; [|assumption]. rewrite <- in_rev. assumption.
Qed.

Lemma keys_dict_remove_incl (d : dict) (k k0 : string) :
  In k0 (map fst (dict_remove d k)) -> In k0 (map fst d).
Proof.
  induction d as [|[k' v'] d IH]; simpl; [tauto|].
  destruct (String.eqb k' k); simpl; tauto.
Qed.

Lemma NoDup_dict_remove (d : dict) (k : string) :
  NoDup (map fst d) -> NoDup (map fst (dict_remove d k)).
Proof.
  induction d as [|[k' v'] d IH]; simpl; intros H; [constructor|].
  inversion H as [|? ? H1 H2]; subst.
  destruct (String.eqb k' k); [assumption|]. simpl.
  constructor; [|auto]. intros HI. apply H1. exact (keys_dict_remove_incl d k k' HI).
Qed.

Lemma dict_getitem_remove (d : dict) (k : string) :
  NoDup (map fst d) -> dict_getitem (dict_remove d k) k = None.
Proof.
  induction d as [|[k' v'] d IH]; simpl; intros H; [reflexivity|].
  inversion H as [|? ? H1 H2]; subst.
  destruct (String.eqb_spec k' k) as [->|N].
  - apply dict_getitem_None. assumption.
  - simpl. destruct (String.eqb_spec k' k); [contradiction|]. auto.
Qed.

(** * The methods, case by case *)

Lemma deposit_eq (now : string) (amount : float) (self : Account) :
  deposit now amount self =
  if (amount <=? 0)%float then
    (self, Raised (ValueError "Deposit amount must be positive."))
  else (deposited self now amount, Returned tt).
Proof. unfold deposit. destruct (amount <=? 0)%float; reflexivity. Qed.

Lemma withdraw_eq (now : string) (amount : float) (self : Account) :
  withdraw now amount self =
  if (amount <=? 0)%float then
    (self, Raised (ValueError "Withdrawal amount must be positive."))
  else if (cash_balance self - amount <? 0)%float then
    (self, Raised (ValueError "Cannot withdraw more than the available balance."))
  else (withdrawn self now amount, Returned tt).
Proof.
  unfold withdraw. destruct (amount <=? 0)%float; [reflexivity|].
  unfold bind, get_self. destruct (cash_balance self - amount <? 0)%float; reflexivity.
Qed.

Lemma buy_shares_eq (now symbol : string) (quantity : Z) (self : Account) :
  buy_shares now symbol quantity self =
  if quantity <=? 0 then
    (self, Raised (ValueError "Quantity must be a positive integer."))
  else
    match get_share_price symbol with
    | Raised e => (self, Raised e)
    | Returned price =>
        match mul_float_int price quantity with
        | Raised e => (self, Raised e)
        | Returned total_cost =>
            if (cash_balance self <? total_cost)%float then
              (self, Raised (ValueError "Insufficient funds to buy shares."))
            else (bought self now symbol quantity total_cost, Returned tt)
        end
    end.
Proof.
  unfold buy_shares. destruct (quantity <=? 0); [reflexivity|].
  unfold bind, lift, get_self.
  destruct (get_share_price symbol) as [price|e]; [|reflexivity].
  destruct (mul_float_int price quantity) as [total_cost|e]; [|reflexivity].
  destruct (cash_balance self <? total_cost)%float; reflexivity.
Qed.

Lemma sell_shares_eq (now symbol : string) (quantity : Z) (self : Account) :
  sell_shares now symbol quantity self =
  if quantity <=? 0 then
    (self, Raised (ValueError "Quantity must be a positive integer."))
  else if dict_get (holdings self) symbol 0 <? quantity then
    (self, Raised (ValueError "Insufficient shares to sell."))
  else
    match get_share_price symbol with
    | Raised e => (self, Raised e)
    | Returned price =>
        match mul_float_int price quantity with
        | Raised e => (self, Raised e)
        | Returned total_proceeds =>
            (sold self now symbol quantity total_proceeds, Returned tt)
        end
    end.
Proof.
  unfold sell_shares. destruct (Z.leb_spec quantity 0) as [|Hq]; [reflexivity|].
  unfold bind at 1. unfold get_self at 1.
  destruct (Z.ltb_spec (dict_get (holdings self) symbol 0) quantity) as [|Hh]; [reflexivity|].
  unfold bind at 1. unfold lift at 1.
  destruct (get_share_price symbol) as [price|e]; [|reflexivity].
  unfold bind at 1. unfold lift at 1.
  destruct (mul_float_int price quantity) as [total_proceeds|e]; [|reflexivity].
  unfold bind, modify, get_self, lift_key, ret, append_transaction. simpl.
  rewrite (dict_getitem_held (holdings self) symbol) by lia. simpl.
  rewrite dict_getitem_setitem. unfold sold. simpl.
  destruct (dict_get (holdings self) symbol 0 - quantity =? 0) eqn:E.
  - rewrite dict_delitem_setitem. simpl. reflexivity.
  - reflexivity.
Qed.

Lemma run_call_spec (now : string) (c : call) (self : Account) :
  (exists e, run_call now c self = (self, Raised e)) \/
  (exists self', run_call now c self = (self', Returned tt) /\ returns now self c self').
Proof.
  destruct c as [amount|amount|symbol quantity|symbol quantity]; simpl.
  - rewrite deposit_eq. destruct (amount <=? 0)%float eqn:E.
    + left. eexists. reflexivity.
    + right. eexists. split; [reflexivity|]. constructor. exact E.
  - rewrite withdraw_eq. destruct (amount <=? 0)%float eqn:E.
    + left. eexists. reflexivity.
    + destruct (cash_balance self - amount <? 0)%float eqn:E2.
      * left. eexists. reflexivity.
      * right. eexists. split; [reflexivity|]. constructor; assumption.
  - rewrite buy_shares_eq. destruct (Z.leb_spec quantity 0) as [|Hq].
    + left. eexists. reflexivity.
    + destruct (get_share_price symbol) as [price|e] eqn:Ep; [|left; eexists; reflexivity].
      destruct (mul_float_int price quantity) as [total|e] eqn:Et;
        [|left; eexists; reflexivity].
      destruct (cash_balance self <? total)%float eqn:Ec.
      * left. eexists. reflexivity.
      * right. eexists. split; [reflexivity|]. econstructor; eassumption.
  - rewrite sell_shares_eq. destruct (Z.leb_spec quantity 0) as [|Hq].
    + left. eexists. reflexivity.
    + destruct (Z.ltb_spec (dict_get (holdings self) symbol 0) quantity) as [|Hh].
      * left. eexists. reflexivity.
      * destruct (get_share_price symbol) as [price|e] eqn:Ep; [|left; eexists; reflexivity].
        destruct (mul_float_int price quantity) as [total|e] eqn:Et;
          [|left; eexists; reflexivity].
        right. eexists. split; [reflexivity|]. econstructor; eassumption.
Qed.

Lemma after_cases (now : string) (c : call) (self : Account) :
  after now c self = self \/ returns now self c (after now c self).
Proof.
  unfold after.
  destruct (run_call_spec now c self) as [[e H]|[self' [H R]]]; rewrite H; simpl; auto.
Qed.

(** A property kept by every returning call holds after any calls. *)
Lemma run_calls_invariant (P : Account -> Prop) :
  (forall now self c self', P self -> returns now self c self' -> P self') ->
  forall cs self, P self -> P (run_calls cs self).
Proof.
  intros step cs. induction cs as [|[now c] cs IH]; intros self H; simpl; [assumption|].
  apply IH. destruct (after_cases now c self) as [E|R].
  - rewrite E. assumption.
  - exact (step now self c _ H R).
Qed.

Lemma reachable_run_calls (self : Account) :
  reachable self <-> exists uid cs, self = run_calls cs (new_account uid).
Proof.
  split.
  - induction 1 as [uid|self now c _ (uid & cs & ->)].
    + exists uid, []. reflexivity.
    + exists uid, (cs ++ [(now, c)])%list.
      generalize (new_account uid). induction cs as [|[n0 c0] cs IH]; intros a; simpl;
        [reflexivity|apply IH].
  - intros (uid & cs & ->).
    assert (G : forall a, reachable a -> reachable (run_calls cs a)).
    { induction cs as [|[n0 c0] cs IH]; intros a Ha; simpl; [assumption|].
      apply IH. constructor. assumption. }
    apply G. constructor.
Qed.

(** * Order facts used by the ledger *)


Lemma leb_false_ltb_false (x y : float) :
  (x <=? y)%float = false -> (x <? y)%float = false.
Proof.
  rewrite leb_spec, ltb_spec. unfold SFleb, SFltb.
  destruct (SFcompare (Prim2SF x) (Prim2SF y)) as [[ | | ]|]; congruence.
Qed.

Lemma ltb_irrefl (x : float) : (x <? x)%float = false.
Proof.
  rewrite ltb_spec. unfold SFltb.
  pose proof (SFcompare_antisym (Prim2SF x) (Prim2SF x)) as H.
  destruct (SFcompare (Prim2SF x) (Prim2SF x)) as [[ | | ]|]; simpl in H; congruence.
Qed.

(** * Atomicity *)

(** C2: each of deposit, withdraw, buy and sell either returns, having
    appended exactly one transaction, or raises and leaves the whole account
    (cash balance, holdings, initial deposit, transactions) as it was; in
    particular a withdrawal of more than the cash balance raises ``Cannot
    withdraw more than the available balance.'' and changes nothing. *)
Theorem operations_atomic (now : string) (c : call) (self : Account) :
  match run_call now c self with
  | (self', Returned _) =>
      exists t, transactions self' = (transactions self ++ [t])%list
  | (self', Raised _) => self' = self
  end /\
  (forall amount,
      c = Withdraw amount ->
      (cash_balance self <? 0)%float = false ->
      (cash_balance self <? amount)%float = true ->
      run_call now c self = (self, Raised cannot_withdraw)).
Proof.
  split.
  - destruct (run_call_spec now c self) as [[e H]|[self' [H R]]]; rewrite H.
    + reflexivity.
    + destruct R; simpl; eexists; reflexivity.
  - intros amount -> Hc Ha. simpl. rewrite withdraw_eq.
    rewrite (above_not_negative_is_positive _ _ Hc Ha).
    rewrite (sub_negative _ _ Ha). reflexivity.
Qed.

Lemma operations_atomic_witness :
  run_call "t1" (Withdraw 100) (after "t0" (Deposit 50) (new_account "user123"))
  = (after "t0" (Deposit 50) (new_account "user123"), Raised cannot_withdraw).
Proof.
  apply (proj2 (operations_atomic "t1" (Withdraw 100)
                  (after "t0" (Deposit 50) (new_account "user123"))) 100%float);
    reflexivity.
Defined.

(** * Failures of a sale *)

(** C4: a sale raises ``Quantity must be a positive integer.'' when the
    quantity is not positive; otherwise ``Insufficient shares to sell.'' when
    fewer shares are held than asked for, a symbol that is not held counting
    as zero shares; otherwise the price lookup's ``Unsupported symbol'' when
    the symbol has no price.  Each failure leaves the account unchanged. *)
Theorem sell_shares_failures (now symbol : string) (quantity : Z) (self : Account) :
  (quantity <= 0 ->
   sell_shares now symbol quantity self = (self, Raised quantity_not_positive)) /\
  (0 < quantity -> dict_get (holdings self) symbol 0 < quantity ->
   sell_shares now symbol quantity self = (self, Raised insufficient_shares)) /\
  (0 < quantity -> dict_getitem (holdings self) symbol = None ->
   sell_shares now symbol quantity self = (self, Raised insufficient_shares)) /\
  (0 < quantity -> quantity <= dict_get (holdings self) symbol 0 ->
   ~ In symbol catalog ->
   sell_shares now symbol quantity self = (self, Raised unsupported_symbol)).
Proof.
  rewrite sell_shares_eq. repeat split.
  - intros H. apply Z.leb_le in H. rewrite H. reflexivity.
  - intros Hq Hh. apply Z.leb_gt in Hq. apply Z.ltb_lt in Hh. rewrite Hq, Hh. reflexivity.
  - intros Hq Hn. rewrite dict_get_getitem, Hn.
    apply Z.leb_gt in Hq. rewrite Hq. apply Z.leb_gt in Hq.
    apply Z.ltb_lt in Hq. rewrite Hq. reflexivity.
  - intros Hq Hh Hn. apply Z.leb_gt in Hq. apply Z.ltb_ge in Hh. rewrite Hq, Hh.
    destruct (get_share_price_cases symbol) as [[-> _]|[[-> _]|[[-> _]|[_ H]]]];
      try (exfalso; apply Hn; unfold catalog; simpl; tauto).
    rewrite H. reflexivity.
Qed.

Lemma sell_shares_failures_witness :
  sell_shares "t" "AAPL" (-1) (new_account "user123")
    = (new_account "user123", Raised quantity_not_positive) /\
  sell_shares "t" "TSLA" 2 (after "t1" (BuyShares "TSLA" 1)
                              (after "t0" (Deposit 1000) (new_account "user123")))
    = (after "t1" (BuyShares "TSLA" 1) (after "t0" (Deposit 1000) (new_account "user123")),
       Raised insufficient_shares) /\
  sell_shares "t" "ZZZZ" 1 (new_account "user123")
    = (new_account "user123", Raised insufficient_shares) /\
  sell_shares "t" "ZZZZ" 1
    (set_holdings (new_account "user123") [("ZZZZ", 1)])
    = (set_holdings (new_account "user123") [("ZZZZ", 1)], Raised unsupported_symbol).
Proof.
  split; [|split; [|split]].
  - apply (proj1 (sell_shares_failures "t" "AAPL" (-1) (new_account "user123"))). lia.
  - apply (proj1 (proj2 (sell_shares_failures "t" "TSLA" 2 _))); [lia|]. vm_compute. reflexivity.
  - apply (proj1 (proj2 (proj2 (sell_shares_failures "t" "ZZZZ" 1 _)))); [lia|reflexivity].
  - apply (proj2 (proj2 (proj2 (sell_shares_failures "t" "ZZZZ" 1 _)))).
    + lia.
    + simpl. lia.
    + unfold catalog. simpl. intros [H|[H|[H|[]]]]; discriminate H.
Defined.

(** * The cash balance *)

Lemma returns_cash_not_negative (now : string) (self : Account) (c : call) (self' : Account) :
  (cash_balance self <? 0)%float = false ->
  returns now self c self' ->
  (cash_balance self' <? 0)%float = false.
Proof.
  intros H R. returns_cases R;
    simpl.
  - apply add_not_negative; [assumption|]. apply leb_false_ltb_false. assumption.
  - assumption.
  - apply sub_not_negative. assumption.
  - apply add_not_negative; [assumption|].
    apply plus_signed_not_negative. apply (total_plus_signed s p q t Hp); [lia|assumption].
Qed.

(** The cash balance of an account obtained from a fresh one is not below
    zero. *)
Lemma reachable_cash_not_negative (uid : string) (cs : list (string * call)) :
  (cash_balance (run_calls cs (new_account uid)) <? 0)%float = false.
Proof.
  apply (run_calls_invariant (fun a => (cash_balance a <? 0)%float = false)).
  - exact returns_cash_not_negative.
  - reflexivity.
Qed.

(** * Holdings *)

Lemma positive_dict_get (d : dict) (k : string) :
  positive_holdings d -> 0 <= dict_get d k 0.
Proof.
  unfold positive_holdings. induction 1 as [|[k' v] d Hv _ IH]; simpl; [lia|].
  destruct (String.eqb k' k); simpl in Hv; lia.
Qed.

Lemma returns_holdings_positive (now : string) (self : Account) (c : call) (self' : Account) :
  positive_holdings (holdings self) /\ NoDup (map fst (holdings self)) ->
  returns now self c self' ->
  positive_holdings (holdings self') /\ NoDup (map fst (holdings self')).
Proof.
  intros [HP HN] R.
  returns_cases R; simpl.
  - split; assumption.
  - split; assumption.
  - split.
    + apply Forall_dict_setitem; [assumption|]. simpl.
      pose proof (positive_dict_get (holdings self) s HP). lia.
    + apply NoDup_dict_setitem. assumption.
  - destruct (Z.eqb_spec (dict_get (holdings self) s 0 - q) 0) as [E|E].
    + split; [apply Forall_dict_remove|apply NoDup_dict_remove]; assumption.
    + split.
      * apply Forall_dict_setitem; [assumption|]. simpl. lia.
      * apply NoDup_dict_setitem. assumption.
Qed.

Lemma reachable_holdings_positive (uid : string) (cs : list (string * call)) :
  positive_holdings (holdings (run_calls cs (new_account uid))) /\
  NoDup (map fst (holdings (run_calls cs (new_account uid)))).
Proof.
  apply (run_calls_invariant
           (fun a => positive_holdings (holdings a) /\ NoDup (map fst (holdings a)))).
  - exact returns_holdings_positive.
  - split; constructor.
Qed.

(** C6: in every account obtained from a fresh one, each quantity stored
    in the holdings is a strictly positive integer; a sale of all the shares
    held of a symbol removes its entry; and [get_holdings], on any account
    whatever, shows no entry that is not positive. *)
Theorem holdings_strictly_positive (uid : string) (cs : list (string * call)) :
  let self := run_calls cs (new_account uid) in
  positive_holdings (holdings self) /\
  (forall now symbol quantity self',
      sell_shares now symbol quantity self = (self', Returned tt) ->
      dict_get (holdings self) symbol 0 = quantity ->
      dict_getitem (holdings self') symbol = None) /\
  (forall a : Account, positive_holdings (get_holdings a)).
Proof.
  intros self. destruct (reachable_holdings_positive uid cs) as [HP HN]. fold self in HP, HN.
  split; [exact HP|]. split.
  - intros now symbol quantity self' H Hheld.
    rewrite sell_shares_eq in H.
    destruct (quantity <=? 0); [discriminate|].
    destruct (dict_get (holdings self) symbol 0 <? quantity); [discriminate|].
    destruct (get_share_price symbol) as [p|e]; [|discriminate].
    destruct (mul_float_int p quantity) as [t|e]; [|discriminate].
    injection H as <-. simpl.
    rewrite Hheld, Z.sub_diag. simpl.
    apply dict_getitem_remove. assumption.
  - intros a. unfold positive_holdings, get_holdings.
    apply Forall_forall. intros kv Hin. apply filter_In in Hin.
    destruct Hin as [_ H]. apply Z.ltb_lt. assumption.
Qed.

Lemma holdings_strictly_positive_witness :
  dict_getitem
    (holdings
       (after "t2" (SellShares "TSLA" 1)
          (run_calls [("t0", Deposit 1000); ("t1", BuyShares "TSLA" 1)]
             (new_account "user123"))))
    "TSLA" = None.
Proof.
  apply (proj1 (proj2 (holdings_strictly_positive "user123"
                         [("t0", Deposit 1000); ("t1", BuyShares "TSLA" 1)]))
           "t2" "TSLA" 1); reflexivity.
Defined.

(** * The initial deposit *)

Lemma amounts_of_snoc (kind : string) (l : list transaction) (t : transaction) :
  amounts_of kind (l ++ [t]) =
  (amounts_of kind l ++ if String.eqb (tx_type t) kind then [tx_amount t] else [])%list.
Proof.
  unfold amounts_of. rewrite filter_app, map_app. simpl.
  destruct (String.eqb (tx_type t) kind); reflexivity.
Qed.





(** * Buying and selling back *)

(** Two round trips that do not give the account back: the symbol was held
    before the purchase and is still held after the sale; and, on a balance
    large enough for rounding to show, the cash balance comes back changed. *)
Lemma round_trip_counterexample :
  let held :=
    run_calls [("t0", Deposit 1000); ("t1", BuyShares "AAPL" 1)] (new_account "user123") in
  let big :=
    run_calls [("t0", Deposit 18014398509482688); ("t1", BuyShares "AAPL" 2)]
      (new_account "user123") in
  (* an ordinary account that already holds the symbol *)
  (cash_balance held = 850%float /\
   holdings held = [("AAPL", 1)] /\
   is_returned (snd (buy_shares "t2" "AAPL" 1 held)) = true /\
   is_returned (snd (sell_shares "t3" "AAPL" 1 (after "t2" (BuyShares "AAPL" 1) held))) = true /\
   dict_getitem
     (holdings (after "t3" (SellShares "AAPL" 1) (after "t2" (BuyShares "AAPL" 1) held)))
     "AAPL" = Some 1) /\
  (* a balance above 2^54, where binary64 numbers are 4 apart *)
  (cash_balance big = 18014398509482388%float /\
   is_returned (snd (buy_shares "t2" "AAPL" 1 big)) = true /\
   is_returned (snd (sell_shares "t3" "AAPL" 1 (after "t2" (BuyShares "AAPL" 1) big))) = true /\
   cash_balance (after "t2" (BuyShares "AAPL" 1) big) = 18014398509482240%float /\
   cash_balance (after "t3" (SellShares "AAPL" 1) (after "t2" (BuyShares "AAPL" 1) big))
   = 18014398509482392%float /\
   (18014398509482392 =? 18014398509482388)%float = false).
Proof. vm_compute. repeat split. Qed.

(** C1, in the form the code satisfies: when the stored quantities are
    positive and a purchase of [quantity] shares of [symbol] returns, selling
    the same quantity straight away returns too, at the same total; the
    holdings are then exactly the holdings before the purchase, so the symbol
    is absent after the sale if it was absent before; the cash balance is
    [(cash - total) + total] as binary64 arithmetic computes it, and that is
    the balance before the purchase, exactly, whenever that balance is at
    least zero and below [2^53]. *)
Theorem buy_then_sell_round_trip
    (now1 now2 symbol : string) (quantity : Z) (self self1 : Account) :
  positive_holdings (holdings self) ->
  buy_shares now1 symbol quantity self = (self1, Returned tt) ->
  exists price total self2,
    get_share_price symbol = Returned price /\
    mul_float_int price quantity = Returned total /\
    sell_shares now2 symbol quantity self1 = (self2, Returned tt) /\
    holdings self2 = holdings self /\
    (dict_getitem (holdings self) symbol = None ->
     dict_getitem (holdings self2) symbol = None) /\
    cash_balance self2 = ((cash_balance self - total) + total)%float /\
    ((0 <=? cash_balance self)%float = true ->
     (cash_balance self <? 0x1p+53)%float = true ->
     cash_balance self2 = cash_balance self) /\
    initial_deposit self2 = initial_deposit self.
Proof.
  intros HP Hbuy. rewrite buy_shares_eq in Hbuy.
  destruct (Z.leb_spec quantity 0) as [|Hq]; [discriminate|].
  destruct (get_share_price symbol) as [price|e] eqn:Ep; [|discriminate].
  destruct (mul_float_int price quantity) as [total|e] eqn:Et; [|discriminate].
  destruct (cash_balance self <? total)%float eqn:Ec; [discriminate|].
  injection Hbuy as <-.
  pose proof (positive_dict_get (holdings self) symbol HP) as Hh.
  set (h0 := dict_get (holdings self) symbol 0) in *.
  assert (Hget : dict_get (holdings (bought self now1 symbol quantity total)) symbol 0
                 = h0 + quantity).
  { simpl. rewrite dict_get_getitem, dict_getitem_setitem. reflexivity. }
  assert (Hrestore :
            (if h0 + quantity - quantity =? 0
             then dict_remove (dict_setitem (holdings self) symbol (h0 + quantity)) symbol
             else dict_setitem (dict_setitem (holdings self) symbol (h0 + quantity)) symbol
                    (h0 + quantity - quantity))
            = holdings self).
  { replace (h0 + quantity - quantity) with h0 by lia.
    destruct (Z.eqb_spec h0 0) as [E0|N0].
    - rewrite dict_remove_setitem. apply dict_remove_absent.
      destruct (dict_getitem (holdings self) symbol) as [v|] eqn:Eg; [|reflexivity].
      exfalso. pose proof (dict_getitem_In _ _ _ Eg) as Hin.
      unfold positive_holdings in HP. rewrite Forall_forall in HP.
      specialize (HP _ Hin). simpl in HP.
      unfold h0 in E0. rewrite dict_get_getitem, Eg in E0. lia.
    - rewrite dict_setitem_setitem. apply dict_setitem_same.
      apply dict_getitem_held. exact N0. }
  exists price, total. eexists. split; [reflexivity|]. split; [exact Et|].
  rewrite sell_shares_eq, Ep, Et, Hget.
  replace (quantity <=? 0) with false by (symmetry; apply Z.leb_gt; assumption).
  replace (h0 + quantity <? quantity) with false by (symmetry; apply Z.ltb_ge; lia).
  split; [reflexivity|]. simpl.
  rewrite dict_get_getitem, dict_getitem_setitem. fold h0.
  rewrite Hrestore. repeat split.
  - intros H. exact H.
  - intros H0 H53. exact (pay_and_refund_exact symbol price quantity total _ Ep Hq Et H0 H53 Ec).
Qed.

Lemma buy_then_sell_round_trip_witness :
  exists price total self2,
    get_share_price "TSLA" = Returned price /\
    mul_float_int price 1 = Returned total /\
    sell_shares "t2" "TSLA" 1
      (after "t1" (BuyShares "TSLA" 1) (after "t0" (Deposit 1000) (new_account "user123")))
    = (self2, Returned tt) /\
    holdings self2 = holdings (after "t0" (Deposit 1000) (new_account "user123")) /\
    (dict_getitem (holdings (after "t0" (Deposit 1000) (new_account "user123"))) "TSLA" = None ->
     dict_getitem (holdings self2) "TSLA" = None) /\
    cash_balance self2
    = ((cash_balance (after "t0" (Deposit 1000) (new_account "user123")) - total) + total)%float /\
    ((0 <=? cash_balance (after "t0" (Deposit 1000) (new_account "user123")))%float = true ->
     (cash_balance (after "t0" (Deposit 1000) (new_account "user123")) <? 0x1p+53)%float = true ->
     cash_balance self2 = cash_balance (after "t0" (Deposit 1000) (new_account "user123"))) /\
    initial_deposit self2 = initial_deposit (after "t0" (Deposit 1000) (new_account "user123")).
Proof.
  apply (buy_then_sell_round_trip "t1" "t2" "TSLA" 1
           (after "t0" (Deposit 1000) (new_account "user123"))).
  - constructor.
  - reflexivity.
Defined.

(** * Held symbols and the price table *)

Lemma returns_holdings_in_catalog (now : string) (self : Account) (c : call) (self' : Account) :
  Forall (fun kv => In (fst kv) catalog) (holdings self) ->
  returns now self c self' ->
  Forall (fun kv => In (fst kv) catalog) (holdings self').
Proof.
  intros H R.
  returns_cases R; simpl;
    try assumption.
  - apply Forall_dict_setitem; [assumption|]. simpl.
    apply get_share_price_in_catalog. rewrite Hp. reflexivity.
  - destruct (dict_get (holdings self) s 0 - q =? 0).
    + apply Forall_dict_remove. assumption.
    + apply Forall_dict_setitem; [assumption|]. simpl.
      apply get_share_price_in_catalog. rewrite Hp. reflexivity.
Qed.

Lemma reachable_holdings_in_catalog (uid : string) (cs : list (string * call)) :
  Forall (fun kv => In (fst kv) catalog) (holdings (run_calls cs (new_account uid))).
Proof.
  apply (run_calls_invariant (fun a => Forall (fun kv => In (fst kv) catalog) (holdings a))).
  - exact returns_holdings_in_catalog.
  - constructor.
Qed.

(** The lower-case spelling of a priced symbol has no price and names no
    entry of the holdings. *)
Lemma case_sensitive_counterexample :
  let funded := after "t0" (Deposit 1000) (new_account "user123") in
  let held := after "t1" (BuyShares "AAPL" 1) funded in
  get_share_price "AAPL" = Returned 150%float /\
  get_share_price "aapl" = Raised unsupported_symbol /\
  buy_shares "t1" "aapl" 1 funded = (funded, Raised unsupported_symbol) /\
  holdings held = [("AAPL", 1)] /\
  dict_getitem (holdings held) "aapl" = None /\
  sell_shares "t2" "aapl" 1 held = (held, Raised insufficient_shares).
Proof. vm_compute. repeat split. Qed.

(** C9, in the form the code satisfies: the account does not normalize the
    case of a symbol; it compares symbols exactly. The price table prices the
    three upper-case symbols AAPL, TSLA and GOOGL and nothing else; a purchase
    of any other spelling raises and leaves the account as it was; so every
    key of the holdings of an account obtained from a fresh one is one of
    those three symbols, and a sale of any other spelling raises as well. *)
Theorem symbols_matched_exactly :
  (forall symbol, is_returned (get_share_price symbol) = true <-> In symbol catalog) /\
  (forall now symbol quantity self,
      ~ In symbol catalog ->
      exists e, buy_shares now symbol quantity self = (self, Raised e)) /\
  (forall uid cs,
      Forall (fun kv => In (fst kv) catalog) (holdings (run_calls cs (new_account uid)))) /\
  (forall uid cs now symbol quantity,
      ~ In symbol catalog ->
      exists e,
        sell_shares now symbol quantity (run_calls cs (new_account uid))
        = (run_calls cs (new_account uid), Raised e)).
Proof.
  split; [exact get_share_price_in_catalog|]. split; [|split].
  - intros now symbol quantity self Hn. rewrite buy_shares_eq.
    destruct (quantity <=? 0); [eexists; reflexivity|].
    destruct (get_share_price symbol) as [p|e] eqn:Ep; [|eexists; reflexivity].
    exfalso. apply Hn. apply get_share_price_in_catalog. rewrite Ep. reflexivity.
  - exact reachable_holdings_in_catalog.
  - intros uid cs now symbol quantity Hn. rewrite sell_shares_eq.
    destruct (quantity <=? 0); [eexists; reflexivity|].
    destruct (_ <? quantity); [eexists; reflexivity|].
    destruct (get_share_price symbol) as [p|e] eqn:Ep; [|eexists; reflexivity].
    exfalso. apply Hn. apply get_share_price_in_catalog. rewrite Ep. reflexivity.
Qed.

(** * Reporting *)

Lemma add_holdings_value_raises (items : dict) :
  Forall (fun kv => In (fst kv) catalog) items ->
  forall total e, add_holdings_value items total = Raised e -> e = int_too_large.
Proof.
  induction 1 as [|[s q] items Hs _ IH]; intros total e; simpl; [discriminate|].
  apply get_share_price_in_catalog in Hs. simpl in Hs.
  destruct (get_share_price s) as [p|e0]; [|discriminate Hs].
  unfold mul_float_int. destruct (float_of_int q) as [y|].
  - apply IH.
  - intros E. injection E as <-. reflexivity.
Qed.

Lemma add_holdings_value_returns (items : dict) :
  Forall (fun kv => In (fst kv) catalog) items ->
  Forall (fun kv => float_of_int (snd kv) <> None) items ->
  forall total, is_returned (add_holdings_value items total) = true.
Proof.
  induction 1 as [|[s q] items Hs _ IH]; intros Hc total; simpl; [reflexivity|].
  inversion Hc as [|? ? Hq Hc']; subst. simpl in Hq.
  apply get_share_price_in_catalog in Hs. simpl in Hs.
  destruct (get_share_price s) as [p|e0]; [|discriminate Hs].
  unfold mul_float_int. destruct (float_of_int q) as [y|]; [|congruence].
  apply IH. assumption.
Qed.

(** Deposits that overflow to infinity, then two purchases whose cost is
    infinite: both are accepted, since [inf > inf] and [inf > nan] are false,
    and the quantity held, [2^1024], no longer converts to a float.  The
    same with purchases of [2^1023 - 2^969] shares: the quantity held is
    then [2^1024 - 2^970], the smallest that does not convert. *)
Lemma reporting_overflow_counterexample :
  let self :=
    run_calls [("t0", Deposit 0x1p+1023); ("t1", Deposit 0x1p+1023);
               ("t2", BuyShares "AAPL" (2 ^ 1023)); ("t3", BuyShares "AAPL" (2 ^ 1023))]
      (new_account "user123") in
  let least :=
    run_calls [("t0", Deposit 0x1p+1023); ("t1", Deposit 0x1p+1023);
               ("t2", BuyShares "AAPL" (2 ^ 1023 - 2 ^ 969));
               ("t3", BuyShares "AAPL" (2 ^ 1023 - 2 ^ 969))]
      (new_account "user123") in
  (holdings self = [("AAPL", 2 ^ 1024)] /\
   get_portfolio_value self = Raised int_too_large /\
   get_profit_loss sum_left self = Raised int_too_large) /\
  (holdings least = [("AAPL", 2 ^ 1024 - 2 ^ 970)] /\
   get_portfolio_value least = Raised int_too_large /\
   get_profit_loss sum_left least = Raised int_too_large).
Proof. vm_compute. repeat split. Qed.

Lemma add_holdings_value_sum (items : dict) :
  forall total value,
    add_holdings_value items total = Returned value ->
    exists values,
      Forall2 (fun kv x =>
                 exists price,
                   get_share_price (fst kv) = Returned price /\
                   mul_float_int price (snd kv) = Returned x)
        items values /\
      value = fold_left (fun acc x => (acc + x)%float) values total.
Proof.
  induction items as [|[s q] items IH]; intros total value; simpl.
  - intros E. injection E as <-. exists []. split; [constructor|reflexivity].
  - destruct (get_share_price s) as [p|e] eqn:Ep; [|discriminate].
    destruct (mul_float_int p q) as [x|e] eqn:Ex; [|discriminate].
    intros E. destruct (IH _ _ E) as (values & HF & ->).
    exists (x :: values). split; [|reflexivity].
    constructor; [|assumption]. exists p. simpl. rewrite Ep. split; [reflexivity|assumption].
Qed.

Lemma only_deposits_state (cs : list (string * call)) :
  forallb (fun nc => is_deposit (snd nc)) cs = true ->
  forall self,
    holdings self = [] /\ cash_balance self = initial_deposit self /\
    amounts_of "withdraw" (transactions self) = [] ->
    holdings (run_calls cs self) = [] /\
    cash_balance (run_calls cs self) = initial_deposit (run_calls cs self) /\
    amounts_of "withdraw" (transactions (run_calls cs self)) = [].
Proof.
  induction cs as [|[now c] cs IH]; simpl; intros Hd self H; [assumption|].
  apply andb_true_iff in Hd. destruct Hd as [Hc Hd].
  apply IH; [assumption|].
  destruct c as [amount| | | ]; try discriminate Hc.
  unfold after. simpl. rewrite deposit_eq.
  destruct (amount <=? 0)%float; simpl; [assumption|].
  destruct H as (H1 & H2 & H3). rewrite amounts_of_snoc, H1, H2, H3. simpl.
  repeat split.
Qed.

(** Two deposits of [2^1023] overflow: the balance and the initial deposit
    are infinite and their difference is not a number. *)
Lemma profit_loss_after_deposits_counterexample :
  let self :=
    run_calls [("t0", Deposit 0x1p+1023); ("t1", Deposit 0x1p+1023)]
      (new_account "user123") in
  cash_balance self = infinity /\
  holdings self = [] /\
  get_portfolio_value self = Returned infinity /\
  get_profit_loss sum_left self = Returned nan /\
  (nan =? 0)%float = false.
Proof. vm_compute. repeat split. Qed.

(** C8, in the form the code satisfies: [get_profit_loss] is
    [get_portfolio_value] minus the net deposits, the net deposits being
    [initial_deposit] minus the sum of the amounts of the withdraw
    transactions, and it raises when [get_portfolio_value] raises;
    [get_portfolio_value] is the cash balance plus, for each entry of the
    holdings in order, its quantity times the price of its symbol; and after
    deposits only, the profit or loss is zero provided the cash balance is
    finite. *)
Theorem profit_loss_is_value_minus_net_deposits (builtin_sum : list float -> float) :
  builtin_sum [] = 0%float ->
  (forall self,
      get_profit_loss builtin_sum self =
      match get_portfolio_value self with
      | Returned value =>
          Returned
            (value - (initial_deposit self
                      - builtin_sum (amounts_of "withdraw" (transactions self))))%float
      | Raised e => Raised e
      end) /\
  (forall self value,
      get_portfolio_value self = Returned value ->
      exists values,
        Forall2 (fun kv x =>
                   exists price,
                     get_share_price (fst kv) = Returned price /\
                     mul_float_int price (snd kv) = Returned x)
          (holdings self) values /\
        value = fold_left (fun acc x => (acc + x)%float) values (cash_balance self)) /\
  (forall uid cs,
      forallb (fun nc => is_deposit (snd nc)) cs = true ->
      is_finite (cash_balance (run_calls cs (new_account uid))) = true ->
      get_profit_loss builtin_sum (run_calls cs (new_account uid)) = Returned 0%float).
Proof.
  intros Hnil. split; [reflexivity|]. split.
  - intros self value. apply add_holdings_value_sum.
  - intros uid cs Hd Hf.
    destruct (only_deposits_state cs Hd (new_account uid)) as (H1 & H2 & H3);
      [repeat split|].
    unfold get_profit_loss, net_deposits, get_portfolio_value.
    rewrite H1, H3, Hnil, <- H2, sub_zero_r. simpl.
    rewrite sub_diag_finite by assumption. reflexivity.
Qed.

Lemma profit_loss_is_value_minus_net_deposits_witness :
  get_profit_loss sum_left
    (run_calls [("t0", Deposit 100); ("t1", Deposit 0.5)] (new_account "user123"))
  = Returned 0%float.
Proof.
  apply (proj2 (proj2 (profit_loss_is_value_minus_net_deposits sum_left eq_refl))
           "user123" [("t0", Deposit 100); ("t1", Deposit 0.5)]);
    reflexivity.
Defined.

(** * Deposits, and worked scenarios *)

Lemma run_deposits (ds : list (string * float)) :
  Forall (fun d => (snd d <=? 0)%float = false) ds ->
  forall self,
    cash_balance (run_calls (map (fun d => (fst d, Deposit (snd d))) ds) self)
    = fold_left (fun acc x => (acc + x)%float) (map snd ds) (cash_balance self) /\
    initial_deposit (run_calls (map (fun d => (fst d, Deposit (snd d))) ds) self)
    = fold_left (fun acc x => (acc + x)%float) (map snd ds) (initial_deposit self) /\
    List.length (transactions (run_calls (map (fun d => (fst d, Deposit (snd d))) ds) self))
    = (List.length (transactions self) + List.length ds)%nat.
Proof.
  induction 1 as [|[now amount] ds Hd _ IH]; intros self; simpl.
  - repeat split. lia.
  - simpl in Hd. unfold after. simpl. rewrite deposit_eq, Hd. simpl.
    destruct (IH (deposited self now amount)) as (H1 & H2 & H3).
    rewrite H1, H2, H3. simpl. rewrite List.length_app. simpl. repeat split. lia.
Qed.

(** X11: after deposits of positive amounts [d1 .. dn] on a fresh account, the
    cash balance and the initial deposit are both [d1 + ... + dn], added in
    that order, and the ledger has [n] entries. *)
Theorem deposits_accumulate (uid : string) (ds : list (string * float)) :
  Forall (fun d => (snd d <=? 0)%float = false) ds ->
  let self := run_calls (map (fun d => (fst d, Deposit (snd d))) ds) (new_account uid) in
  cash_balance self = sum_left (map snd ds) /\
  initial_deposit self = sum_left (map snd ds) /\
  List.length (transactions self) = List.length ds.
Proof.
  intros H. exact (run_deposits ds H (new_account uid)).
Qed.

Lemma deposits_accumulate_witness :
  cash_balance
    (run_calls (map (fun d => (fst d, Deposit (snd d))) [("t0", 500%float); ("t1", 200%float)])
       (new_account "user123"))
  = sum_left [500%float; 200%float].
Proof.
  apply (deposits_accumulate "user123" [("t0", 500%float); ("t1", 200%float)]).
  repeat constructor.
Defined.

(** The worked scenarios: 1000 deposited, five AAPL bought at 150 and sold
    back; a purchase that 100 cannot pay for; a negative quantity; a symbol
    without a price. *)
Example ledger_scenarios :
  let fresh := new_account "user123" in
  let run cs := run_calls (map (fun c => ("t", c)) cs) fresh in
  (cash_balance (run [Deposit 1000; BuyShares "AAPL" 5]) = 250%float /\
   holdings (run [Deposit 1000; BuyShares "AAPL" 5]) = [("AAPL", 5)] /\
   cash_balance (run [Deposit 1000; BuyShares "AAPL" 5; SellShares "AAPL" 5]) = 1000%float /\
   holdings (run [Deposit 1000; BuyShares "AAPL" 5; SellShares "AAPL" 5]) = [] /\
   get_profit_loss sum_left (run [Deposit 1000; BuyShares "AAPL" 5; SellShares "AAPL" 5])
   = Returned 0%float) /\
  (buy_shares "t" "AAPL" 1 (run [Deposit 100])
   = (run [Deposit 100], Raised insufficient_funds) /\
   cash_balance (run [Deposit 100; BuyShares "AAPL" 1]) = 100%float /\
   holdings (run [Deposit 100; BuyShares "AAPL" 1]) = [] /\
   List.length (transactions (run [Deposit 100; BuyShares "AAPL" 1])) = 1%nat) /\
  (buy_shares "t" "AAPL" (-1) (run [Deposit 1000])
   = (run [Deposit 1000], Raised quantity_not_positive)) /\
  (buy_shares "t" "ZZZZ" 1 (run [Deposit 1000])
   = (run [Deposit 1000], Raised unsupported_symbol)).
Proof. vm_compute. repeat split. Qed.

(** * More on dictionaries *)

Lemma dict_get_setitem (d : dict) (k : string) (v default : Z) :
  dict_get (dict_setitem d k v) k default = v.
Proof. rewrite dict_get_getitem, dict_getitem_setitem. reflexivity. Qed.

Lemma dict_get_setitem_other (d : dict) (k k' : string) (v default : Z) :
  k' <> k -> dict_get (dict_setitem d k v) k' default = dict_get d k' default.
Proof.
  intros N. induction d as [|[k0 v0] d IH]; simpl.
  - destruct (String.eqb_spec k k'); [congruence|reflexivity].
  - destruct (String.eqb_spec k0 k) as [->|N0]; simpl.
    + destruct (String.eqb_spec k k'); [congruence|reflexivity].
    + destruct (String.eqb k0 k'); [reflexivity|exact IH].
Qed.

Lemma dict_get_remove (d : dict) (k : string) (default : Z) :
  NoDup (map fst d) -> dict_get (dict_remove d k) k default = default.
Proof.
  intros H. rewrite dict_get_getitem, dict_getitem_remove by assumption. reflexivity.
Qed.

Lemma dict_get_remove_other (d : dict) (k k' : string) (default : Z) :
  k' <> k -> dict_get (dict_remove d k) k' default = dict_get d k' default.
Proof.
  intros N. induction d as [|[k0 v0] d IH]; simpl; [reflexivity|].
  destruct (String.eqb_spec k0 k) as [->|N0]; simpl.
  - destruct (String.eqb_spec k k'); [congruence|reflexivity].
  - destruct (String.eqb k0 k'); [reflexivity|exact IH].
Qed.

(** * Withdrawals *)

Lemma sub_ltb_zero (x y : float) : (x - y <? 0)%float = (x <? y)%float.
Proof.
  destruct (x <? y)%float eqn:E.
  - apply sub_negative. assumption.
  - apply sub_not_negative. assumption.
Qed.

(** X6: a withdrawal returns exactly when its amount is not zero or less and the
    cash balance is not below it: the test [cash_balance - amount < 0] of the
    code is the comparison [cash_balance < amount], whatever the two numbers.
    It then takes the amount off the cash balance and appends one withdraw
    entry, leaving the holdings and the initial deposit alone; withdrawing
    the whole of a finite balance leaves exactly zero. *)
Theorem withdraw_iff_covered (now : string) (amount : float) (self : Account) :
  ((exists self', withdraw now amount self = (self', Returned tt)) <->
   (amount <=? 0)%float = false /\ (cash_balance self <? amount)%float = false) /\
  (forall self',
      withdraw now amount self = (self', Returned tt) ->
      self' = withdrawn self now amount) /\
  (amount = cash_balance self ->
   is_finite amount = true -> (amount <=? 0)%float = false ->
   cash_balance (after now (Withdraw amount) self) = 0%float).
Proof.
  rewrite withdraw_eq, sub_ltb_zero. split; [|split].
  - destruct (amount <=? 0)%float.
    + split; [intros [self' H]; discriminate H|intros [H _]; discriminate H].
    + destruct (cash_balance self <? amount)%float.
      * split; [intros [self' H]; discriminate H|intros [_ H]; discriminate H].
      * split; [intros _; split; reflexivity|intros _; eexists; reflexivity].
  - destruct (amount <=? 0)%float; [discriminate|].
    destruct (cash_balance self <? amount)%float; [discriminate|].
    intros self' H. injection H as <-. reflexivity.
  - intros E Hf Hp. subst amount. unfold after. simpl.
    rewrite withdraw_eq, sub_ltb_zero, Hp, ltb_irrefl. simpl.
    apply sub_diag_finite. assumption.
Qed.

(** * Sales *)

Lemma reachable_invariants (uid : string) (cs : list (string * call)) :
  let self := run_calls cs (new_account uid) in
  positive_holdings (holdings self) /\ NoDup (map fst (holdings self)) /\
  Forall (fun kv => In (fst kv) catalog) (holdings self).
Proof.
  intros self. destruct (reachable_holdings_positive uid cs) as [H1 H2].
  split; [exact H1|]. split; [exact H2|]. apply reachable_holdings_in_catalog.
Qed.

Lemma held_is_priced (d : dict) (symbol : string) :
  Forall (fun kv => In (fst kv) catalog) d ->
  dict_get d symbol 0 <> 0 ->
  exists price, get_share_price symbol = Returned price.
Proof.
  intros HC Hh. pose proof (dict_getitem_held d symbol Hh) as Hg.
  apply dict_getitem_In in Hg. rewrite Forall_forall in HC. specialize (HC _ Hg).
  simpl in HC. apply get_share_price_in_catalog in HC.
  destruct (get_share_price symbol) as [p|e]; [exists p; reflexivity|discriminate HC].
Qed.

(** X7: on an account obtained from a fresh one, a sale returns exactly when the
    quantity is positive, at most the quantity held, and small enough to be
    converted to a float; the price lookup cannot fail, a held symbol being
    priced.  The sale adds [price * quantity] to the cash balance, takes the
    quantity off the shares held of the symbol and leaves the other symbols
    as they were. *)
Theorem sell_shares_iff_held
    (uid : string) (cs : list (string * call)) (now symbol : string) (quantity : Z) :
  let self := run_calls cs (new_account uid) in
  ((exists self', sell_shares now symbol quantity self = (self', Returned tt)) <->
   0 < quantity <= dict_get (holdings self) symbol 0 /\ float_of_int quantity <> None) /\
  (forall self',
      sell_shares now symbol quantity self = (self', Returned tt) ->
      exists price total,
        get_share_price symbol = Returned price /\
        mul_float_int price quantity = Returned total /\
        cash_balance self' = (cash_balance self + total)%float /\
        dict_get (holdings self') symbol 0 = dict_get (holdings self) symbol 0 - quantity /\
        (forall other, other <> symbol ->
           dict_get (holdings self') other 0 = dict_get (holdings self) other 0)).
Proof.
  intros self. destruct (reachable_invariants uid cs) as (HP & HN & HC).
  fold self in HP, HN, HC. rewrite sell_shares_eq.
  destruct (Z.leb_spec quantity 0) as [Hq|Hq].
  { split; [split; [intros [s H]; discriminate H|lia]|intros s H; discriminate H]. }
  destruct (Z.ltb_spec (dict_get (holdings self) symbol 0) quantity) as [Hh|Hh].
  { split; [split; [intros [s H]; discriminate H|lia]|intros s H; discriminate H]. }
  destruct (held_is_priced (holdings self) symbol HC ltac:(lia)) as [price Ep].
  rewrite Ep. unfold mul_float_int.
  destruct (float_of_int quantity) as [y|] eqn:Ey.
  - split.
    + split; [intros _; split; [lia|discriminate]|intros _; eexists; reflexivity].
    + intros self' H. injection H as <-. exists price, (price * y)%float.
      split; [reflexivity|]. split; [reflexivity|]. split; [reflexivity|]. simpl.
      destruct (Z.eqb_spec (dict_get (holdings self) symbol 0 - quantity) 0) as [E|E].
      * split; [rewrite dict_get_remove by assumption; lia|].
        intros other N. apply dict_get_remove_other. assumption.
      * split; [apply dict_get_setitem|].
        intros other N. apply dict_get_setitem_other. assumption.
  - split.
    + split; [intros [s H]; discriminate H|intros [_ H]; congruence].
    + intros s H. discriminate H.
Qed.

(** * The ledger and the account *)

Lemma replay_snoc (l : list transaction) (t : transaction) :
  replay (l ++ [t]) = apply_entry (replay l) t.
Proof. unfold replay. rewrite fold_left_app. reflexivity. Qed.

Lemma returns_replay (now : string) (self : Account) (c : call) (self' : Account) :
  replay (transactions self) = (cash_balance self, holdings self) ->
  returns now self c self' ->
  replay (transactions self') = (cash_balance self', holdings self').
Proof.
  intros H R. returns_cases R; simpl; rewrite replay_snoc, H; reflexivity.
Qed.

(** X2: in every account obtained from a fresh one, the cash balance and the
    holdings are what the ledger says: replaying the entries in order from a
    zero balance and no holdings (adding the amount of a deposit or a sale,
    taking off the amount of a withdrawal or a purchase, adding and removing
    the traded shares) gives the cash balance and the holdings of the
    account, entry order of the holdings included. *)
Theorem ledger_replays_to_account (uid : string) (cs : list (string * call)) :
  let self := run_calls cs (new_account uid) in
  replay (transactions self) = (cash_balance self, holdings self).
Proof.
  apply (run_calls_invariant
           (fun a => replay (transactions a) = (cash_balance a, holdings a))).
  - exact returns_replay.
  - reflexivity.
Qed.

Lemma traded_snoc (kind symbol : string) (l : list transaction) (t : transaction) :
  traded kind symbol (l ++ [t]) = traded kind symbol l + traded kind symbol [t].
Proof.
  unfold traded. induction l as [|t0 l IH]; simpl.
  - destruct (tx_symbol t), (tx_quantity t); try reflexivity.
  - rewrite IH. simpl.
    destruct (tx_symbol t0), (tx_quantity t0); try reflexivity.
    destruct (_ && _); [|reflexivity].
    destruct (tx_symbol t), (tx_quantity t); try lia; destruct (_ && _); lia.
Qed.

Lemma returns_shares_balance (now : string) (self : Account) (c : call) (self' : Account) :
  (NoDup (map fst (holdings self)) /\
   forall symbol,
     dict_get (holdings self) symbol 0
     = traded "buy" symbol (transactions self) - traded "sell" symbol (transactions self)) ->
  returns now self c self' ->
  NoDup (map fst (holdings self')) /\
  forall symbol,
    dict_get (holdings self') symbol 0
    = traded "buy" symbol (transactions self') - traded "sell" symbol (transactions self').
Proof.
  intros [HN H] R. returns_cases R; simpl.
  - split; [assumption|]. intros symbol. rewrite !traded_snoc, H. simpl. lia.
  - split; [assumption|]. intros symbol. rewrite !traded_snoc, H. simpl. lia.
  - split; [apply NoDup_dict_setitem; assumption|].
    intros symbol. rewrite !traded_snoc. simpl.
    destruct (String.eqb_spec s symbol) as [->|N].
    + rewrite dict_get_setitem, H. lia.
    + rewrite dict_get_setitem_other by congruence. rewrite H. lia.
  - split.
    { destruct (_ =? 0); [apply NoDup_dict_remove|apply NoDup_dict_setitem]; assumption. }
    intros symbol. rewrite !traded_snoc. simpl.
    destruct (String.eqb_spec s symbol) as [->|N].
    + destruct (Z.eqb_spec (dict_get (holdings self) symbol 0 - q) 0) as [E|E].
      * rewrite dict_get_remove by assumption. rewrite H in E. lia.
      * rewrite dict_get_setitem, H. lia.
    + destruct (_ =? 0).
      * rewrite dict_get_remove_other by congruence. rewrite H. lia.
      * rewrite dict_get_setitem_other by congruence. rewrite H. lia.
Qed.

(** X3: in every account obtained from a fresh one and for every symbol, the
    number of shares held (zero when the symbol has no entry) is the number
    bought minus the number sold, counted over the buy and the sell entries
    of the ledger; so no more shares of a symbol were ever sold than
    bought. *)
Theorem holdings_are_bought_minus_sold
    (uid : string) (cs : list (string * call)) (symbol : string) :
  let self := run_calls cs (new_account uid) in
  dict_get (holdings self) symbol 0
  = traded "buy" symbol (transactions self) - traded "sell" symbol (transactions self) /\
  traded "sell" symbol (transactions self) <= traded "buy" symbol (transactions self).
Proof.
  intros self.
  assert (H : NoDup (map fst (holdings self)) /\
              forall symbol,
                dict_get (holdings self) symbol 0
                = traded "buy" symbol (transactions self)
                  - traded "sell" symbol (transactions self)).
  { apply (run_calls_invariant
             (fun a => NoDup (map fst (holdings a)) /\
                       forall symbol,
                         dict_get (holdings a) symbol 0
                         = traded "buy" symbol (transactions a)
                           - traded "sell" symbol (transactions a))).
    - exact returns_shares_balance.
    - split; [constructor|reflexivity]. }
  destruct H as [_ H]. split; [apply H|].
  pose proof (positive_dict_get (holdings self) symbol
                (proj1 (reachable_holdings_positive uid cs))) as P.
  fold self in P. rewrite H in P. lia.
Qed.

Lemma returns_entries_ok (now : string) (self : Account) (c : call) (self' : Account) :
  Forall entry_ok (transactions self) ->
  returns now self c self' ->
  Forall entry_ok (transactions self').
Proof.
  intros H R.
  returns_cases R; simpl; apply Forall_app; (split; [assumption|]);
    (constructor; [|constructor]); unfold entry_ok; simpl.
  - left. tauto.
  - left. tauto.
  - right. split; [tauto|]. exists s, q, p. tauto.
  - right. split; [tauto|]. exists s, q, p. tauto.
Qed.

(** X5: every entry of the ledger of an account obtained from a fresh one is of
    one of the four kinds.  A deposit or a withdraw entry carries no symbol
    and no quantity, and an amount that is not zero or less.  A buy or a sell
    entry carries a symbol of the price table, a positive quantity, and as
    its amount the price of the symbol times the quantity. *)
Theorem ledger_entries_well_formed (uid : string) (cs : list (string * call)) :
  Forall entry_ok (transactions (run_calls cs (new_account uid))).
Proof.
  apply (run_calls_invariant (fun a => Forall entry_ok (transactions a))).
  - exact returns_entries_ok.
  - constructor.
Qed.

Lemma returns_records (now : string) (self : Account) (c : call) (self' : Account) :
  returns now self c self' ->
  exists t, transactions self' = (transactions self ++ [t])%list /\ records (now, c) t /\
            user_id self' = user_id self.
Proof.
  intros R. returns_cases R; simpl; eexists; (split; [reflexivity|]);
    unfold records; simpl; repeat split; eauto.
Qed.

(** X4: whatever the calls and the account they start from, the ledger only
    grows, and by the calls that return: it is the ledger before, followed by
    one entry for each call that returned, in the order of the calls, each
    with the time of its call, its kind, its symbol and quantity, and its
    amount; a call that raises leaves no entry.  The user id never
    changes. *)
Theorem ledger_records_returned_calls (cs : list (string * call)) (self : Account) :
  user_id (run_calls cs self) = user_id self /\
  exists entries,
    transactions (run_calls cs self) = (transactions self ++ entries)%list /\
    Forall2 records (returned_calls cs self) entries.
Proof.
  revert self. induction cs as [|[now c] cs IH]; intros self; simpl.
  - split; [reflexivity|]. exists []. rewrite app_nil_r. split; [reflexivity|constructor].
  - destruct (IH (after now c self)) as (U & entries & E & F).
    unfold after in *.
    destruct (run_call_spec now c self) as [[e H]|[self' [H R]]]; rewrite H in *; simpl in *.
    + split; [exact U|]. exists entries. split; assumption.
    + destruct (returns_records now self c self' R) as (t & Et & Rt & Ut).
      split; [congruence|]. exists (t :: entries). split.
      * rewrite E, Et, <- app_assoc. reflexivity.
      * constructor; assumption.
Qed.

(** * A balance that is not a number *)

Lemma is_nan_spec (x : float) : is_nan x = true <-> Prim2SF x = S754_nan.
Proof.
  unfold is_nan. rewrite eqb_spec. unfold SFeqb.
  destruct (Prim2SF x) as [s|s| |s m e] eqn:E.
  - destruct s; simpl; split; discriminate.
  - destruct s; simpl; split; discriminate.
  - simpl. split; reflexivity.
  - split; [|discriminate]. unfold SFcompare.
    rewrite Z.compare_refl.
    change (Pos.compare_cont Eq m m) with (Pos.compare m m).
    rewrite Pos.compare_refl. destruct s; discriminate.
Qed.

Lemma nan_add_l (x y : float) : is_nan x = true -> is_nan (x + y) = true.
Proof.
  rewrite !is_nan_spec, add_spec. intros ->. reflexivity.
Qed.

Lemma nan_sub_l (x y : float) : is_nan x = true -> is_nan (x - y) = true.
Proof.
  rewrite !is_nan_spec, sub_spec. intros ->. reflexivity.
Qed.

Lemma nan_ltb_l (x y : float) : is_nan x = true -> (x <? y)%float = false.
Proof.
  rewrite is_nan_spec, ltb_spec. intros ->. reflexivity.
Qed.

Lemma nan_leb_r (x y : float) : is_nan y = true -> (x <=? y)%float = false.
Proof.
  rewrite is_nan_spec, leb_spec. intros ->. unfold SFleb, SFcompare.
  destruct (Prim2SF x); reflexivity.
Qed.

Lemma returns_nan (now : string) (self : Account) (c : call) (self' : Account) :
  is_nan (cash_balance self) = true ->
  returns now self c self' ->
  is_nan (cash_balance self') = true.
Proof.
  intros H R. returns_cases R; simpl;
    [apply nan_add_l|apply nan_sub_l|apply nan_sub_l|apply nan_add_l]; assumption.
Qed.

(** X10: a cash balance that is not a number stays so and stops no payment: from
    an account whose cash balance is a NaN, the balance is a NaN after any
    calls; every withdrawal of an amount that is not zero or less returns;
    and so does every purchase of a positive quantity of a priced symbol
    whose cost can be computed.  A deposit of a NaN is accepted, [nan <= 0]
    being false, and leaves such a balance. *)
Theorem nan_balance_is_absorbing (self : Account) :
  is_nan (cash_balance self) = true ->
  (forall cs, is_nan (cash_balance (run_calls cs self)) = true) /\
  (forall now amount,
      (amount <=? 0)%float = false ->
      withdraw now amount self = (withdrawn self now amount, Returned tt)) /\
  (forall now symbol quantity price total_cost,
      0 < quantity ->
      get_share_price symbol = Returned price ->
      mul_float_int price quantity = Returned total_cost ->
      buy_shares now symbol quantity self
      = (bought self now symbol quantity total_cost, Returned tt)) /\
  (forall now a,
      is_nan (cash_balance (after now (Deposit nan) a)) = true).
Proof.
  intros H. split; [|split; [|split]].
  - intros cs. apply (run_calls_invariant (fun a => is_nan (cash_balance a) = true)).
    + exact returns_nan.
    + assumption.
  - intros now amount Ha. rewrite withdraw_eq, Ha, sub_ltb_zero, nan_ltb_l by assumption.
    reflexivity.
  - intros now symbol quantity price total_cost Hq Hp Ht.
    rewrite buy_shares_eq, Hp, Ht, nan_ltb_l by assumption.
    replace (quantity <=? 0) with false by (symmetry; apply Z.leb_gt; assumption).
    reflexivity.
  - intros now a. unfold after, run_call. rewrite deposit_eq.
    change (nan <=? 0)%float with false. simpl.
    rewrite is_nan_spec, add_spec. change (Prim2SF nan) with S754_nan.
    unfold SF64add, SFadd. destruct (Prim2SF (cash_balance a)) as [s|s| |s m e];
      try destruct s; reflexivity.
Qed.

Lemma nan_balance_is_absorbing_witness :
  is_nan
    (cash_balance
       (run_calls [("t1", Withdraw 5); ("t2", Deposit 10)]
          (after "t0" (Deposit nan) (new_account "user123"))))
  = true.
Proof.
  apply (proj1 (nan_balance_is_absorbing
                  (after "t0" (Deposit nan) (new_account "user123")) eq_refl)).
Defined.

(** ** When the balance is a number *)

Lemma not_nan_spec (x : float) : is_nan x = false <-> Prim2SF x <> S754_nan.
Proof.
  split.
  - intros H E. apply is_nan_spec in E. congruence.
  - intros H. destruct (is_nan x) eqn:E; [|reflexivity].
    apply is_nan_spec in E. contradiction.
Qed.

Lemma binary_normalize_not_nan (m e : Z) (sz : bool) :
  binary_normalize prec emax m e sz <> S754_nan.
Proof.
  destruct m as [|p|p]; simpl; [discriminate| |];
    intros E; [pose proof (binary_round_sign false p e) as H
              |pose proof (binary_round_sign true p e) as H];
    rewrite E in H; exact H.
Qed.

Lemma add_finite_not_nan (x y : float) :
  is_finite x = true -> is_nan y = false -> is_nan (x + y) = false.
Proof.
  intros Hx Hy. apply is_finite_spec in Hx. apply not_nan_spec in Hy.
  apply not_nan_spec. rewrite add_spec.
  destruct (Prim2SF x) as [s1|s1| |s1 m1 e1]; try contradiction;
    destruct (Prim2SF y) as [s2|s2| |s2 m2 e2]; try congruence;
    try discriminate; try (destruct s1, s2; discriminate).
  apply binary_normalize_not_nan.
Qed.

Lemma sub_finite_not_nan (x y : float) :
  is_finite x = true -> is_nan y = false -> is_nan (x - y) = false.
Proof.
  intros Hx Hy. apply is_finite_spec in Hx. apply not_nan_spec in Hy.
  apply not_nan_spec. rewrite sub_spec.
  destruct (Prim2SF x) as [s1|s1| |s1 m1 e1]; try contradiction;
    destruct (Prim2SF y) as [s2|s2| |s2 m2 e2]; try congruence;
    try discriminate; try (destruct s1, s2; discriminate).
  apply binary_normalize_not_nan.
Qed.

Lemma plus_signed_not_nan (x : float) : plus_signed x -> is_nan x = false.
Proof.
  unfold plus_signed. intros H. apply not_nan_spec. intros E. rewrite E in H. exact H.
Qed.

Lemma not_negative_is_at_least_zero (x : float) :
  is_nan x = false -> (x <? 0)%float = false -> (0 <=? x)%float = true.
Proof.
  rewrite not_nan_spec, ltb_spec, leb_spec, Prim2SF_0. intros N L.
  unfold SFltb, SFleb, SFcompare in *.
  destruct (Prim2SF x) as [s|s| |s m e]; try congruence;
    destruct s; (reflexivity || discriminate).
Qed.

Lemma at_least_zero_or_nan (x : float) :
  (x <? 0)%float = false -> (0 <=? x)%float = true \/ is_nan x = true.
Proof.
  intros H. destruct (is_nan x) eqn:E; [right; reflexivity|left].
  apply not_negative_is_at_least_zero; assumption.
Qed.

Lemma returns_not_nan (now : string) (self : Account) (c : call) (self' : Account) :
  is_finite (cash_balance self) = true ->
  number_call c = true ->
  returns now self c self' ->
  is_nan (cash_balance self') = false.
Proof.
  intros Hf Hn R. returns_cases R; simpl in *.
  - apply add_finite_not_nan; [assumption|]. apply negb_true_iff. assumption.
  - apply sub_finite_not_nan; [assumption|]. apply negb_true_iff. assumption.
  - apply sub_finite_not_nan; [assumption|]. apply plus_signed_not_nan.
    apply (total_plus_signed s p q t Hp); [lia|assumption].
  - apply add_finite_not_nan; [assumption|]. apply plus_signed_not_nan.
    apply (total_plus_signed s p q t Hp); [lia|assumption].
Qed.

Lemma finite_not_nan (x : float) : is_finite x = true -> is_nan x = false.
Proof.
  unfold is_finite. destruct (is_nan x); [discriminate|reflexivity].
Qed.

(** Deposits of finite amounts that overflow to infinity, then a purchase
    whose cost is infinite too: every call returns, and the balance left,
    [inf - inf], is not at least zero. *)
Lemma cash_balance_counterexample :
  let cs := [("t0", Deposit 0x1p+1023); ("t1", Deposit 0x1p+1023);
             ("t2", BuyShares "AAPL" (2 ^ 1023))] in
  let self := run_calls cs (new_account "user123") in
  forallb
    (fun nc =>
       match snd nc with
       | Deposit amount | Withdraw amount => is_finite amount
       | _ => true
       end) cs = true /\
  List.length (transactions self) = List.length cs /\
  (0 <=? cash_balance self)%float = false /\
  is_nan (cash_balance self) = true.
Proof. vm_compute. repeat split. Qed.

(** C5, in the form the code satisfies: whatever deposits, withdrawals,
    purchases and sales are called on a fresh account, failed calls
    included, the cash balance is never below zero when a call ends; so it
    is at least zero unless it is a NaN; and a call on a finite balance
    whose amount, if it has one, is not a NaN leaves a balance that is at
    least zero.  (A NaN balance comes from a NaN amount or from an
    infinite balance only.) *)
Theorem cash_balance_never_negative (uid : string) (cs : list (string * call)) :
  let self := run_calls cs (new_account uid) in
  (cash_balance self <? 0)%float = false /\
  ((0 <=? cash_balance self)%float = true \/ is_nan (cash_balance self) = true) /\
  (forall now c,
      is_finite (cash_balance self) = true -> number_call c = true ->
      (0 <=? cash_balance (after now c self))%float = true).
Proof.
  intros self. pose proof (reachable_cash_not_negative uid cs) as H. fold self in H.
  split; [exact H|]. split; [apply at_least_zero_or_nan; exact H|].
  intros now c Hf Hn.
  destruct (after_cases now c self) as [E|R].
  - rewrite E. apply not_negative_is_at_least_zero; [apply finite_not_nan|]; assumption.
  - apply not_negative_is_at_least_zero.
    + exact (returns_not_nan now self c _ Hf Hn R).
    + exact (returns_cash_not_negative now self c _ H R).
Qed.

Lemma cash_balance_never_negative_witness :
  (0 <=? cash_balance
           (after "t1" (Withdraw 30)
              (run_calls [("t0", Deposit 100)] (new_account "user123"))))%float
  = true.
Proof.
  apply (proj2 (proj2 (cash_balance_never_negative "user123" [("t0", Deposit 100)]))
           "t1" (Withdraw 30));
    reflexivity.
Defined.

(** X19: a balance that is not a number is reached with finite arguments.
    Deposits that overflow leave an infinite balance; a purchase whose cost
    overflows too is accepted, [inf > inf] being false, and leaves
    [inf - inf].  That balance is not below zero, and not at least zero
    either; a purchase of one GOOGL share then returns, and so does every
    purchase of a positive quantity of a priced symbol whose cost can be
    computed. *)
Example nan_balance_reachable :
  let self :=
    run_calls [("t0", Deposit 0x1p+1023); ("t1", Deposit 0x1p+1023);
               ("t2", BuyShares "AAPL" (2 ^ 1023))]
      (new_account "user123") in
  cash_balance self = nan /\
  (cash_balance self <? 0)%float = false /\
  (0 <=? cash_balance self)%float = false /\
  is_returned (snd (buy_shares "t3" "GOOGL" 1 self)) = true /\
  (forall now symbol quantity price total_cost,
      0 < quantity ->
      get_share_price symbol = Returned price ->
      mul_float_int price quantity = Returned total_cost ->
      buy_shares now symbol quantity self
      = (bought self now symbol quantity total_cost, Returned tt)).
Proof.
  intros self.
  assert (E : cash_balance self = nan) by (vm_compute; reflexivity).
  split; [exact E|]. rewrite E.
  split; [reflexivity|]. split; [reflexivity|]. split; [vm_compute; reflexivity|].
  intros now symbol quantity price total_cost Hq Hp Ht.
  rewrite buy_shares_eq, Hp, Ht, E.
  replace (quantity <=? 0) with false by (symmetry; apply Z.leb_gt; assumption).
  rewrite (nan_ltb_l nan total_cost eq_refl). reflexivity.
Qed.

(** * Failures of a purchase *)

(** X8: a purchase checks, in this order: the quantity, which must be positive;
    the symbol, which must have a price; the quantity again, which must
    convert to a float for the cost to be computed; and the cash balance,
    which must not be below the cost.  The first check that fails decides
    the exception, and the account stays as it was. *)
Theorem buy_shares_failures (now symbol : string) (quantity : Z) (self : Account) :
  (quantity <= 0 ->
   buy_shares now symbol quantity self = (self, Raised quantity_not_positive)) /\
  (0 < quantity -> ~ In symbol catalog ->
   buy_shares now symbol quantity self = (self, Raised unsupported_symbol)) /\
  (0 < quantity -> In symbol catalog -> float_of_int quantity = None ->
   buy_shares now symbol quantity self = (self, Raised int_too_large)) /\
  (forall price total_cost,
      0 < quantity ->
      get_share_price symbol = Returned price ->
      mul_float_int price quantity = Returned total_cost ->
      (cash_balance self <? total_cost)%float = true ->
      buy_shares now symbol quantity self = (self, Raised insufficient_funds)).
Proof.
  rewrite buy_shares_eq. split; [|split; [|split]].
  - intros H. apply Z.leb_le in H. rewrite H. reflexivity.
  - intros Hq Hn. apply Z.leb_gt in Hq. rewrite Hq.
    destruct (get_share_price_cases symbol) as [[E _]|[[E _]|[[E _]|[_ H]]]];
      try (exfalso; apply Hn; rewrite E; unfold catalog; simpl; tauto).
    rewrite H. reflexivity.
  - intros Hq Hc Hf. apply Z.leb_gt in Hq. rewrite Hq.
    apply get_share_price_in_catalog in Hc.
    destruct (get_share_price symbol) as [p|e]; [|discriminate Hc].
    unfold mul_float_int. rewrite Hf. reflexivity.
  - intros price total_cost Hq Hp Ht Hc. apply Z.leb_gt in Hq.
    rewrite Hq, Hp, Ht, Hc. reflexivity.
Qed.

(** * Whole numbers below 2^53 *)

Lemma valid_digits (s : bool) (m : positive) (e : Z) :
  valid_binary (S754_finite s m e) = true ->
  Zpos (digits2_pos m) <= prec /\ (emin < e -> Zpos (digits2_pos m) = prec).
Proof.
  intros V. apply valid_finite_inv in V. destruct V as [C _].
  unfold fexp, SpecFloat.emin, prec, emax in *. lia.
Qed.

Lemma valid_mantissa_bounds (s : bool) (m : positive) (e : Z) :
  valid_binary (S754_finite s m e) = true ->
  Zpos m < 2 ^ 53 /\ (emin < e -> 2 ^ 52 <= Zpos m).
Proof.
  intros V. destruct (valid_digits s m e V) as [D1 D2].
  pose proof (digits_bounds m) as [L U]. split.
  - eapply Z.lt_le_trans; [exact U|]. apply Z.pow_le_mono_r; unfold prec in D1; lia.
  - intros He. rewrite (D2 He) in L. exact L.
Qed.

Lemma whole_exponent (m : positive) (e n : Z) :
  valid_binary (S754_finite false m e) = true ->
  whole (S754_finite false m e) n ->
  -52 <= e <= 0 /\ Zpos m = n * 2 ^ (- e).
Proof.
  intros V [[Hn0 Hn] H].
  pose proof (valid_finite_emin _ _ _ V) as He.
  assert (L : -52 <= e).
  { apply (positive_integer_exponent m e V). exists n. rewrite H. reflexivity. }
  destruct (valid_mantissa_bounds false m e V) as [U N].
  assert (Hle : e <= 0).
  { destruct (Z_le_gt_dec e 0) as [|G]; [assumption|]. exfalso.
    specialize (N ltac:(unfold SpecFloat.emin, prec, emax; lia)).
    rewrite (pow2_split e 0 emin) in H by (unfold SpecFloat.emin, prec, emax; lia).
    rewrite Z.mul_assoc in H.
    assert (P : 0 < 2 ^ (0 - emin)) by (apply Z.pow_pos_nonneg; unfold SpecFloat.emin, prec, emax; lia).
    apply Z.mul_cancel_r in H; [|lia].
    assert (2 <= 2 ^ (e - 0)) by (apply (Z.pow_le_mono_r 2 1); lia).
    change (2 ^ 52) with 4503599627370496 in N. change (2 ^ 53) with 9007199254740992 in Hn.
    nia. }
  split; [lia|].
  rewrite (pow2_split 0 e emin) in H by (unfold SpecFloat.emin, prec, emax in *; lia).
  rewrite Z.mul_assoc in H.
  assert (P : 0 < 2 ^ (e - emin))
    by (apply Z.pow_pos_nonneg; unfold SpecFloat.emin, prec, emax in *; lia).
  apply Z.mul_cancel_r in H; [|lia]. rewrite H. f_equal.
Qed.

Lemma dollars_whole (x : float) (n : Z) :
  dollars x = Some n <-> whole (Prim2SF x) n.
Proof.
  unfold dollars. pose proof (Prim2SF_valid x) as V.
  destruct (Prim2SF x) as [s|s| |s m e].
  - destruct s; simpl; split; try discriminate; try tauto.
    + intros H. injection H as <-. reflexivity.
    + intros ->. reflexivity.
  - simpl. split; [discriminate|tauto].
  - simpl. split; [discriminate|tauto].
  - destruct s; [simpl; split; [discriminate|tauto]|].
    split.
    + destruct (Z.leb_spec e 0) as [He|He]; cbn [andb]; [|discriminate].
      destruct (Z.eqb_spec (Zpos m mod 2 ^ (- e)) 0) as [Hm|Hm]; [|discriminate].
      intros H. injection H as <-.
      assert (P : 0 < 2 ^ (- e)) by (apply Z.pow_pos_nonneg; lia).
      pose proof (Z.div_mod (Zpos m) (2 ^ (- e)) ltac:(lia)) as DM. rewrite Hm in DM.
      destruct (valid_mantissa_bounds false m e V) as [U _].
      pose proof (valid_finite_emin _ _ _ V) as Hemin.
      set (n := Zpos m / 2 ^ (- e)) in *.
      assert (0 < n) by nia.
      split; [split; [assumption|nia]|].
      rewrite (pow2_split 0 e emin) by (unfold SpecFloat.emin, prec, emax in *; lia).
      rewrite Z.mul_assoc. f_equal. replace (0 - e) with (- e) by lia. lia.
    + intros W. destruct (whole_exponent m e n V W) as [[L Hle] Hm].
      apply Z.leb_le in Hle. rewrite Hle. cbn [andb].
      assert (P : 0 < 2 ^ (- e)) by (apply Z.pow_pos_nonneg; lia).
      rewrite Hm, Z.mod_mul, Z.div_mul by lia. reflexivity.
Qed.

Lemma finite_is_finite (x : float) (s : bool) (m : positive) (e : Z) :
  Prim2SF x = S754_finite s m e -> is_finite x = true.
Proof.
  intros P. unfold is_finite.
  assert (N : is_nan x = false).
  { destruct (is_nan x) eqn:E; [|reflexivity].
    apply is_nan_spec in E. congruence. }
  rewrite N. unfold is_infinity. rewrite eqb_spec, abs_spec, P. reflexivity.
Qed.

Lemma dollars_bounds (x : float) (n : Z) : dollars x = Some n -> 0 <= n < 2 ^ 53.
Proof.
  rewrite dollars_whole. destruct (Prim2SF x) as [s|s| |s m e]; simpl; try tauto.
  - destruct s; [tauto|]. intros ->. split; [lia|reflexivity].
  - destruct s; [tauto|]. intros [H _]. lia.
Qed.

Lemma dollars_zero (x : float) : dollars x = Some 0 -> x = 0%float.
Proof.
  rewrite dollars_whole. intros W. apply Prim2SF_inj. rewrite Prim2SF_0.
  destruct (Prim2SF x) as [s|s| |s m e]; simpl in W; try tauto.
  - destruct s; [tauto|reflexivity].
  - destruct s; [tauto|]. lia.
Qed.

Lemma dollars_positive (x : float) (n : Z) :
  dollars x = Some n -> 0 < n ->
  exists m e, Prim2SF x = S754_finite false m e /\
              valid_binary (S754_finite false m e) = true /\
              Zpos m * 2 ^ (e - emin) = n * 2 ^ (0 - emin).
Proof.
  rewrite dollars_whole. intros W Hn. pose proof (Prim2SF_valid x) as V.
  destruct (Prim2SF x) as [s|s| |s m e]; simpl in W; try tauto.
  - destruct s; [tauto|]. lia.
  - destruct s; [tauto|]. exists m, e. split; [reflexivity|]. split; [exact V|tauto].
Qed.

(** A float is determined by the whole number it is. *)
Lemma dollars_inj (x y : float) (n : Z) :
  dollars x = Some n -> dollars y = Some n -> x = y.
Proof.
  intros Hx Hy. destruct (Z.eq_dec n 0) as [->|N].
  - rewrite (dollars_zero x Hx), (dollars_zero y Hy). reflexivity.
  - pose proof (dollars_bounds x n Hx) as B.
    destruct (dollars_positive x n Hx ltac:(lia)) as (mx & ex & Px & Vx & Ex).
    destruct (dollars_positive y n Hy ltac:(lia)) as (my & ey & Py & Vy & Ey).
    apply Prim2SF_inj. rewrite Px, Py.
    destruct (canonical_unique mx my ex ey Vx Vy ltac:(congruence)) as [-> ->].
    reflexivity.
Qed.

(** Every positive whole number below [2^53] is a float. *)
Lemma whole_representable (n : Z) :
  0 < n < 2 ^ 53 ->
  exists m e, valid_binary (S754_finite false m e) = true /\
              whole (S754_finite false m e) n.
Proof.
  intros Hn. destruct n as [|p|p]; try lia.
  assert (D : Zpos (digits2_pos p) <= prec).
  { pose proof (digits_bounds p) as [L _].
    destruct (Z_le_gt_dec (Zpos (digits2_pos p)) prec) as [|G]; [assumption|exfalso].
    assert (2 ^ 53 <= 2 ^ (Zpos (digits2_pos p) - 1))
      by (apply Z.pow_le_mono_r; unfold prec in G; lia).
    lia. }
  destruct (representable_multiple p 0 ltac:(unfold SpecFloat.emin, prec, emax; lia)
              ltac:(unfold prec, emax; lia) D) as (m & e & V & E).
  exists m, e. split; [exact V|]. simpl. split; [lia|exact E].
Qed.

Lemma whole_is_dollars (x : float) (m : positive) (e n : Z) :
  Prim2SF x = S754_finite false m e -> whole (S754_finite false m e) n ->
  dollars x = Some n.
Proof. intros P W. apply dollars_whole. rewrite P. exact W. Qed.

Lemma dollars_add (x y : float) (a b : Z) :
  dollars x = Some a -> dollars y = Some b -> a + b < 2 ^ 53 ->
  dollars (x + y) = Some (a + b).
Proof.
  intros Hx Hy Hs.
  pose proof (dollars_bounds x a Hx) as Ba. pose proof (dollars_bounds y b Hy) as Bb.
  destruct (Z.eq_dec a 0) as [->|Na].
  { rewrite (dollars_zero x Hx). apply dollars_whole. rewrite add_spec, Prim2SF_0.
    apply dollars_whole in Hy. rewrite Z.add_0_l.
    destruct (Prim2SF y) as [s|s| |s m e]; try destruct s; simpl in Hy; try tauto;
      exact Hy. }
  destruct (Z.eq_dec b 0) as [->|Nb].
  { rewrite (dollars_zero y Hy). apply dollars_whole. rewrite add_spec, Prim2SF_0.
    apply dollars_whole in Hx. rewrite Z.add_0_r.
    destruct (Prim2SF x) as [s|s| |s m e]; try destruct s; simpl in Hx; try tauto;
      exact Hx. }
  destruct (dollars_positive x a Hx ltac:(lia)) as (mx & ex & Px & Vx & Ex).
  destruct (dollars_positive y b Hy ltac:(lia)) as (my & ey & Py & Vy & Ey).
  destruct (whole_representable (a + b) ltac:(lia)) as (mz & ez & Vz & Wz).
  apply dollars_whole. rewrite add_spec, Px, Py.
  rewrite (SFadd_exact false false false mx my mz ex ey ez Vx Vy Vz).
  - exact Wz.
  - unfold cond_Zopp. destruct Wz as [_ Wz]. rewrite Ex, Ey, Wz. ring.
Qed.

Lemma dollars_sub (x y : float) (a b : Z) :
  dollars x = Some a -> dollars y = Some b -> b <= a ->
  dollars (x - y) = Some (a - b).
Proof.
  intros Hx Hy Hs.
  pose proof (dollars_bounds x a Hx) as Ba. pose proof (dollars_bounds y b Hy) as Bb.
  destruct (Z.eq_dec b 0) as [->|Nb].
  { rewrite (dollars_zero y Hy), sub_zero_r, Z.sub_0_r. exact Hx. }
  destruct (Z.eq_dec a b) as [->|Nab].
  { rewrite (dollars_inj x y b Hx Hy), Z.sub_diag.
    rewrite sub_diag_finite; [reflexivity|].
    destruct (dollars_positive y b Hy ltac:(lia)) as (my & ey & Py & _).
    exact (finite_is_finite y false my ey Py). }
  destruct (dollars_positive x a Hx ltac:(lia)) as (mx & ex & Px & Vx & Ex).
  destruct (dollars_positive y b Hy ltac:(lia)) as (my & ey & Py & Vy & Ey).
  destruct (whole_representable (a - b) ltac:(lia)) as (mz & ez & Vz & Wz).
  apply dollars_whole. rewrite sub_spec, Px, Py.
  rewrite (SFsub_exact false false false mx my mz ex ey ez Vx Vy Vz).
  - exact Wz.
  - unfold cond_Zopp. destruct Wz as [_ Wz]. rewrite Ex, Ey, Wz. ring.
Qed.

Lemma dollars_ltb (x y : float) (a b : Z) :
  dollars x = Some a -> dollars y = Some b -> (x <? y)%float = (a <? b).
Proof.
  intros Hx Hy.
  pose proof (dollars_bounds x a Hx) as Ba. pose proof (dollars_bounds y b Hy) as Bb.
  rewrite ltb_spec.
  destruct (Z.eq_dec a 0) as [->|Na].
  { rewrite (dollars_zero x Hx), Prim2SF_0.
    destruct (Z.eq_dec b 0) as [->|Nb].
    - rewrite (dollars_zero y Hy), Prim2SF_0. reflexivity.
    - destruct (dollars_positive y b Hy ltac:(lia)) as (my & ey & Py & _).
      rewrite Py. simpl. symmetry. apply Z.ltb_lt. lia. }
  destruct (dollars_positive x a Hx ltac:(lia)) as (mx & ex & Px & Vx & Ex).
  destruct (Z.eq_dec b 0) as [->|Nb].
  { rewrite (dollars_zero y Hy), Prim2SF_0, Px. simpl. symmetry. apply Z.ltb_ge. lia. }
  destruct (dollars_positive y b Hy ltac:(lia)) as (my & ey & Py & Vy & Ey).
  rewrite Px, Py. unfold SFltb. rewrite (SFcompare_finite _ _ _ _ _ _ Vx Vy).
  pose proof (valid_finite_emin _ _ _ Vx) as Lx.
  pose proof (valid_finite_emin _ _ _ Vy) as Ly.
  pose proof (aligned_units false mx ex (Z.min ex ey) ltac:(lia) ltac:(lia)) as A1.
  pose proof (aligned_units false my ey (Z.min ex ey) ltac:(lia) ltac:(lia)) as A2.
  unfold cond_Zopp in A1, A2. rewrite Ex in A1. rewrite Ey in A2.
  assert (P1 : 0 < 2 ^ (Z.min ex ey - emin)) by (apply Z.pow_pos_nonneg; lia).
  assert (P2 : 0 < 2 ^ (0 - emin))
    by (apply Z.pow_pos_nonneg; unfold SpecFloat.emin, prec, emax; lia).
  set (u := aligned false mx ex (Z.min ex ey)) in *.
  set (v := aligned false my ey (Z.min ex ey)) in *.
  clearbody u v.
  destruct (Z.compare_spec u v) as [E|E|E]; symmetry.
  - apply Z.ltb_ge. subst v. nia.
  - apply Z.ltb_lt. nia.
  - apply Z.ltb_ge. nia.
Qed.

(** The float of a positive int below [2^53] is that int. *)
Lemma float_of_int_exact (q : Z) :
  0 < q < 2 ^ 53 -> exists y, float_of_int q = Some y /\ dollars y = Some q.
Proof.
  intros Hq. destruct (whole_representable q Hq) as (mz & ez & Vz & Wz).
  destruct (whole_exponent mz ez q Vz Wz) as [[L U] Hm].
  destruct (valid_finite_inv _ _ _ Vz) as [C B].
  unfold float_of_int. replace (Z.abs q) with q by lia.
  assert (Hlog : Z.log2 q < 53) by (apply Z.log2_lt_pow2; lia).
  replace (Z.max 0 (Z.log2 q + 1 - 62)) with 0 by lia.
  rewrite Z.shiftr_0_r. change (Z.ones 0) with 0. rewrite Z.land_0_r. simpl (0 =? 0).
  cbv iota. rewrite Z.lor_0_r.
  replace (q <? 0) with false by (symmetry; apply Z.ltb_ge; lia).
  set (y := Z.ldexp (of_uint63 (of_Z q)) 0).
  assert (Hy : Prim2SF y = S754_finite false mz ez).
  { unfold y. rewrite Z_ldexp_spec, of_uint63_spec, Uint63.of_Z_spec.
    rewrite Z.mod_small by (change wB with (2 ^ 63); change (2 ^ 53) with 9007199254740992 in Hq;
                            change (2 ^ 63) with 9223372036854775808; lia).
    destruct q as [|Q|Q]; try lia. unfold binary_normalize.
    rewrite (binary_round_exact false Q mz 0 ez C B).
    - unfold SFldexp. apply (binary_round_exact false mz mz (ez + 0) ez C B).
      left. split; [lia|]. replace (ez - (ez + 0)) with 0 by lia. lia.
    - right. split; [lia|]. rewrite Hm. replace (0 - ez) with (- ez) by lia. reflexivity. }
  assert (Hinf : is_infinity y = false).
  { unfold is_infinity. rewrite eqb_spec, abs_spec, Hy. reflexivity. }
  rewrite Hinf. exists y. split; [reflexivity|].
  apply dollars_whole. rewrite Hy. exact Wz.
Qed.

Lemma whole_normal (m : positive) (e n : Z) :
  valid_binary (S754_finite false m e) = true ->
  whole (S754_finite false m e) n ->
  Zpos (digits2_pos m) = prec /\ 2 ^ 52 <= Zpos m.
Proof.
  intros V W. destruct (whole_exponent m e n V W) as [[L U] _].
  destruct (valid_digits false m e V) as [_ D].
  destruct (valid_mantissa_bounds false m e V) as [_ N].
  split; [apply D|apply N]; unfold SpecFloat.emin, prec, emax; lia.
Qed.

(** The product of two whole numbers, when it is below [2^53], is computed
    without rounding. *)
Lemma dollars_mul (x y : float) (a b : Z) :
  dollars x = Some a -> dollars y = Some b -> 0 < a -> 0 < b -> a * b < 2 ^ 53 ->
  dollars (x * y) = Some (a * b).
Proof.
  intros Hx Hy Ha Hb Hs.
  destruct (dollars_positive x a Hx Ha) as (mx & ex & Px & Vx & Ex).
  destruct (dollars_positive y b Hy Hb) as (my & ey & Py & Vy & Ey).
  pose proof (dollars_bounds x a Hx) as Ba. pose proof (dollars_bounds y b Hy) as Bb.
  assert (Wx : whole (S754_finite false mx ex) a) by (simpl; split; [lia|exact Ex]).
  assert (Wy : whole (S754_finite false my ey) b) by (simpl; split; [lia|exact Ey]).
  destruct (whole_exponent mx ex a Vx Wx) as [[Lx Ux] Mx].
  destruct (whole_exponent my ey b Vy Wy) as [[Ly Uy] My].
  destruct (whole_normal mx ex a Vx Wx) as [_ Nx].
  destruct (whole_normal my ey b Vy Wy) as [_ Ny].
  destruct (whole_representable (a * b) ltac:(nia)) as (mz & ez & Vz & Wz).
  destruct (whole_exponent mz ez (a * b) Vz Wz) as [[Lz Uz] Mz].
  destruct (valid_finite_inv _ _ _ Vz) as [C B].
  destruct (valid_mantissa_bounds false mz ez Vz) as [Bz _].
  apply dollars_whole. rewrite mul_spec, Px, Py. unfold SF64mul, SFmul. simpl xorb.
  assert (Hprod : Zpos (mx * my) = a * b * 2 ^ (- (ex + ey))).
  { rewrite Pos2Z.inj_mul, Mx, My.
    replace (- (ex + ey)) with (- ex + - ey) by lia. rewrite Z.pow_add_r by lia. ring. }
  assert (Hee : ex + ey <= ez).
  { destruct (Z_le_gt_dec (ex + ey) ez) as [|G]; [assumption|exfalso].
    assert (2 ^ 52 * 2 ^ 52 <= Zpos (mx * my)) by (rewrite Pos2Z.inj_mul; nia).
    assert (Q : 2 ^ (- (ex + ey)) <= 2 ^ (- ez)) by (apply Z.pow_le_mono_r; lia).
    assert (Zpos (mx * my) <= Zpos mz) by (rewrite Hprod, Mz; nia).
    change (2 ^ 52) with 4503599627370496 in *. change (2 ^ 53) with 9007199254740992 in *.
    lia. }
  rewrite (binary_round_aux_exact false (mx * my) mz (ex + ey) ez C B Hee).
  - exact Wz.
  - rewrite Hprod, Mz. rewrite <- (Z.mul_assoc (a * b)).
    rewrite <- Z.pow_add_r by lia. f_equal. f_equal. lia.
Qed.

(** A finite float with a positive exponent is above every whole number
    below [2^53]. *)
Lemma big_exponent_above (x t : float) (c : Z) (mt : positive) (et : Z) :
  dollars x = Some c ->
  Prim2SF t = S754_finite false mt et -> 1 <= et ->
  (x <? t)%float = true.
Proof.
  intros Hx Pt Het. pose proof (Prim2SF_valid t) as Vt. rewrite Pt in Vt.
  pose proof (dollars_bounds x c Hx) as Bc. rewrite ltb_spec, Pt.
  destruct (Z.eq_dec c 0) as [->|Nc].
  { rewrite (dollars_zero x Hx), Prim2SF_0. reflexivity. }
  destruct (dollars_positive x c Hx ltac:(lia)) as (mx & ex & Px & Vx & Ex).
  assert (Wx : whole (S754_finite false mx ex) c) by (simpl; split; [lia|exact Ex]).
  destruct (whole_exponent mx ex c Vx Wx) as [[Lx Ux] Mx].
  destruct (valid_mantissa_bounds false mt et Vt) as [_ Nt].
  specialize (Nt ltac:(unfold SpecFloat.emin, prec, emax; lia)).
  destruct (valid_mantissa_bounds false mx ex Vx) as [Bx _].
  rewrite Px. unfold SFltb. rewrite (SFcompare_finite _ _ _ _ _ _ Vx Vt).
  rewrite Z.min_l, !aligned_spec by lia. unfold cond_Zopp.
  rewrite Z.sub_diag, Z.pow_0_r, Z.mul_1_r.
  assert (2 <= 2 ^ (et - ex)) by (apply (Z.pow_le_mono_r 2 1); lia).
  destruct (Z.compare_spec (Zpos mx) (Zpos mt * 2 ^ (et - ex))) as [E|E|E];
    [exfalso|reflexivity|exfalso];
    change (2 ^ 52) with 4503599627370496 in *; change (2 ^ 53) with 9007199254740992 in *;
    nia.
Qed.

(** A positive whole number with an exponent that is not positive is below
    [2^53]. *)
Lemma positive_integer_small (m : positive) (e : Z) :
  valid_binary (S754_finite false m e) = true ->
  positive_integer (S754_finite false m e) ->
  e <= 0 ->
  exists n, whole (S754_finite false m e) n.
Proof.
  intros V (m' & e' & E & [j Hj]) He. injection E as <- <-.
  pose proof (valid_finite_emin _ _ _ V) as Lm.
  destruct (valid_mantissa_bounds false m e V) as [B _].
  assert (P : 0 < 2 ^ (0 - emin))
    by (apply Z.pow_pos_nonneg; unfold SpecFloat.emin, prec, emax; lia).
  assert (P' : 0 < 2 ^ (e - emin)) by (apply Z.pow_pos_nonneg; lia).
  assert (Q : 1 <= 2 ^ (0 - e)) by (apply (Z.pow_le_mono_r 2 0); lia).
  pose proof Hj as Hj'.
  rewrite (pow2_split 0 e emin) in Hj' by lia.
  rewrite Z.mul_assoc in Hj'. apply Z.mul_cancel_r in Hj'; [|lia].
  exists j. simpl. split; [|exact Hj].
  change (2 ^ 53) with 9007199254740992 in *. nia.
Qed.

(** The float of an int of [2^53] or more has a positive exponent. *)
Lemma float_of_int_big (q : Z) (y : float) :
  2 ^ 53 <= q -> float_of_int q = Some y ->
  exists m e, Prim2SF y = S754_finite false m e /\ 1 <= e.
Proof.
  intros Hq. assert (Hq1 : 1 <= q) by (change (2 ^ 53) with 9007199254740992 in Hq; lia).
  unfold float_of_int. replace (Z.abs q) with q by lia.
  pose proof (float_of_int_top_bits q Hq1) as Hm. cbv zeta in Hm.
  set (sh := Z.max 0 (Z.log2 q + 1 - 62)) in *.
  set (sticky := if Z.land q (Z.ones sh) =? 0 then 0 else 1) in *.
  assert (Hsh : 0 <= sh) by (unfold sh; lia).
  assert (Hs : 0 <= sticky) by (unfold sticky; destruct (_ =? 0); lia).
  assert (Hlq : 53 <= Z.log2 q).
  { rewrite <- (Z.log2_pow2 53) by lia. apply Z.log2_le_mono. exact Hq. }
  assert (Hlog : 53 <= Z.log2 (Z.lor (Z.shiftr q sh) sticky)).
  { rewrite Z.log2_lor by (try apply Z.shiftr_nonneg; lia).
    rewrite Z.log2_shiftr by lia. unfold sh. lia. }
  set (m := Z.lor (Z.shiftr q sh) sticky) in *.
  destruct (is_infinity _) eqn:Einf; [discriminate|].
  replace (q <? 0) with false by (symmetry; apply Z.ltb_ge; lia).
  intros H. injection H as <-.
  set (y := Z.ldexp (of_uint63 (of_Z m)) sh) in *.
  assert (Hy : Prim2SF y = SFldexp prec emax (Prim2SF (of_uint63 (of_Z m))) sh)
    by apply Z_ldexp_spec.
  pose proof (Prim2SF_valid (of_uint63 (of_Z m))) as V0.
  rewrite of_uint63_spec, Uint63.of_Z_spec in Hy, V0.
  rewrite Z.mod_small in Hy, V0 by (change wB with (2 ^ 63); lia).
  destruct m as [|M|M]; try lia.
  unfold binary_normalize in Hy, V0.
  assert (HD : 54 <= Zpos (digits2_pos M)).
  { change (Zpos (digits2_pos M)) with (Zdigits2 (Zpos M)). rewrite Zdigits2_log2. lia. }
  pose proof (binary_round_lower false M 0 ltac:(unfold SpecFloat.emin, prec, emax; lia)) as L0.
  cbv zeta in L0.
  destruct L0 as [H0|(m0 & e0 & H0 & He0 & _)]; rewrite H0 in Hy, V0.
  - simpl in Hy. rewrite (is_infinity_spec y false Hy) in Einf. discriminate.
  - assert (He1 : 1 <= e0) by (unfold fexp, SpecFloat.emin, prec, emax in He0; lia).
    destruct (valid_digits false m0 e0 V0) as [_ D0].
    specialize (D0 ltac:(unfold SpecFloat.emin, prec, emax; lia)).
    unfold SFldexp in Hy.
    pose proof (binary_round_lower false m0 (e0 + sh)
                  ltac:(unfold SpecFloat.emin, prec, emax; lia)) as L1.
    cbv zeta in L1.
    destruct L1 as [H1|(m1 & e1 & H1 & He1' & _)]; rewrite H1 in Hy.
    + rewrite (is_infinity_spec y false Hy) in Einf. discriminate.
    + exists m1, e1. split; [exact Hy|].
      rewrite D0 in He1'. unfold fexp, SpecFloat.emin, prec, emax in He1'. lia.
Qed.

(** If a product of a whole number by a positive whole float is a whole
    number below [2^53], the second factor is below [2^53] too, and the
    product of the two numbers is as well. *)
Lemma mul_small (p y : float) (P T : Z) :
  dollars p = Some P -> 0 < P ->
  positive_integer (Prim2SF y) ->
  dollars (p * y) = Some T ->
  exists Y, dollars y = Some Y /\ 0 < Y /\ P * Y < 2 ^ 53.
Proof.
  intros Hp HP Iy Ht.
  destruct (dollars_positive p P Hp HP) as (mp & ep & Pp & Vp & Ep).
  pose proof (dollars_bounds p P Hp) as Bp.
  assert (Wp : whole (S754_finite false mp ep) P) by (simpl; split; [lia|exact Ep]).
  destruct (whole_exponent mp ep P Vp Wp) as [[Lp Up] Mp].
  destruct (whole_normal mp ep P Vp Wp) as [Dp Np].
  pose proof Iy as Iy'. destruct Iy' as (my & ey & Py & Dy).
  pose proof (Prim2SF_valid y) as Vy. rewrite Py in Vy.
  pose proof (positive_integer_exponent my ey Vy Dy) as Ly.
  destruct (valid_digits false my ey Vy) as [_ Ddy].
  specialize (Ddy ltac:(unfold SpecFloat.emin, prec, emax; lia)).
  destruct (valid_mantissa_bounds false my ey Vy) as [_ Ny].
  specialize (Ny ltac:(unfold SpecFloat.emin, prec, emax; lia)).
  pose proof (Prim2SF_valid (p * y)) as Vt.
  apply dollars_whole in Ht. rewrite mul_spec, Pp, Py in Ht, Vt.
  unfold SF64mul, SFmul in Ht, Vt. simpl xorb in Ht, Vt.
  pose proof (binary_round_aux_lower false (mp * my) (ep + ey) loc_Exact
                ltac:(unfold SpecFloat.emin, prec, emax; lia)) as L.
  cbv zeta in L.
  assert (HD : 105 <= Zpos (digits2_pos (mp * my))).
  { assert (Hs : Zpos (my * 4503599627370496) = Zpos my * 2 ^ 52) by reflexivity.
    pose proof (digits_shift my 52 (my * 4503599627370496) ltac:(lia) Hs) as D1.
    assert (Hle : Zpos (my * 4503599627370496) <= Zpos (mp * my)).
    { rewrite !Pos2Z.inj_mul. change (2 ^ 52) with 4503599627370496 in Np. nia. }
    apply digits_le in Hle. unfold prec in Ddy. lia. }
  destruct L as [H|(mr & er & H & He & _)]; rewrite H in Ht, Vt; [simpl in Ht; tauto|].
  destruct (whole_exponent mr er T Vt Ht) as [[_ Ur] _].
  assert (Hsum : Zpos (digits2_pos (mp * my)) + (ep + ey) <= 53).
  { unfold fexp, SpecFloat.emin, prec, emax in He. lia. }
  assert (Hey : ey <= 0) by lia.
  destruct (positive_integer_small my ey Vy ltac:(rewrite <- Py; exact Iy) Hey) as [Y Wy].
  destruct (whole_exponent my ey Y Vy Wy) as [_ My].
  exists Y. split; [apply dollars_whole; rewrite Py; exact Wy|].
  destruct Wy as [[HY0 _] _]. split; [exact HY0|].
  pose proof (digits_bounds (mp * my)) as [_ UM].
  assert (Hpow : 2 ^ Zpos (digits2_pos (mp * my)) <= 2 ^ (53 - (ep + ey)))
    by (apply Z.pow_le_mono_r; lia).
  assert (Hprod : Zpos (mp * my) = P * Y * 2 ^ (- (ep + ey))).
  { rewrite Pos2Z.inj_mul, Mp, My.
    replace (- (ep + ey)) with (- ep + - ey) by lia. rewrite Z.pow_add_r by lia. ring. }
  replace (53 - (ep + ey)) with (53 + - (ep + ey)) in Hpow by lia.
  rewrite Z.pow_add_r in Hpow by lia.
  assert (Q : 0 < 2 ^ (- (ep + ey))) by (apply Z.pow_pos_nonneg; lia).
  nia.
Qed.

Lemma price_is_whole (symbol : string) (price : float) :
  get_share_price symbol = Returned price ->
  dollars price = Some (price_dollars symbol) /\ 150 <= price_dollars symbol <= 2800.
Proof.
  unfold price_dollars.
  destruct (get_share_price_cases symbol) as [[_ H]|[[_ H]|[[_ H]|[_ H]]]];
    rewrite H; intros E; inversion E; subst price; vm_compute; repeat split; discriminate.
Qed.

Lemma unpriced_dollars (symbol : string) :
  ~ In symbol catalog -> price_dollars symbol = 0.
Proof.
  intros N. unfold price_dollars.
  destruct (get_share_price symbol) as [p|e] eqn:E; [|reflexivity].
  exfalso. apply N. apply get_share_price_in_catalog. rewrite E. reflexivity.
Qed.

(** A purchase that a whole balance below [2^53] can pay costs exactly the
    price times the quantity. *)
Lemma purchase_exact (symbol : string) (price : float) (quantity : Z)
    (total cash : float) (c : Z) :
  get_share_price symbol = Returned price ->
  0 < quantity ->
  mul_float_int price quantity = Returned total ->
  dollars cash = Some c ->
  (cash <? total)%float = false ->
  dollars total = Some (quantity * price_dollars symbol) /\
  quantity * price_dollars symbol <= c.
Proof.
  intros Hp Hq Ht Hc Hlt.
  destruct (price_is_whole symbol price Hp) as [Dp Bp].
  set (P := price_dollars symbol) in *.
  assert (Hw : exists T, dollars total = Some T).
  { destruct (total_positive_integer symbol price quantity total Hp ltac:(lia) Ht)
      as [Hinf|Hint].
    - exfalso. rewrite ltb_spec, Hinf in Hlt. apply dollars_whole in Hc.
      destruct (Prim2SF cash) as [s|s| |s m e]; try destruct s; simpl in Hc, Hlt;
        try tauto; discriminate.
    - pose proof Hint as (mt & et & Pt & Dt).
      pose proof (Prim2SF_valid total) as Vt. rewrite Pt in Vt.
      destruct (Z_le_gt_dec et 0) as [Le|G].
      + rewrite Pt in Hint. destruct (positive_integer_small mt et Vt Hint Le) as [T WT].
        exists T. apply dollars_whole. rewrite Pt. exact WT.
      + exfalso. rewrite (big_exponent_above cash total c mt et Hc Pt ltac:(lia)) in Hlt.
        discriminate. }
  destruct Hw as [T HT].
  unfold mul_float_int in Ht. destruct (float_of_int quantity) as [y|] eqn:Ey; [|discriminate].
  injection Ht as <-.
  pose proof (float_of_int_positive_integer quantity y ltac:(lia) Ey) as Iy.
  destruct (mul_small price y P T Dp ltac:(lia) Iy HT) as (Y & HY & HY0 & HPY).
  assert (HYq : Y = quantity).
  { destruct (Z_lt_ge_dec quantity (2 ^ 53)) as [Lq|Gq].
    - destruct (float_of_int_exact quantity ltac:(lia)) as (y' & Ey' & Dy').
      rewrite Ey in Ey'. injection Ey' as <-. congruence.
    - exfalso. destruct (float_of_int_big quantity y ltac:(lia) Ey) as (m & e & Py & He).
      apply dollars_whole in HY. rewrite Py in HY.
      pose proof (Prim2SF_valid y) as Vy. rewrite Py in Vy.
      destruct (whole_exponent m e Y Vy HY) as [[_ U] _]. lia. }
  subst Y.
  assert (Dt : dollars (price * y) = Some (quantity * P)).
  { rewrite (Z.mul_comm quantity P). apply dollars_mul; try assumption; lia. }
  split; [exact Dt|].
  rewrite (dollars_ltb cash (price * y)%float c (quantity * P) Hc Dt) in Hlt.
  apply Z.ltb_ge in Hlt. exact Hlt.
Qed.

(** The proceeds of a sale of shares worth less than [2^53] are exactly the
    price times the quantity. *)
Lemma proceeds_exact (symbol : string) (price : float) (quantity : Z) :
  get_share_price symbol = Returned price ->
  0 < quantity ->
  quantity * price_dollars symbol < 2 ^ 53 ->
  exists total,
    mul_float_int price quantity = Returned total /\
    dollars total = Some (quantity * price_dollars symbol).
Proof.
  intros Hp Hq Hb. destruct (price_is_whole symbol price Hp) as [Dp Bp].
  set (P := price_dollars symbol) in *.
  destruct (float_of_int_exact quantity ltac:(nia)) as (y & Ey & Dy).
  unfold mul_float_int. rewrite Ey. exists (price * y)%float. split; [reflexivity|].
  rewrite (Z.mul_comm quantity P). apply dollars_mul; try assumption; lia.
Qed.

(** * Purchases *)






(** * Quantities too large for a float *)

Lemma iter_pos_invariant {A : Type} (f : A -> A) (P : Z -> A -> Prop) :
  (forall k x, P k x -> P (k + 1) (f x)) ->
  forall p k x, P k x -> P (k + Zpos p) (iter_pos f p x).
Proof.
  intros step. induction p as [p IH|p IH|]; intros k x H; simpl iter_pos.
  - replace (k + Zpos p~1) with (k + 1 + Zpos p + Zpos p) by lia.
    apply IH, IH, step, H.
  - replace (k + Zpos p~0) with (k + Zpos p + Zpos p) by lia.
    apply IH, IH, H.
  - apply step, H.
Qed.

Lemma shr_1_r (mrs : shr_record) :
  0 <= shr_m mrs -> shr_r (shr_1 mrs) = Z.odd (shr_m mrs).
Proof.
  destruct mrs as [m r s]. simpl. intros Hm.
  destruct m as [|[p|p|]|p]; try reflexivity. lia.
Qed.

(** Shifting an integer right by [p] bits: the quotient, and the last bit
    shifted out. *)
Lemma iter_shr_1_round (N : Z) (p : positive) :
  0 <= N ->
  let mrs := iter_pos shr_1 p (Build_shr_record N false false) in
  shr_m mrs = N / 2 ^ Zpos p /\ shr_r mrs = Z.testbit N (Zpos p - 1).
Proof.
  intros HN mrs.
  pose (P := fun k x => 0 <= k /\ shr_m x = N / 2 ^ k /\
                        (1 <= k -> shr_r x = Z.testbit N (k - 1))).
  assert (G : P (0 + Zpos p) mrs).
  { apply (iter_pos_invariant shr_1 P).
    - intros k x (Hk & Hm & Hr).
      assert (H0 : 0 <= shr_m x) by (rewrite Hm; apply Z.div_pos; [lia|apply Z.pow_pos_nonneg; lia]).
      split; [lia|]. split.
      + rewrite shr_1_m, Hm by assumption.
        rewrite Z.pow_add_r, Z.pow_1_r, <- Z.div_div by lia. reflexivity.
      + intros _. rewrite shr_1_r, Hm by assumption.
        replace (k + 1 - 1) with k by lia.
        rewrite Z.testbit_odd, Z.shiftr_div_pow2 by lia. reflexivity.
    - split; [lia|]. split; [simpl; rewrite Z.div_1_r; reflexivity|lia]. }
  destruct G as (_ & Hm & Hr). simpl in Hm. split; [exact Hm|].
  apply Hr. lia.
Qed.

Lemma digits_of_bounds (p : positive) (k : Z) :
  2 ^ (k - 1) <= Zpos p < 2 ^ k -> Zpos (digits2_pos p) = k.
Proof.
  intros H. change (Zdigits2 (Zpos p) = k). rewrite Zdigits2_log2.
  assert (0 <= k - 1).
  { destruct (Z_le_gt_dec 0 (k - 1)) as [|G]; [assumption|].
    destruct (Z.eq_dec k 0) as [->|N]; [simpl in H; lia|].
    rewrite (Z.pow_neg_r 2 k) in H by lia. lia. }
  rewrite (Z.log2_unique (Zpos p) (k - 1)); [lia|lia|].
  replace (Z.succ (k - 1)) with k by lia. exact H.
Qed.

Lemma shr_fexp_round (N : positive) (e n : Z) :
  1 <= n ->
  fexp prec emax (Zdigits2 (Zpos N) + e) - e = n ->
  exists mrs,
    shr_fexp prec emax (Zpos N) e loc_Exact = (mrs, e + n) /\
    shr_m mrs = Zpos N / 2 ^ n /\ shr_r mrs = Z.testbit (Zpos N) (n - 1).
Proof.
  intros Hn H. unfold shr_fexp. rewrite H.
  change (shr_record_of_loc (Zpos N) loc_Exact) with (Build_shr_record (Zpos N) false false).
  destruct n as [|p|p]; try lia. simpl shr.
  eexists. split; [reflexivity|]. apply iter_shr_1_round. lia.
Qed.

(** Rounding an integer of more than 53 bits to 53 bits: the exponent is
    the number of bits dropped, and one more when the mantissa, all ones,
    is rounded up. *)
Lemma round_integer (M : positive) :
  let n := Zpos (digits2_pos M) - prec in
  let up := (Zpos M / 2 ^ n =? 2 ^ 53 - 1) && Z.testbit (Zpos M) (n - 1) in
  1 <= n -> n + 1 <= emax - prec ->
  exists mr,
    binary_round prec emax false M 0
    = S754_finite false mr (if up then n + 1 else n) /\
    Zpos (digits2_pos mr) = prec.
Proof.
  intros n up Hn1 Hn2.
  pose proof (digits_bounds M) as [DL DU].
  set (d := Zpos (digits2_pos M)) in *.
  assert (Hd : d = n + 53) by (unfold n, prec; lia).
  assert (Pn : 0 < 2 ^ n) by (apply Z.pow_pos_nonneg; lia).
  assert (Hq : 2 ^ 52 <= Zpos M / 2 ^ n < 2 ^ 53).
  { split.
    - apply Z.div_le_lower_bound; [assumption|].
      rewrite Z.mul_comm, <- Z.pow_add_r by lia.
      replace (52 + n) with (d - 1) by lia. assumption.
    - apply Z.div_lt_upper_bound; [assumption|].
      rewrite <- Z.pow_add_r by lia. replace (n + 53) with d by lia. assumption. }
  unfold binary_round. fold d.
  replace (fexp prec emax (d + 0)) with n
    by (unfold fexp, SpecFloat.emin, prec, emax in *; lia).
  rewrite shl_align_id by lia.
  unfold binary_round_aux.
  destruct (shr_fexp_round M 0 n Hn1) as (mrs & -> & Hm & Hr).
  { change (Zdigits2 (Zpos M)) with d.
    unfold fexp, SpecFloat.emin, prec, emax in *; lia. }
  set (m' := Zpos M / 2 ^ n) in *.
  set (m2 := round_nearest_even (shr_m mrs) (loc_of_shr_record mrs)).
  assert (Hround : (m2 = if up then 2 ^ 53 else m2) /\
                   (up = false -> 2 ^ 52 <= m2 < 2 ^ 53)).
  { unfold m2, up. fold m'. destruct (Z.eqb_spec m' (2 ^ 53 - 1)) as [E|E]; simpl andb.
    - destruct mrs as [m0 r0 s0]. simpl in Hm, Hr. subst m0. rewrite <- Hr.
      destruct r0, s0; cbn [loc_of_shr_record round_nearest_even shr_m shr_r];
        split; try (rewrite E; reflexivity); try reflexivity; try discriminate;
        intros _; exact Hq.
    - split; [reflexivity|]. intros _.
      pose proof (round_nearest_even_bounds (shr_m mrs) (loc_of_shr_record mrs)) as B.
      rewrite Hm in B |- *.
      change (2 ^ 53) with 9007199254740992 in *;
        change (2 ^ 52) with 4503599627370496 in *. lia. }
  destruct Hround as [Hup Hbounds]. clearbody m2.
  destruct up.
  - rewrite Hup.
    unfold shr_fexp.
    change (Zdigits2 (2 ^ 53)) with 54.
    replace (fexp prec emax (54 + (0 + n)) - (0 + n)) with 1
      by (unfold fexp, SpecFloat.emin, prec, emax in *; lia).
    simpl shr. cbv beta iota zeta. cbn [shr_m].
    match goal with
    | |- context [?a <=? ?b] =>
        replace (a <=? b) with true by (symmetry; apply Z.leb_le; lia)
    end.
    exists 4503599627370496%positive. split; [f_equal; lia|reflexivity].
  - specialize (Hbounds eq_refl).
    destruct m2 as [|q|q];
      try (change (2 ^ 52) with 4503599627370496 in Hbounds; lia).
    assert (Dq : Zpos (digits2_pos q) = 53) by (apply digits_of_bounds; exact Hbounds).
    unfold shr_fexp.
    change (Zdigits2 (Zpos q)) with (Zpos (digits2_pos q)). rewrite Dq.
    replace (fexp prec emax (53 + (0 + n)) - (0 + n)) with 0
      by (unfold fexp, SpecFloat.emin, prec, emax in *; lia).
    simpl shr. cbv beta iota zeta. cbn [shr_m shr_record_of_loc].
    match goal with
    | |- context [?a <=? ?b] =>
        replace (a <=? b) with true by (symmetry; apply Z.leb_le; lia)
    end.
    exists q. split; [f_equal; lia|exact Dq].
Qed.

Lemma ldexp_normal (mr : positive) (er sh : Z) :
  Zpos (digits2_pos mr) = prec -> emin <= er + sh ->
  SFldexp prec emax (S754_finite false mr er) sh
  = if er + sh <=? emax - prec
    then S754_finite false mr (er + sh) else S754_infinity false.
Proof.
  intros D He. unfold SFldexp, binary_round. rewrite D.
  assert (C : fexp prec emax (prec + (er + sh)) = er + sh)
    by (unfold fexp, SpecFloat.emin, prec, emax in *; lia).
  rewrite C, shl_align_id by lia.
  apply binary_round_aux_exact_or_overflow.
  - rewrite D. exact C.
  - lia.
  - rewrite Z.sub_diag, Z.pow_0_r. lia.
Qed.

Lemma is_infinity_iff (x : float) :
  is_infinity x = true <-> exists s, Prim2SF x = S754_infinity s.
Proof.
  split; [|intros [s H]; exact (is_infinity_spec x s H)].
  unfold is_infinity. rewrite eqb_spec, abs_spec.
  change (Prim2SF infinity) with (S754_infinity false).
  destruct (Prim2SF x) as [s|s| |s m e]; simpl; try discriminate.
  intros _. exists s. reflexivity.
Qed.

(** The exponent of the float of an int of 54 bits or more: the int has
    [Z.log2 q + 1] bits, of which 53 are kept; rounding up a mantissa of
    ones adds one. *)
Lemma float_of_int_exponent (q : Z) :
  2 ^ 53 <= q ->
  let sh := Z.max 0 (Z.log2 q + 1 - 62) in
  let M := Z.lor (Z.shiftr q sh) (if Z.land q (Z.ones sh) =? 0 then 0 else 1) in
  let n := Z.log2 q - sh - 52 in
  let up := (M / 2 ^ n =? 2 ^ 53 - 1) && Z.testbit M (n - 1) in
  1 <= n <= 9 /\ Z.log2 M = Z.log2 q - sh /\
  (float_of_int q = None <-> emax - prec < Z.log2 q - 52 + (if up then 1 else 0)).
Proof.
  intros Hq sh M n up.
  assert (Hq1 : 1 <= q) by (change (2 ^ 53) with 9007199254740992 in Hq; lia).
  assert (HL : 53 <= Z.log2 q) by (apply Z.log2_le_pow2; lia).
  pose proof (float_of_int_top_bits q Hq1) as HM. cbv zeta in HM. fold sh in HM. fold M in HM.
  assert (Hsh : 0 <= sh) by (unfold sh; lia).
  assert (Hn : 1 <= n <= 9) by (unfold n, sh; lia).
  assert (HlM : Z.log2 M = Z.log2 q - sh).
  { unfold M. rewrite Z.log2_lor.
    - rewrite Z.log2_shiftr by lia.
      destruct (Z.land q (Z.ones sh) =? 0); simpl Z.log2; unfold sh; lia.
    - apply Z.shiftr_nonneg. lia.
    - destruct (Z.land q (Z.ones sh) =? 0); lia. }
  split; [exact Hn|]. split; [exact HlM|].
  unfold float_of_int. replace (Z.abs q) with q by lia.
  fold sh. fold M.
  replace (q <? 0) with false by (symmetry; apply Z.ltb_ge; lia).
  set (f := Z.ldexp (of_uint63 (of_Z M)) sh).
  assert (Hf : Prim2SF f = SFldexp prec emax (binary_normalize prec emax M 0 false) sh).
  { unfold f. rewrite Z_ldexp_spec, of_uint63_spec, Uint63.of_Z_spec.
    rewrite Z.mod_small by (change wB with (2 ^ 63); lia). reflexivity. }
  destruct M as [|Mp|Mp] eqn:EM; try lia.
  simpl binary_normalize in Hf.
  assert (Hd : Zpos (digits2_pos Mp) - prec = n).
  { change (Zpos (digits2_pos Mp)) with (Zdigits2 (Zpos Mp)).
    rewrite Zdigits2_log2, HlM. unfold n, prec. lia. }
  destruct (round_integer Mp) as (mr & Hr & Dr).
  { rewrite Hd. lia. }
  { rewrite Hd. unfold emax, prec. lia. }
  rewrite Hd in Hr. fold up in Hr.
  rewrite Hr in Hf. rewrite ldexp_normal in Hf;
    [|exact Dr|unfold SpecFloat.emin, prec, emax; destruct up; lia].
  assert (He : (if up then n + 1 else n) + sh = Z.log2 q - 52 + (if up then 1 else 0))
    by (unfold n; destruct up; lia).
  rewrite He in Hf.
  destruct (Z.leb_spec (Z.log2 q - 52 + (if up then 1 else 0)) (emax - prec)) as [Hle|Hgt].
  - assert (Ei : is_infinity f = false).
    { destruct (is_infinity f) eqn:E; [|reflexivity].
      apply is_infinity_iff in E. destruct E as [s E]. congruence. }
    rewrite Ei. split; [discriminate|lia].
  - rewrite (is_infinity_spec f false Hf). split; [intros _; assumption|reflexivity].
Qed.

Lemma lor_sticky (a s : Z) :
  0 <= a -> s = 0 \/ s = 1 -> Z.lor a s = a \/ (a mod 2 = 0 /\ Z.lor a s = a + 1).
Proof.
  intros Ha [->| ->]; [left; apply Z.lor_0_r|].
  pose proof (Z.add_lor_land a 1) as H.
  change 1 with (Z.ones 1) in H at 2. rewrite Z.land_ones in H by lia.
  change (2 ^ 1) with 2 in H.
  pose proof (Z.mod_pos_bound a 2 ltac:(lia)) as B.
  destruct (Z.eq_dec (a mod 2) 0) as [E|E]; [right|left]; lia.
Qed.

(** The ints too large for a float: those of [2^1024 - 2^970] or more, the
    middle of the largest finite float and [2^1024]. *)
Lemma float_of_int_overflow (q : Z) :
  0 < q -> (float_of_int q = None <-> 2 ^ 1024 - 2 ^ 970 <= q).
Proof.
  intros Hq0.
  assert (T1 : 2 ^ 1024 - 2 ^ 970 = (2 ^ 62 - 2 ^ 8) * 2 ^ 962) by reflexivity.
  assert (T2 : 2 ^ 1023 = 2 ^ 61 * 2 ^ 962) by reflexivity.
  assert (T3 : 2 ^ 1024 = 2 ^ 62 * 2 ^ 962) by reflexivity.
  assert (T4 : 2 ^ 53 <= 2 ^ 962) by (apply Z.pow_le_mono_r; lia).
  set (B := 2 ^ 962) in *.
  destruct (Z_lt_le_dec q (2 ^ 53)) as [Hs|Hb].
  { destruct (float_of_int_exact q ltac:(lia)) as (y & Ey & _). rewrite Ey, T1.
    split; [discriminate|]. change (2 ^ 62 - 2 ^ 8) with 4611686018427387648. nia. }
  destruct (float_of_int_exponent q Hb) as (Hn & HlM & ->).
  set (sh := Z.max 0 (Z.log2 q + 1 - 62)) in *.
  set (M := Z.lor (Z.shiftr q sh) (if Z.land q (Z.ones sh) =? 0 then 0 else 1)) in *.
  set (n := Z.log2 q - sh - 52) in *.
  set (up := (M / 2 ^ n =? 2 ^ 53 - 1) && Z.testbit M (n - 1)).
  unfold emax, prec.
  destruct (Z_lt_le_dec (Z.log2 q) 1023) as [L1|L1].
  { pose proof (proj2 (Z.log2_lt_pow2 q 1023 Hq0) L1) as L3. rewrite T2 in L3. rewrite T1.
    change (2 ^ 62 - 2 ^ 8) with 4611686018427387648.
    change (2 ^ 61) with 2305843009213693952 in L3.
    split; [destruct up; lia|nia]. }
  destruct (Z_lt_le_dec 1023 (Z.log2 q)) as [L2|L2].
  { pose proof (proj2 (Z.log2_le_pow2 q 1024 Hq0) ltac:(lia)) as L3.
    rewrite T3 in L3. rewrite T1.
    change (2 ^ 62 - 2 ^ 8) with 4611686018427387648.
    change (2 ^ 62) with 4611686018427387904 in L3.
    split; [intros _; nia|destruct up; lia]. }
  assert (EL : Z.log2 q = 1023) by lia.
  assert (Esh : sh = 962) by (unfold sh; lia).
  assert (En : n = 9) by (unfold n; lia).
  assert (Hhi : Z.shiftr q sh = q / B) by (rewrite Esh; apply Z.shiftr_div_pow2; lia).
  assert (PB : 0 < B) by (apply Z.pow_pos_nonneg; lia).
  pose proof (Z.log2_spec q Hq0) as [Q1 Q2]. rewrite EL in Q1, Q2.
  rewrite T2 in Q1. replace (Z.succ 1023) with 1024 in Q2 by lia. rewrite T3 in Q2.
  assert (Hh : 2 ^ 61 <= q / B < 2 ^ 62).
  { split; [apply Z.div_le_lower_bound; lia|apply Z.div_lt_upper_bound; lia]. }
  assert (HM : Z.lor (q / B) (if Z.land q (Z.ones sh) =? 0 then 0 else 1) = M)
    by (unfold M; rewrite Hhi; reflexivity).
  assert (Hlor : M = q / B \/ ((q / B) mod 2 = 0 /\ M = q / B + 1)).
  { rewrite <- HM. apply lor_sticky; [lia|].
    destruct (Z.land q (Z.ones sh) =? 0); auto. }
  assert (Hup : up = true <-> 2 ^ 62 - 2 ^ 8 <= q / B).
  { unfold up. rewrite En. change (9 - 1) with 8.
    rewrite Z.testbit_odd, Z.shiftr_div_pow2, Zodd_mod by lia.
    rewrite andb_true_iff, !Z.eqb_eq.
    change (2 ^ 9) with 512. change (2 ^ 8) with 256.
    change (2 ^ 53 - 1) with 9007199254740991.
    change (2 ^ 62 - 256) with 4611686018427387648.
    change (2 ^ 61) with 2305843009213693952 in Hh.
    change (2 ^ 62) with 4611686018427387904 in Hh.
    clearbody M B. clear - Hlor Hh.
    split.
    - intros [H1 H2]. destruct Hlor as [E|[E0 E]]; subst M.
      + Z.div_mod_to_equations. lia.
      + Z.div_mod_to_equations. lia.
    - intros H. destruct Hlor as [E|[E0 E]]; subst M.
      + Z.div_mod_to_equations. lia.
      + Z.div_mod_to_equations. lia. }
  rewrite EL, T1.
  assert (Hdiv : 2 ^ 62 - 2 ^ 8 <= q / B <-> (2 ^ 62 - 2 ^ 8) * B <= q).
  { split.
    - intros H. pose proof (Z.mul_div_le q B PB). nia.
    - intros H. apply Z.div_le_lower_bound; lia. }
  rewrite <- Hdiv, <- Hup. destruct up; split; (lia || discriminate || reflexivity).
Qed.

Lemma add_holdings_value_converts (items : dict) :
  forall total,
    is_returned (add_holdings_value items total) = true ->
    Forall (fun kv => float_of_int (snd kv) <> None) items.
Proof.
  induction items as [|[s q] items IH]; intros total; simpl; [constructor|].
  destruct (get_share_price s) as [p|e]; [|discriminate].
  unfold mul_float_int. destruct (float_of_int q) as [y|] eqn:Ey; [|discriminate].
  intros H. constructor; [simpl; congruence|exact (IH _ H)].
Qed.

Lemma positive_converts_iff (items : dict) :
  positive_holdings items ->
  Forall (fun kv => float_of_int (snd kv) <> None) items <->
  Forall (fun kv => snd kv < 2 ^ 1024 - 2 ^ 970) items.
Proof.
  unfold positive_holdings. intros HP. rewrite !Forall_forall in *.
  split; intros H kv Hin; specialize (H kv Hin); specialize (HP kv Hin);
    pose proof (float_of_int_overflow (snd kv) HP) as T.
  - destruct (Z_lt_le_dec (snd kv) (2 ^ 1024 - 2 ^ 970)) as [|G]; [assumption|].
    exfalso. apply H. apply T. exact G.
  - intros E. apply T in E. lia.
Qed.

(** C10, in the form the code satisfies: in every account obtained from a
    fresh one, every symbol in the holdings is priced by the table, so
    [get_portfolio_value] and [get_profit_loss] never raise the lookup's
    ``Unsupported symbol'': the only exception they can raise is the
    [OverflowError] of converting a held quantity too large for a float;
    they return a value whenever every held quantity converts, and that is
    exactly when every held quantity is below [2^1024 - 2^970]. *)
Theorem held_symbols_are_priced
    (builtin_sum : list float -> float) (uid : string) (cs : list (string * call)) :
  let self := run_calls cs (new_account uid) in
  Forall (fun kv => is_returned (get_share_price (fst kv)) = true) (holdings self) /\
  (forall e, get_portfolio_value self = Raised e -> e = int_too_large) /\
  (forall e, get_profit_loss builtin_sum self = Raised e -> e = int_too_large) /\
  (Forall (fun kv => float_of_int (snd kv) <> None) (holdings self) ->
   is_returned (get_portfolio_value self) = true /\
   is_returned (get_profit_loss builtin_sum self) = true) /\
  (is_returned (get_portfolio_value self) = true <->
   Forall (fun kv => snd kv < 2 ^ 1024 - 2 ^ 970) (holdings self)) /\
  (is_returned (get_profit_loss builtin_sum self) = true <->
   Forall (fun kv => snd kv < 2 ^ 1024 - 2 ^ 970) (holdings self)).
Proof.
  intros self. pose proof (reachable_holdings_in_catalog uid cs) as HC. fold self in HC.
  destruct (reachable_holdings_positive uid cs) as [HP _]. fold self in HP.
  assert (Hpl : is_returned (get_profit_loss builtin_sum self)
                = is_returned (get_portfolio_value self)).
  { unfold get_profit_loss. destruct (get_portfolio_value self); reflexivity. }
  assert (Hv : is_returned (get_portfolio_value self) = true <->
               Forall (fun kv => float_of_int (snd kv) <> None) (holdings self)).
  { split.
    - apply add_holdings_value_converts.
    - intros Hq. exact (add_holdings_value_returns _ HC Hq (cash_balance self)). }
  split; [|split; [|split; [|split; [|split]]]].
  - apply Forall_forall. intros kv Hin. rewrite Forall_forall in HC.
    apply get_share_price_in_catalog. apply HC. assumption.
  - intros e. apply add_holdings_value_raises. assumption.
  - intros e. unfold get_profit_loss.
    destruct (get_portfolio_value self) as [v|e0] eqn:Ev; [discriminate|].
    intros E. injection E as <-.
    exact (add_holdings_value_raises _ HC _ _ Ev).
  - intros Hq. rewrite Hpl. split; apply Hv; exact Hq.
  - rewrite Hv. apply positive_converts_iff. exact HP.
  - rewrite Hpl, Hv. apply positive_converts_iff. exact HP.
Qed.

Lemma held_symbols_are_priced_witness :
  is_returned
    (get_portfolio_value
       (run_calls [("t0", Deposit 1000); ("t1", BuyShares "AAPL" 2)] (new_account "user123")))
  = true /\
  is_returned
    (get_profit_loss sum_left
       (run_calls [("t0", Deposit 1000); ("t1", BuyShares "AAPL" 2)] (new_account "user123")))
  = true.
Proof.
  apply (proj1 (proj2 (proj2 (proj2 (held_symbols_are_priced sum_left "user123"
                                [("t0", Deposit 1000); ("t1", BuyShares "AAPL" 2)]))))).
  repeat constructor; discriminate.
Defined.

(** * Whole amounts: the books balance *)

Lemma price_dollars_nonneg (symbol : string) : 0 <= price_dollars symbol.
Proof.
  unfold price_dollars.
  destruct (get_share_price symbol) as [p|e] eqn:E; [|lia].
  destruct (price_is_whole symbol p E) as [_ B]. unfold price_dollars in B.
  rewrite E in B. lia.
Qed.

Lemma holdings_dollars_setitem (d : dict) (k : string) (v : Z) :
  holdings_dollars (dict_setitem d k v)
  = holdings_dollars d + (v - dict_get d k 0) * price_dollars k.
Proof.
  unfold holdings_dollars. induction d as [|[k0 v0] d IH]; simpl.
  - lia.
  - destruct (String.eqb_spec k0 k) as [->|N]; simpl; [lia|]. rewrite IH. lia.
Qed.

Lemma holdings_dollars_remove (d : dict) (k : string) :
  holdings_dollars (dict_remove d k)
  = holdings_dollars d - dict_get d k 0 * price_dollars k.
Proof.
  unfold holdings_dollars. induction d as [|[k0 v0] d IH]; simpl.
  - lia.
  - destruct (String.eqb_spec k0 k) as [->|N]; simpl; [lia|]. rewrite IH. lia.
Qed.

Lemma holdings_dollars_held (d : dict) (k : string) :
  positive_holdings d ->
  0 <= dict_get d k 0 * price_dollars k <= holdings_dollars d.
Proof.
  unfold positive_holdings, holdings_dollars.
  induction 1 as [|[k0 v0] d Hv _ IH]; simpl; [lia|].
  simpl in Hv. pose proof (price_dollars_nonneg k0). pose proof (price_dollars_nonneg k).
  destruct (String.eqb_spec k0 k) as [->|N]; nia.
Qed.

Lemma total_dollars_nonneg (l : list float) : 0 <= total_dollars l.
Proof.
  unfold total_dollars. induction l as [|x l IH]; simpl; [lia|].
  destruct (dollars x) as [n|] eqn:E; [|exact IH].
  pose proof (dollars_bounds x n E). lia.
Qed.

Lemma total_dollars_snoc (l : list float) (x : float) :
  total_dollars (l ++ [x])
  = total_dollars l + match dollars x with Some n => n | None => 0 end.
Proof.
  unfold total_dollars. induction l as [|x0 l IH]; simpl.
  - destruct (dollars x); lia.
  - rewrite IH. destruct (dollars x0); lia.
Qed.

Lemma dollars_is_finite (x : float) (n : Z) : dollars x = Some n -> is_finite x = true.
Proof.
  intros H. destruct (Z.eq_dec n 0) as [->|N].
  - rewrite (dollars_zero x H). reflexivity.
  - pose proof (dollars_bounds x n H).
    destruct (dollars_positive x n H ltac:(lia)) as (m & e & P & _).
    exact (finite_is_finite x false m e P).
Qed.

Lemma total_dollars_cons (x : float) (l : list float) :
  total_dollars (x :: l)
  = match dollars x with Some n => n + total_dollars l | None => total_dollars l end.
Proof. reflexivity. Qed.

Lemma holdings_dollars_cons (k : string) (v : Z) (d : dict) :
  holdings_dollars ((k, v) :: d) = v * price_dollars k + holdings_dollars d.
Proof. reflexivity. Qed.

Lemma holdings_dollars_nonneg (d : dict) : positive_holdings d -> 0 <= holdings_dollars d.
Proof.
  unfold positive_holdings. induction 1 as [|[k v] d Hv _ IH].
  - unfold holdings_dollars. simpl. lia.
  - rewrite holdings_dollars_cons. simpl in Hv. pose proof (price_dollars_nonneg k). nia.
Qed.

(** Left-to-right accumulation is exact on whole numbers. *)
Lemma sum_left_whole : sums_whole_dollars sum_left.
Proof.
  unfold sums_whole_dollars, sum_left.
  assert (G : forall l acc a,
             dollars acc = Some a -> forallb is_whole l = true ->
             a + total_dollars l < 2 ^ 53 ->
             dollars (fold_left (fun acc x => (acc + x)%float) l acc)
             = Some (a + total_dollars l)).
  { induction l as [|x l IH]; intros acc a Ha Hl Hs; cbn [fold_left].
    - change (total_dollars []) with 0. rewrite Z.add_0_r. exact Ha.
    - cbn [forallb] in Hl. apply andb_true_iff in Hl. destruct Hl as [Hx Hl].
      unfold is_whole in Hx. destruct (dollars x) as [n|] eqn:Ex; [|discriminate].
      rewrite total_dollars_cons, Ex in Hs |- *.
      pose proof (total_dollars_nonneg l).
      rewrite (IH (acc + x)%float (a + n)); [f_equal; lia| |assumption|lia].
      apply dollars_add; [assumption|assumption|lia]. }
  intros l Hl Hs. apply (G l 0%float 0); [reflexivity|assumption|lia].
Qed.

(** The holdings of a balanced account are valued without rounding. *)
Lemma add_holdings_value_exact (items : dict) :
  positive_holdings items ->
  Forall (fun kv => In (fst kv) catalog) items ->
  forall total c,
    dollars total = Some c -> c + holdings_dollars items < 2 ^ 53 ->
    exists value,
      add_holdings_value items total = Returned value /\
      dollars value = Some (c + holdings_dollars items).
Proof.
  unfold positive_holdings.
  induction items as [|[s q] items IH]; intros HP HC total c Hc Hs.
  - exists total. split; [reflexivity|]. change (holdings_dollars []) with 0.
    rewrite Z.add_0_r. exact Hc.
  - inversion HP as [|? ? Hq HP']; subst. inversion HC as [|? ? Hs0 HC']; subst.
    simpl in Hq, Hs0. rewrite holdings_dollars_cons in Hs |- *.
    apply get_share_price_in_catalog in Hs0.
    destruct (get_share_price s) as [p|e] eqn:Ep; [|discriminate Hs0].
    pose proof (dollars_bounds total c Hc) as Bc.
    pose proof (holdings_dollars_nonneg items HP') as Hn.
    destruct (proceeds_exact s p q Ep Hq ltac:(lia)) as (x & Ex & Dx).
    cbn [add_holdings_value]. rewrite Ep, Ex.
    destruct (IH HP' HC' (total + x)%float (c + q * price_dollars s)) as (value & Ev & Dv).
    + apply dollars_add; [assumption|assumption|lia].
    + lia.
    + exists value. split; [exact Ev|]. rewrite Dv. f_equal. lia.
Qed.

Lemma returns_books_balance (now : string) (self : Account) (c : call) (self' : Account) :
  books_balance self ->
  whole_call c = true ->
  total_dollars (amounts_of "deposit" (transactions self))
  + deposited_dollars [(now, c)] < 2 ^ 53 ->
  returns now self c self' ->
  books_balance self' /\
  total_dollars (amounts_of "deposit" (transactions self'))
  = total_dollars (amounts_of "deposit" (transactions self)) + deposited_dollars [(now, c)].
Proof.
  unfold books_balance. cbv zeta.
  set (D := total_dollars (amounts_of "deposit" (transactions self))).
  set (W := total_dollars (amounts_of "withdraw" (transactions self))).
  intros (HW & HD & HC & HP & HK) Hwc Hb R.
  pose proof (dollars_bounds _ _ HC) as Bc.
  pose proof (total_dollars_nonneg (amounts_of "withdraw" (transactions self))) as BW.
  fold W in BW.
  pose proof (holdings_dollars_nonneg (holdings self) HP) as BH.
  unfold deposited_dollars in *. simpl in Hb |- *.
  returns_cases R; simpl in Hwc, Hb |- *;
    rewrite !amounts_of_snoc; simpl; rewrite ?app_nil_r, ?total_dollars_snoc;
    fold D W; change (Z.pow_pos 2 53) with (2 ^ 53) in Hb.
  - unfold is_whole in Hwc. destruct (dollars amount) as [n|] eqn:En; [|discriminate].
    pose proof (dollars_bounds amount n En) as Bn.
    split; [|lia]. repeat split; try assumption.
    + rewrite Z.add_0_r in Hb. apply dollars_add; [assumption|assumption|lia].
    + rewrite Z.add_0_r in Hb.
      replace (D + n - W - holdings_dollars (holdings self))
        with ((D - W - holdings_dollars (holdings self)) + n) by lia.
      apply dollars_add; [assumption|assumption|lia].
  - unfold is_whole in Hwc. destruct (dollars amount) as [n|] eqn:En; [|discriminate].
    pose proof (dollars_bounds amount n En) as Bn.
    rewrite sub_ltb_zero in Hc.
    rewrite (dollars_ltb _ _ _ _ HC En) in Hc. apply Z.ltb_ge in Hc.
    split; [|lia]. repeat split; try assumption.
    + rewrite forallb_app. simpl. rewrite HW. unfold is_whole. rewrite En. reflexivity.
    + replace (D - (W + n) - holdings_dollars (holdings self))
        with ((D - W - holdings_dollars (holdings self)) - n) by lia.
      apply dollars_sub; assumption.
  - destruct (purchase_exact s p q t (cash_balance self) _ Hp Hq Ht HC Hc) as [Dt Le].
    split; [|lia]. repeat split; try assumption.
    + rewrite holdings_dollars_setitem.
      replace (D - W - (holdings_dollars (holdings self)
                        + (dict_get (holdings self) s 0 + q - dict_get (holdings self) s 0)
                          * price_dollars s))
        with ((D - W - holdings_dollars (holdings self)) - q * price_dollars s) by lia.
      apply dollars_sub; assumption.
    + apply Forall_dict_setitem; [assumption|]. simpl.
      pose proof (positive_dict_get (holdings self) s HP). lia.
    + apply Forall_dict_setitem; [assumption|]. simpl.
      apply get_share_price_in_catalog. rewrite Hp. reflexivity.
  - pose proof (holdings_dollars_held (holdings self) s HP) as Hheld.
    assert (Hqp : q * price_dollars s <= holdings_dollars (holdings self)).
    { pose proof (price_dollars_nonneg s). nia. }
    destruct (proceeds_exact s p q Hp Hq ltac:(lia)) as (t' & Et' & Dt).
    rewrite Ht in Et'. injection Et' as <-.
    split; [|lia]. repeat split; try assumption.
    + destruct (Z.eqb_spec (dict_get (holdings self) s 0 - q) 0) as [E|E].
      * rewrite holdings_dollars_remove.
        replace (D - W - (holdings_dollars (holdings self)
                          - dict_get (holdings self) s 0 * price_dollars s))
          with ((D - W - holdings_dollars (holdings self)) + q * price_dollars s) by nia.
        apply dollars_add; [assumption|assumption|lia].
      * rewrite holdings_dollars_setitem.
        replace (D - W - (holdings_dollars (holdings self)
                          + (dict_get (holdings self) s 0 - q - dict_get (holdings self) s 0)
                            * price_dollars s))
          with ((D - W - holdings_dollars (holdings self)) + q * price_dollars s) by lia.
        apply dollars_add; [assumption|assumption|lia].
    + destruct (Z.eqb_spec (dict_get (holdings self) s 0 - q) 0) as [E|E];
        [apply Forall_dict_remove; assumption|].
      apply Forall_dict_setitem; [assumption|]. simpl. lia.
    + destruct (_ =? 0); [apply Forall_dict_remove; assumption|].
      apply Forall_dict_setitem; [assumption|]. simpl.
      apply get_share_price_in_catalog. rewrite Hp. reflexivity.
Qed.

Lemma deposited_dollars_cons (nc : string * call) (cs : list (string * call)) :
  deposited_dollars (nc :: cs) = deposited_dollars [nc] + deposited_dollars cs.
Proof.
  unfold deposited_dollars. cbn [fold_right]. destruct (snd nc); try lia.
  destruct (dollars amount); lia.
Qed.

Lemma deposited_dollars_nonneg (cs : list (string * call)) : 0 <= deposited_dollars cs.
Proof.
  induction cs as [|nc cs IH]; [unfold deposited_dollars; simpl; lia|].
  rewrite deposited_dollars_cons. unfold deposited_dollars at 1. cbn [fold_right].
  destruct (snd nc); try lia.
  destruct (dollars amount) as [n|] eqn:E; [|lia].
  pose proof (dollars_bounds amount n E). lia.
Qed.

Lemma run_calls_books_balance (cs : list (string * call)) :
  forall self,
    books_balance self ->
    forallb (fun nc => whole_call (snd nc)) cs = true ->
    total_dollars (amounts_of "deposit" (transactions self)) + deposited_dollars cs < 2 ^ 53 ->
    books_balance (run_calls cs self) /\
    total_dollars (amounts_of "deposit" (transactions (run_calls cs self)))
    <= total_dollars (amounts_of "deposit" (transactions self)) + deposited_dollars cs.
Proof.
  induction cs as [|[now c] cs IH]; intros self HB Hw Hb.
  - split; [exact HB|]. change (deposited_dollars []) with 0. simpl. lia.
  - cbn [forallb snd] in Hw. apply andb_true_iff in Hw. destruct Hw as [Hc Hw].
    rewrite deposited_dollars_cons in Hb |- *.
    pose proof (deposited_dollars_nonneg cs) as N1.
    pose proof (deposited_dollars_nonneg [(now, c)]) as N2.
    cbn [run_calls].
    destruct (after_cases now c self) as [E|R].
    + rewrite E. destruct (IH self HB Hw ltac:(lia)) as [H1 H2]. split; [exact H1|lia].
    + destruct (returns_books_balance now self c _ HB Hc ltac:(lia) R) as [HB' HD'].
      destruct (IH _ HB' Hw ltac:(lia)) as [H1 H2]. split; [exact H1|lia].
Qed.

Lemma whole_calls_books_balance (uid : string) (cs : list (string * call)) :
  forallb (fun nc => whole_call (snd nc)) cs = true ->
  deposited_dollars cs < 2 ^ 53 ->
  books_balance (run_calls cs (new_account uid)) /\
  total_dollars (amounts_of "deposit" (transactions (run_calls cs (new_account uid))))
  < 2 ^ 53.
Proof.
  intros Hw Hb.
  assert (HB0 : books_balance (new_account uid)).
  { unfold books_balance. simpl. repeat split; constructor. }
  destruct (run_calls_books_balance cs (new_account uid) HB0 Hw ltac:(simpl; lia))
    as [HB HD].
  change (total_dollars (amounts_of "deposit" (transactions (new_account uid)))) with 0 in HD.
  split; [exact HB|lia].
Qed.

(** The reports of an account whose books balance. *)
Lemma balanced_reports (builtin_sum : list float -> float) (self : Account) :
  sums_whole_dollars builtin_sum ->
  books_balance self ->
  total_dollars (amounts_of "deposit" (transactions self)) < 2 ^ 53 ->
  exists value,
    get_portfolio_value self = Returned value /\
    dollars value
    = Some (total_dollars (amounts_of "deposit" (transactions self))
            - total_dollars (amounts_of "withdraw" (transactions self))) /\
    value = net_deposits builtin_sum self /\
    get_profit_loss builtin_sum self = Returned 0%float.
Proof.
  intros Hsum HB HD. unfold books_balance in HB. cbv zeta in HB.
  set (deposits := total_dollars (amounts_of "deposit" (transactions self))) in *.
  set (withdrawals := total_dollars (amounts_of "withdraw" (transactions self))) in *.
  destruct HB as (HW & HI & HC & HP & HK).
  pose proof (dollars_bounds _ _ HC) as Bc.
  pose proof (holdings_dollars_nonneg _ HP) as BH.
  pose proof (total_dollars_nonneg (amounts_of "withdraw" (transactions self))) as BW.
  fold withdrawals in BW.
  destruct (add_holdings_value_exact (holdings self) HP HK (cash_balance self) _ HC
              ltac:(lia)) as (value & Ev & Dv).
  replace (deposits - withdrawals - holdings_dollars (holdings self)
           + holdings_dollars (holdings self))
    with (deposits - withdrawals) in Dv by lia.
  assert (Dn : dollars (net_deposits builtin_sum self) = Some (deposits - withdrawals)).
  { unfold net_deposits. apply dollars_sub; [exact HI| |lia].
    apply Hsum; [exact HW|]. fold withdrawals. lia. }
  assert (En : value = net_deposits builtin_sum self)
    by exact (dollars_inj _ _ _ Dv Dn).
  exists value. split; [exact Ev|]. split; [exact Dv|]. split; [exact En|].
  unfold get_profit_loss. unfold get_portfolio_value in Ev |- *. rewrite Ev, <- En.
  rewrite sub_diag_finite; [reflexivity|]. exact (dollars_is_finite _ _ Dv).
Qed.

(** X1: when the amounts deposited and withdrawn are whole numbers and the
    deposits of the calls add up to less than [2^53], nothing is ever
    rounded and money is conserved, whatever is bought and sold: the cash
    balance is the deposits less the withdrawals less the holdings at their
    prices; [get_portfolio_value] returns the deposits less the withdrawals,
    which is the net deposits; and [get_profit_loss] returns zero, the
    prices being fixed. *)
Theorem whole_amounts_books_balance
    (builtin_sum : list float -> float) (uid : string) (cs : list (string * call)) :
  sums_whole_dollars builtin_sum ->
  forallb (fun nc => whole_call (snd nc)) cs = true ->
  deposited_dollars cs < 2 ^ 53 ->
  let self := run_calls cs (new_account uid) in
  let deposits := total_dollars (amounts_of "deposit" (transactions self)) in
  let withdrawals := total_dollars (amounts_of "withdraw" (transactions self)) in
  dollars (cash_balance self)
  = Some (deposits - withdrawals - holdings_dollars (holdings self)) /\
  (exists value,
      get_portfolio_value self = Returned value /\
      dollars value = Some (deposits - withdrawals) /\
      value = net_deposits builtin_sum self) /\
  get_profit_loss builtin_sum self = Returned 0%float.
Proof.
  intros Hsum Hw Hb self deposits withdrawals.
  destruct (whole_calls_books_balance uid cs Hw Hb) as [HB HD]. fold self in HB, HD.
  destruct (balanced_reports builtin_sum self Hsum HB HD) as (value & Ev & Dv & En & Hpl).
  split; [|split].
  - exact (proj1 (proj2 (proj2 HB))).
  - exists value. split; [exact Ev|]. split; [exact Dv|exact En].
  - exact Hpl.
Qed.

Lemma whole_amounts_books_balance_witness :
  get_profit_loss sum_left
    (run_calls [("t0", Deposit 2000); ("t1", BuyShares "AAPL" 10);
                ("t2", Withdraw 200); ("t3", SellShares "AAPL" 4)]
       (new_account "user123"))
  = Returned 0%float.
Proof.
  apply (proj2 (proj2 (whole_amounts_books_balance sum_left "user123"
                         [("t0", Deposit 2000); ("t1", BuyShares "AAPL" 10);
                          ("t2", Withdraw 200); ("t3", SellShares "AAPL" 4)]
                         sum_left_whole eq_refl eq_refl))).
Defined.

(** * The test suite *)


(** * The exceptions of the methods *)

Lemma run_call_raises (now : string) (c : call) (self : Account) (e : exn) :
  snd (run_call now c self) = Raised e -> In e method_errors.
Proof.
  unfold method_errors.
  destruct c as [amount|amount|symbol quantity|symbol quantity]; simpl.
  - rewrite deposit_eq. destruct (amount <=? 0)%float; simpl; [|discriminate].
    intros H. injection H as <-. simpl. tauto.
  - rewrite withdraw_eq. destruct (amount <=? 0)%float; simpl.
    + intros H. injection H as <-. simpl. tauto.
    + destruct (_ <? 0)%float; simpl; [|discriminate].
      intros H. injection H as <-. simpl. tauto.
  - rewrite buy_shares_eq. destruct (quantity <=? 0); simpl.
    { intros H. injection H as <-. simpl. tauto. }
    destruct (get_share_price symbol) as [p|e0] eqn:Ep; simpl.
    + unfold mul_float_int. destruct (float_of_int quantity) as [y|]; simpl.
      * destruct (_ <? _)%float; simpl; [|discriminate].
        intros H. injection H as <-. simpl. tauto.
      * intros H. injection H as <-. simpl. tauto.
    + intros H. injection H as <-. rewrite (get_share_price_raises symbol e0 Ep).
      simpl. tauto.
  - rewrite sell_shares_eq. destruct (quantity <=? 0); simpl.
    { intros H. injection H as <-. simpl. tauto. }
    destruct (_ <? quantity); simpl.
    { intros H. injection H as <-. simpl. tauto. }
    destruct (get_share_price symbol) as [p|e0] eqn:Ep; simpl.
    + unfold mul_float_int. destruct (float_of_int quantity) as [y|]; simpl; [discriminate|].
      intros H. injection H as <-. simpl. tauto.
    + intros H. injection H as <-. rewrite (get_share_price_raises symbol e0 Ep).
      simpl. tauto.
Qed.

(** X9: the four methods raise nothing but a [ValueError] with one of seven
    messages or the [OverflowError] of a quantity too large for a float: in
    particular [sell_shares] never raises a [KeyError], although it reads
    and deletes [self.holdings[symbol]].  Each of the eight is raised by some
    call. *)
Theorem methods_raise_only_these :
  (forall now c self e, snd (run_call now c self) = Raised e -> In e method_errors) /\
  (forall e, In e method_errors ->
     exists c self, snd (run_call "t" c self) = Raised e).
Proof.
  split; [exact run_call_raises|].
  intros e H. unfold method_errors in H. simpl in H.
  destruct H as [<-|[<-|[<-|[<-|[<-|[<-|[<-|[<-|[]]]]]]]]].
  - exists (Deposit 0), (new_account "u"). reflexivity.
  - exists (Withdraw 0), (new_account "u"). reflexivity.
  - exists (Withdraw 1), (new_account "u"). reflexivity.
  - exists (BuyShares "AAPL" 0), (new_account "u"). reflexivity.
  - exists (BuyShares "AAPL" 1), (new_account "u"). reflexivity.
  - exists (SellShares "AAPL" 1), (new_account "u"). reflexivity.
  - exists (BuyShares "aapl" 1), (new_account "u"). reflexivity.
  - exists (BuyShares "AAPL" (2 ^ 1024)), (new_account "u"). vm_compute. reflexivity.
Qed.

(** * The interface *)

(** X18: until an account is created, every handler but [create_account] answers
    ``Please create an account first.'' and there is still no account.
    [create_account] makes a fresh account whatever the state: called again,
    it replaces the account, balance, holdings and ledger included. *)
Theorem handlers_need_an_account
    (builtin_sum : list float -> float) (str_upper : string -> string) (ev : ui_event) :
  match ev with
  | CreateAccount uid =>
      forall st,
        ui_handle builtin_sum str_upper ev st
        = (Some (new_account uid),
           Returned ("Account created for user '" ++ uid ++ "'. Balance: $0.00"))
  | _ => ui_handle builtin_sum str_upper ev None = (None, Returned please_create)
  end.
Proof.
  destruct ev as [uid|now c| | | | ]; try reflexivity.
  destruct c; reflexivity.
Qed.

Lemma ui_change_spec (str_upper : string -> string) (now : string) (c : call)
    (account : Account) :
  ui_change str_upper now c (Some account) =
  match run_call now (upper_call str_upper c) account with
  | (account', Returned _) =>
      (Some account', Returned (confirmation (upper_call str_upper c) account'))
  | (account', Raised e) => (Some account', Returned ("Error: " ++ str_exn e))
  end.
Proof.
  destruct c as [amount|amount|symbol quantity|symbol quantity]; simpl;
    unfold try_except, error_reply.
  - unfold App.deposit, try_except, error_reply.
    destruct (deposit now amount account) as [a' [[]|e]]; reflexivity.
  - unfold App.withdraw, try_except, error_reply.
    destruct (withdraw now amount account) as [a' [[]|e]]; reflexivity.
  - unfold App.buy_shares, try_except, error_reply. cbv zeta.
    rewrite buy_shares_eq.
    destruct (quantity <=? 0); [reflexivity|].
    destruct (get_share_price (str_upper symbol)) as [p|e] eqn:Ep; [|reflexivity].
    destruct (mul_float_int p quantity) as [t|e]; [|reflexivity].
    destruct (_ <? _)%float; reflexivity.
  - unfold App.sell_shares, try_except, error_reply. cbv zeta.
    rewrite sell_shares_eq.
    destruct (quantity <=? 0); [reflexivity|].
    destruct (_ <? quantity); [reflexivity|].
    destruct (get_share_price (str_upper symbol)) as [p|e] eqn:Ep; [|reflexivity].
    destruct (mul_float_int p quantity) as [t|e]; reflexivity.
Qed.

(** X12: a change asked through the interface never raises.  It makes the call
    of the method, the symbol being what [str.upper] made of it, and the
    account is what the method leaves; when the method returns, the answer
    confirms the change; when it raises, the exception is caught, the account
    is as before, and the answer is ``Error: '' followed by the message of
    the exception, which is one of the eight of the methods. *)
Theorem changes_are_caught
    (str_upper : string -> string) (now : string) (c : call) (account : Account) :
  let c' := upper_call str_upper c in
  exists reply,
    ui_change str_upper now c (Some account)
    = (Some (after now c' account), Returned reply) /\
    match snd (run_call now c' account) with
    | Returned _ => reply = confirmation c' (after now c' account)
    | Raised e =>
        after now c' account = account /\
        reply = "Error: " ++ str_exn e /\ In e method_errors
    end.
Proof.
  intros c'. rewrite ui_change_spec. fold c'. unfold after.
  pose proof (run_call_raises now c' account) as HR.
  destruct (run_call_spec now c' account) as [[e H]|[self' [H R]]];
    rewrite H in *; simpl in *.
  - eexists. split; [reflexivity|]. split; [reflexivity|]. split; [reflexivity|].
    apply HR. reflexivity.
  - eexists. split; reflexivity.
Qed.

(** * Symbols at the interface *)

Lemma upper_char_idempotent (c : ascii) : upper_char (upper_char c) = upper_char c.
Proof. destruct c as [[] [] [] [] [] [] [] []]; reflexivity. Qed.

Lemma upper_idempotent (s : string) : upper (upper s) = upper s.
Proof.
  induction s as [|c s IH]; simpl; [reflexivity|].
  rewrite upper_char_idempotent, IH. reflexivity.
Qed.

(** X13: the interface takes a symbol in any case.  When [str.upper] is the
    upper-casing of ASCII on ASCII strings, and for symbols of ASCII
    characters: a purchase and a sale depend on the symbol only through its
    upper-case form, which is the symbol the account sees; so a spelling
    such as [aapl], which the account itself rejects, buys AAPL; and a symbol
    whose upper-case form is not in the price table is answered ``Error:
    Unsupported symbol'' by a purchase of a positive quantity, the account
    staying as it was. *)
Theorem interface_symbols_in_any_case
    (str_upper : string -> string) (now symbol : string) (quantity : Z) :
  upper_on_ascii str_upper ->
  is_ascii symbol = true ->
  (forall other st,
      is_ascii other = true -> upper other = upper symbol ->
      App.buy_shares str_upper now other quantity st
      = App.buy_shares str_upper now symbol quantity st /\
      App.sell_shares str_upper now other quantity st
      = App.sell_shares str_upper now symbol quantity st) /\
  (forall account,
      fst (App.buy_shares str_upper now symbol quantity (Some account))
      = Some (after now (BuyShares (upper symbol) quantity) account) /\
      fst (App.sell_shares str_upper now symbol quantity (Some account))
      = Some (after now (SellShares (upper symbol) quantity) account)) /\
  (forall account,
      0 < quantity -> ~ In (upper symbol) catalog ->
      App.buy_shares str_upper now symbol quantity (Some account)
      = (Some account, Returned "Error: Unsupported symbol")).
Proof.
  intros HU Hs. pose proof (HU symbol Hs) as Es. split; [|split].
  - intros other st Ho E. unfold App.buy_shares, App.sell_shares.
    rewrite (HU other Ho), Es, E. split; reflexivity.
  - intros account.
    pose proof (ui_change_spec str_upper now (BuyShares symbol quantity) account) as Hb.
    pose proof (ui_change_spec str_upper now (SellShares symbol quantity) account) as Hl.
    simpl in Hb, Hl. rewrite Es in Hb, Hl. unfold after. simpl. rewrite Hb, Hl.
    destruct (buy_shares now (upper symbol) quantity account) as [a1 [[]|e1]];
      destruct (sell_shares now (upper symbol) quantity account) as [a2 [[]|e2]];
      split; reflexivity.
  - intros account Hq Hn.
    pose proof (ui_change_spec str_upper now (BuyShares symbol quantity) account) as Hb.
    simpl in Hb. rewrite Es in Hb. rewrite Hb, buy_shares_eq.
    replace (quantity <=? 0) with false by (symmetry; apply Z.leb_gt; assumption).
    destruct (get_share_price_cases (upper symbol)) as [[E _]|[[E _]|[[E _]|[_ H]]]];
      try (exfalso; apply Hn; rewrite E; unfold catalog; simpl; tauto).
    rewrite H. reflexivity.
Qed.

Lemma interface_symbols_in_any_case_witness :
  fst (App.buy_shares upper "t1" "aapl" 2
         (Some (after "t0" (Deposit 1000) (new_account "user123"))))
  = Some (after "t1" (BuyShares (upper "aapl") 2)
            (after "t0" (Deposit 1000) (new_account "user123"))).
Proof.
  apply (proj1 (proj1 (proj2 (interface_symbols_in_any_case upper "t1" "aapl" 2
                                (fun s _ => eq_refl) eq_refl))
                  (after "t0" (Deposit 1000) (new_account "user123")))).
Defined.

(** * The accounts of the interface *)

Lemma ui_handle_state (builtin_sum : list float -> float) (str_upper : string -> string)
    (ev : ui_event) (st : option Account) :
  match st with
  | None => True
  | Some account => reachable account
  end ->
  match fst (ui_handle builtin_sum str_upper ev st) with
  | None => True
  | Some account => reachable account
  end.
Proof.
  intros H. destruct ev as [uid|now c| | | | ]; simpl.
  - constructor.
  - destruct st as [account|].
    + rewrite ui_change_spec.
      pose proof (reachable_call account now (upper_call str_upper c) H) as R.
      unfold after in R.
      destruct (run_call now (upper_call str_upper c) account) as [a' [[]|e]];
        simpl in *; exact R.
    + destruct c; exact I.
  - unfold App.show_holdings. destruct st as [account|]; [|exact I].
    destruct (get_holdings account); [exact H|].
    destruct (App.holdings_lines _ _); exact H.
  - unfold App.show_portfolio_value. destruct st as [account|]; [|exact I].
    destruct (get_portfolio_value account); exact H.
  - unfold App.show_profit_loss. destruct st as [account|]; [|exact I].
    destruct (get_profit_loss builtin_sum account); exact H.
  - unfold App.list_transactions. destruct st as [account|]; [|exact I].
    destruct (get_transactions account); [exact H|].
    destruct (App.transaction_lines _ _); exact H.
Qed.

Lemma reachable_induction (P : Account -> Prop) :
  (forall now self c self', P self -> returns now self c self' -> P self') ->
  (forall uid, P (new_account uid)) ->
  forall self, reachable self -> P self.
Proof.
  intros step init self R. apply reachable_run_calls in R. destruct R as (uid & cs & ->).
  apply run_calls_invariant; [exact step|apply init].
Qed.

(** X14: whatever a user does, in any order, the account of the interface, once
    created, is an account obtained from a fresh one by calls of the four
    methods: what holds of those accounts holds at the interface.  So its
    cash balance is never below zero, the quantities it holds are positive,
    and the symbols it holds are symbols of the price table. *)
Theorem interface_accounts_are_reachable
    (builtin_sum : list float -> float) (str_upper : string -> string)
    (evs : list ui_event) :
  match ui_run builtin_sum str_upper evs None with
  | None => True
  | Some account =>
      reachable account /\
      (cash_balance account <? 0)%float = false /\
      positive_holdings (holdings account) /\
      Forall (fun kv => In (fst kv) catalog) (holdings account)
  end.
Proof.
  assert (G : forall evs st,
             match st with None => True | Some a => reachable a end ->
             match ui_run builtin_sum str_upper evs st with
             | None => True
             | Some a => reachable a
             end).
  { clear evs. induction evs as [|ev evs IH]; intros st H; simpl; [exact H|].
    apply IH. apply ui_handle_state. exact H. }
  specialize (G evs None I).
  destruct (ui_run builtin_sum str_upper evs None) as [account|]; [|exact I].
  split; [exact G|]. split; [|split].
  - apply (reachable_induction (fun a => (cash_balance a <? 0)%float = false));
      [exact returns_cash_not_negative|reflexivity|exact G].
  - apply reachable_run_calls in G. destruct G as (uid & cs & ->).
    apply reachable_holdings_positive.
  - apply reachable_run_calls in G. destruct G as (uid & cs & ->).
    apply reachable_holdings_in_catalog.
Qed.

(** * Whole amounts at the interface *)

Lemma format_2f_whole (x : float) (n : Z) :
  dollars x = Some n -> format_2f x = str_of_int n ++ ".00".
Proof.
  intros H. destruct (Z.eq_dec n 0) as [->|N].
  { rewrite (dollars_zero x H). reflexivity. }
  pose proof (dollars_bounds x n H) as B.
  destruct (dollars_positive x n H ltac:(lia)) as (m & e & P & V & E).
  assert (W : whole (S754_finite false m e) n) by (simpl; split; [lia|exact E]).
  destruct (whole_exponent m e n V W) as [[L U] Hm].
  unfold format_2f. rewrite P.
  assert (R : round_half_even (Zpos m * 100) e = n * 100).
  { unfold round_half_even. destruct (Z.leb_spec 0 e) as [He|He].
    - replace e with 0 in * by lia. rewrite Hm. change (2 ^ (- 0)) with 1.
      change (2 ^ 0) with 1. lia.
    - cbv zeta. assert (D : 0 < 2 ^ (- e)) by (apply Z.pow_pos_nonneg; lia).
      replace (Zpos m * 100) with (n * 100 * 2 ^ (- e)) by (rewrite Hm; ring).
      rewrite Z.mod_mul, Z.div_mul by lia.
      replace (2 * 0 <? 2 ^ (- e)) with true by (symmetry; apply Z.ltb_lt; lia).
      reflexivity. }
  cbv zeta. rewrite R, Z.div_mul, Z.mod_mul by lia. reflexivity.
Qed.

(** X17: with whole amounts deposited and withdrawn, and deposits that add up to
    less than [2^53], the interface shows, whatever was bought and sold, a
    portfolio value that is the deposits less the withdrawals, with [.00]
    after the point, and a profit or loss of [+$0.00], in green. *)
Theorem interface_shows_whole_amounts
    (builtin_sum : list float -> float) (uid : string) (cs : list (string * call)) :
  sums_whole_dollars builtin_sum ->
  forallb (fun nc => whole_call (snd nc)) cs = true ->
  deposited_dollars cs < 2 ^ 53 ->
  let self := run_calls cs (new_account uid) in
  let net :=
    total_dollars (amounts_of "deposit" (transactions self))
    - total_dollars (amounts_of "withdraw" (transactions self)) in
  App.show_portfolio_value (Some self)
  = (Some self, Returned ("Total portfolio value: $" ++ str_of_int net ++ ".00")) /\
  App.show_profit_loss builtin_sum (Some self)
  = (Some self,
     Returned ("<span style=" ++ double_quote ++ "color:green;" ++ double_quote
               ++ ">Profit/Loss: +$0.00</span>")).
Proof.
  intros Hsum Hw Hb self net.
  destruct (whole_calls_books_balance uid cs Hw Hb) as [HB HD]. fold self in HB, HD.
  destruct (balanced_reports builtin_sum self Hsum HB HD) as (value & Ev & Dv & _ & Hpl).
  fold net in Dv.
  unfold App.show_portfolio_value, App.show_profit_loss. rewrite Ev, Hpl.
  rewrite (format_2f_whole value net Dv). split; reflexivity.
Qed.

Lemma interface_shows_whole_amounts_witness :
  App.show_profit_loss sum_left
    (Some (run_calls [("t0", Deposit 2000); ("t1", BuyShares "AAPL" 10);
                      ("t2", Withdraw 200); ("t3", SellShares "AAPL" 4)]
             (new_account "user123")))
  = (Some (run_calls [("t0", Deposit 2000); ("t1", BuyShares "AAPL" 10);
                      ("t2", Withdraw 200); ("t3", SellShares "AAPL" 4)]
             (new_account "user123")),
     Returned ("<span style=" ++ double_quote ++ "color:green;" ++ double_quote
               ++ ">Profit/Loss: +$0.00</span>")).
Proof.
  apply (proj2 (interface_shows_whole_amounts sum_left "user123"
                  [("t0", Deposit 2000); ("t1", BuyShares "AAPL" 10);
                   ("t2", Withdraw 200); ("t3", SellShares "AAPL" 4)]
                  sum_left_whole eq_refl eq_refl)).
Defined.

(** * The reports *)

Lemma holdings_lines_raises (items : dict) :
  Forall (fun kv => In (fst kv) catalog) items ->
  forall result e, App.holdings_lines items result = Raised e -> e = int_too_large.
Proof.
  induction 1 as [|[s q] items Hs _ IH]; intros result e; simpl; [discriminate|].
  apply get_share_price_in_catalog in Hs. simpl in Hs.
  destruct (get_share_price s) as [p|e0]; [|discriminate Hs].
  unfold mul_float_int. destruct (float_of_int q) as [y|].
  - apply IH.
  - intros E. injection E as <-. reflexivity.
Qed.

Lemma holdings_lines_returns (items : dict) :
  Forall (fun kv => In (fst kv) catalog) items ->
  Forall (fun kv => float_of_int (snd kv) <> None) items ->
  forall result, is_returned (App.holdings_lines items result) = true.
Proof.
  induction 1 as [|[s q] items Hs _ IH]; intros Hc result; simpl; [reflexivity|].
  inversion Hc as [|? ? Hq Hc']; subst. simpl in Hq.
  apply get_share_price_in_catalog in Hs. simpl in Hs.
  destruct (get_share_price s) as [p|e0]; [|discriminate Hs].
  unfold mul_float_int. destruct (float_of_int q) as [y|]; [|congruence].
  apply IH. assumption.
Qed.

Lemma Forall_filter_keeps {A} (P : A -> Prop) (f : A -> bool) (l : list A) :
  Forall P l -> Forall P (filter f l).
Proof.
  induction 1 as [|x l Hx _ IH]; simpl; [constructor|].
  destruct (f x); [constructor; assumption|assumption].
Qed.

Lemma capitalize_kinds :
  capitalize "deposit" = "Deposit" /\ capitalize "withdraw" = "Withdraw" /\
  capitalize "buy" = "Buy" /\ capitalize "sell" = "Sell".
Proof. repeat split. Qed.

Lemma transaction_line_ok (t : transaction) :
  entry_ok t ->
  exists rest,
    App.transaction_line t
    = Returned (Some (tx_timestamp t ++ ": " ++ capitalize (tx_type t) ++ " " ++ rest)).
Proof.
  destruct capitalize_kinds as (K1 & K2 & K3 & K4).
  unfold App.transaction_line. cbv zeta.
  intros [([E|E] & _)|([E|E] & s & q & p & Es & Eq & _)];
    rewrite E, ?K1, ?K2, ?K3, ?K4, ?Es, ?Eq; eexists; reflexivity.
Qed.

Lemma transaction_lines_ok (l : list transaction) :
  Forall entry_ok l ->
  forall lines,
    exists new,
      App.transaction_lines l lines = Returned (lines ++ new)%list /\
      Forall2
        (fun t line =>
           exists rest,
             line = tx_timestamp t ++ ": " ++ capitalize (tx_type t) ++ " " ++ rest)
        l new.
Proof.
  induction 1 as [|t l Ht _ IH]; intros lines.
  - exists []. rewrite app_nil_r. split; [reflexivity|constructor].
  - destruct (transaction_line_ok t Ht) as [rest Hl].
    cbn [App.transaction_lines]. rewrite Hl.
    set (line := tx_timestamp t ++ ": " ++ capitalize (tx_type t) ++ " " ++ rest) in *.
    destruct (IH (lines ++ [line])%list) as (new & E & F).
    eexists (_ :: new). split.
    + rewrite E, <- app_assoc. reflexivity.
    + constructor; [exists rest; reflexivity|exact F].
Qed.

(** X15: the reports of the interface are not under [try]: what the account
    raises, the handler raises.  On an account obtained from a fresh one,
    [show_holdings], [show_portfolio_value] and [show_profit_loss] raise
    nothing but the [OverflowError] of a held quantity too large for a
    float, and they answer whenever every held quantity converts;
    [list_transactions] always answers, with one line for each entry of the
    ledger, in order, that starts with the time and the kind of the entry.
    No report changes the account.  And there are calls after which the
    three reports raise. *)
Theorem reports_are_not_guarded
    (builtin_sum : list float -> float) (uid : string) (cs : list (string * call)) :
  let self := run_calls cs (new_account uid) in
  (forall e,
      snd (App.show_holdings (Some self)) = Raised e \/
      snd (App.show_portfolio_value (Some self)) = Raised e \/
      snd (App.show_profit_loss builtin_sum (Some self)) = Raised e ->
      e = int_too_large) /\
  (Forall (fun kv => float_of_int (snd kv) <> None) (holdings self) ->
   is_returned (snd (App.show_holdings (Some self))) = true /\
   is_returned (snd (App.show_portfolio_value (Some self))) = true /\
   is_returned (snd (App.show_profit_loss builtin_sum (Some self))) = true) /\
  (exists lines,
      Forall2
        (fun t line =>
           exists rest,
             line = tx_timestamp t ++ ": " ++ capitalize (tx_type t) ++ " " ++ rest)
        (transactions self) lines /\
      App.list_transactions (Some self)
      = (Some self,
         Returned (match lines with
                   | [] => "No transactions yet."
                   | _ => String.concat newline lines
                   end))) /\
  (fst (App.show_holdings (Some self)) = Some self /\
   fst (App.show_portfolio_value (Some self)) = Some self /\
   fst (App.show_profit_loss builtin_sum (Some self)) = Some self) /\
  (exists cs',
      let st := Some (run_calls cs' (new_account uid)) in
      snd (App.show_holdings st) = Raised int_too_large /\
      snd (App.show_portfolio_value st) = Raised int_too_large /\
      snd (App.show_profit_loss builtin_sum st) = Raised int_too_large).
Proof.
  intros self.
  pose proof (reachable_holdings_in_catalog uid cs) as HC. fold self in HC.
  pose proof (Forall_filter_keeps _ (fun kv => 0 <? snd kv) _ HC) as HCf.
  fold (get_holdings self) in HCf.
  split; [|split; [|split; [|split]]].
  - intros e [H|[H|H]].
    + unfold App.show_holdings in H.
      destruct (get_holdings self) as [|kv items] eqn:Eh; [discriminate H|].
      destruct (App.holdings_lines (kv :: items) ("Holdings:" ++ newline)) as [r|e0] eqn:El;
        [discriminate H|].
      simpl in H. injection H as <-. exact (holdings_lines_raises _ HCf _ _ El).
    + unfold App.show_portfolio_value in H.
      destruct (get_portfolio_value self) as [v|e0] eqn:Ev; [discriminate H|].
      simpl in H. injection H as <-. exact (add_holdings_value_raises _ HC _ _ Ev).
    + unfold App.show_profit_loss, get_profit_loss in H.
      destruct (get_portfolio_value self) as [v|e0] eqn:Ev; [discriminate H|].
      simpl in H. injection H as <-. exact (add_holdings_value_raises _ HC _ _ Ev).
  - intros Hq. pose proof (Forall_filter_keeps _ (fun kv => 0 <? snd kv) _ Hq) as Hqf.
    fold (get_holdings self) in Hqf.
    pose proof (add_holdings_value_returns _ HC Hq (cash_balance self)) as Hr.
    fold (get_portfolio_value self) in Hr.
    split; [|split].
    + unfold App.show_holdings.
      destruct (get_holdings self) as [|kv items] eqn:Eh; [reflexivity|].
      pose proof (holdings_lines_returns _ HCf Hqf ("Holdings:" ++ newline)) as Hl.
      destruct (App.holdings_lines (kv :: items) ("Holdings:" ++ newline));
        [reflexivity|discriminate Hl].
    + unfold App.show_portfolio_value.
      destruct (get_portfolio_value self); [reflexivity|discriminate Hr].
    + unfold App.show_profit_loss, get_profit_loss.
      destruct (get_portfolio_value self); [reflexivity|discriminate Hr].
  - assert (HE : Forall entry_ok (transactions self)).
    { apply (run_calls_invariant (fun a => Forall entry_ok (transactions a)));
        [exact returns_entries_ok|constructor]. }
    destruct (transaction_lines_ok _ HE []) as (lines & E & F).
    exists lines. split; [exact F|].
    unfold App.list_transactions, get_transactions.
    destruct (transactions self) as [|t l] eqn:Et.
    + inversion F. reflexivity.
    + rewrite E. inversion F; subst. reflexivity.
  - unfold App.show_holdings, App.show_portfolio_value, App.show_profit_loss.
    destruct (get_holdings self); [|destruct (App.holdings_lines _ _)];
      destruct (get_portfolio_value self) eqn:Ev;
      unfold get_profit_loss; rewrite ?Ev; repeat split.
  - exists [("t0", Deposit 0x1p+1023); ("t1", Deposit 0x1p+1023);
            ("t2", BuyShares "AAPL" (2 ^ 1023)); ("t3", BuyShares "AAPL" (2 ^ 1023))].
    vm_compute. repeat split.
Qed.

(** * The text of the holdings *)

Lemma string_app_assoc (a b c : string) : (a ++ b) ++ c = a ++ b ++ c.
Proof. induction a as [|x a IH]; simpl; [reflexivity|rewrite IH; reflexivity]. Qed.

Lemma string_app_nil_r (a : string) : a ++ "" = a.
Proof. induction a as [|x a IH]; simpl; [reflexivity|rewrite IH; reflexivity]. Qed.

Lemma rstrip_app (s t : string) :
  rstrip t <> "" -> rstrip (s ++ t) = s ++ rstrip t.
Proof.
  intros H. induction s as [|a s IH]; simpl; [reflexivity|].
  rewrite IH. destruct (s ++ rstrip t) eqn:E; [|reflexivity].
  exfalso. destruct s; simpl in E; [contradiction|discriminate].
Qed.

Lemma rstrip_line (line : string) :
  ends_in_print line -> rstrip (line ++ newline) = line /\ line <> "".
Proof.
  intros (s' & c & -> & Hc). split.
  - rewrite string_app_assoc. rewrite rstrip_app.
    + simpl. rewrite Hc. reflexivity.
    + simpl. rewrite Hc. discriminate.
  - destruct s'; discriminate.
Qed.

Lemma rstrip_lines (lines : list string) :
  lines <> [] -> Forall ends_in_print lines ->
  rstrip (lines_text lines) = String.concat newline lines /\
  String.concat newline lines <> "".
Proof.
  induction lines as [|l ls IH]; intros N F; [contradiction|].
  inversion F as [|? ? Hl Fs]; subst.
  destruct (rstrip_line l Hl) as [R1 R2].
  destruct ls as [|l2 ls].
  - cbn [lines_text String.concat]. rewrite string_app_nil_r. split; assumption.
  - destruct (IH ltac:(discriminate) Fs) as [E1 E2].
    cbn [lines_text String.concat] in *. split.
    + rewrite <- string_app_assoc, rstrip_app by (rewrite E1; exact E2).
      rewrite E1, string_app_assoc. reflexivity.
    + destruct l; [contradiction|discriminate].
Qed.

Lemma two_digits_shape (k : Z) :
  0 <= k < 100 ->
  exists a b, two_digits k = String a (String b EmptyString) /\ is_space b = false.
Proof.
  intros Hk.
  assert (G : forallb
                (fun n =>
                   match two_digits (Z.of_nat n) with
                   | String a (String b EmptyString) => negb (is_space b)
                   | _ => false
                   end)
                (seq 0 100) = true) by (vm_compute; reflexivity).
  rewrite forallb_forall in G. specialize (G (Z.to_nat k)).
  rewrite Z2Nat.id in G by lia.
  assert (Hin : In (Z.to_nat k) (seq 0 100)) by (apply in_seq; lia).
  specialize (G Hin).
  destruct (two_digits k) as [|a [|b [|c r]]]; try discriminate.
  exists a, b. split; [reflexivity|]. destruct (is_space b); [discriminate|reflexivity].
Qed.

Lemma format_2f_ends (x : float) : ends_in_print (format_2f x).
Proof.
  unfold format_2f, ends_in_print.
  destruct (Prim2SF x) as [s|s| |s m e].
  - exists ((if s then "-" else "") ++ "0.0"), "0"%char.
    split; [destruct s; reflexivity|reflexivity].
  - destruct s; [exists "-in", "f"%char|exists "in", "f"%char]; split; reflexivity.
  - exists "na", "n"%char. split; reflexivity.
  - cbv zeta. set (h := round_half_even (Zpos m * 100) e).
    destruct (two_digits_shape (h mod 100) ltac:(apply Z.mod_pos_bound; lia))
      as (a & b & E & Hb).
    rewrite E.
    exists ((if s then "-" else "") ++ str_of_int (h / 100) ++ "." ++ String a ""), b.
    split; [|exact Hb]. rewrite !string_app_assoc. reflexivity.
Qed.

Lemma holdings_lines_text (items : dict) :
  Forall (fun kv => In (fst kv) catalog) items ->
  Forall (fun kv => float_of_int (snd kv) <> None) items ->
  forall result,
    exists lines,
      App.holdings_lines items result = Returned (result ++ lines_text lines) /\
      Forall2
        (fun kv line =>
           exists rest,
             line = fst kv ++ ": " ++ str_of_int (snd kv) ++ " shares @ $" ++ rest)
        items lines /\
      Forall ends_in_print lines.
Proof.
  induction 1 as [|[s q] items Hs _ IH]; intros Hc result.
  - exists []. simpl. rewrite string_app_nil_r. repeat split; constructor.
  - inversion Hc as [|? ? Hq Hc']; subst. simpl in Hq.
    apply get_share_price_in_catalog in Hs. simpl in Hs.
    cbn [App.holdings_lines].
    destruct (get_share_price s) as [p|e0]; [|discriminate Hs].
    unfold mul_float_int. destruct (float_of_int q) as [y|]; [|congruence].
    set (rest := format_2f p ++ " = $" ++ format_2f (p * y)).
    set (line := s ++ ": " ++ str_of_int q ++ " shares @ $" ++ rest).
    destruct (IH Hc' (result ++ line ++ newline)) as (lines & E & F & P).
    exists (line :: lines). split; [|split].
    + replace (result ++ s ++ ": " ++ str_of_int q ++ " shares @ $" ++ format_2f p
               ++ " = $" ++ format_2f (p * y) ++ newline)
        with (result ++ line ++ newline).
      * rewrite E. cbn [lines_text]. rewrite !string_app_assoc. reflexivity.
      * unfold line, rest. rewrite !string_app_assoc. reflexivity.
    + constructor; [exists rest; reflexivity|exact F].
    + constructor; [|exact P].
      destruct (format_2f_ends (p * y)) as (s' & c & E' & Hc0).
      exists (s ++ ": " ++ str_of_int q ++ " shares @ $" ++ format_2f p ++ " = $" ++ s'), c.
      split; [|exact Hc0]. unfold line, rest. rewrite E'.
      rewrite !string_app_assoc. reflexivity.
Qed.

Lemma filter_positive (d : dict) :
  positive_holdings d -> filter (fun kv => 0 <? snd kv) d = d.
Proof.
  unfold positive_holdings. induction 1 as [|kv d Hv _ IH]; simpl; [reflexivity|].
  apply Z.ltb_lt in Hv. rewrite Hv, IH. reflexivity.
Qed.

(** X16: on an account obtained from a fresh one whose held quantities convert
    to floats, [show_holdings] answers ``No holdings.'' when nothing is held
    and otherwise the line ``Holdings:'' followed by one line for each
    symbol held, in the order of the holdings, that starts with the symbol
    and the quantity held; the lines are separated by line feeds and, the
    text being stripped, none follows the last. *)
Theorem show_holdings_lists_every_holding (uid : string) (cs : list (string * call)) :
  let self := run_calls cs (new_account uid) in
  Forall (fun kv => float_of_int (snd kv) <> None) (holdings self) ->
  exists lines,
    Forall2
      (fun kv line =>
         exists rest,
           line = fst kv ++ ": " ++ str_of_int (snd kv) ++ " shares @ $" ++ rest)
      (holdings self) lines /\
    App.show_holdings (Some self)
    = (Some self,
       Returned (match lines with
                 | [] => "No holdings."
                 | _ => String.concat newline ("Holdings:" :: lines)
                 end)).
Proof.
  intros self Hq.
  destruct (reachable_holdings_positive uid cs) as [HP _]. fold self in HP.
  pose proof (reachable_holdings_in_catalog uid cs) as HC. fold self in HC.
  destruct (holdings_lines_text (holdings self) HC Hq ("Holdings:" ++ newline))
    as (lines & E & F & P).
  exists lines. split; [exact F|].
  unfold App.show_holdings, get_holdings. rewrite (filter_positive _ HP).
  destruct (holdings self) as [|kv items] eqn:Eh.
  - inversion F. reflexivity.
  - rewrite E. inversion F as [|? l0 ? ls ? ?]; subst.
    f_equal. f_equal. unfold strip.
    destruct (rstrip_lines (l0 :: ls) ltac:(discriminate) P) as [R1 R2].
    rewrite rstrip_app by (rewrite R1; exact R2).
    rewrite R1. reflexivity.
Qed.

Lemma show_holdings_lists_every_holding_witness :
  exists lines,
    Forall2
      (fun kv line =>
         exists rest,
           line = fst kv ++ ": " ++ str_of_int (snd kv) ++ " shares @ $" ++ rest)
      (holdings
         (run_calls [("t0", Deposit 1000); ("t1", BuyShares "AAPL" 2);
                     ("t2", BuyShares "TSLA" 1)] (new_account "user123")))
      lines /\
    App.show_holdings
      (Some (run_calls [("t0", Deposit 1000); ("t1", BuyShares "AAPL" 2);
                        ("t2", BuyShares "TSLA" 1)] (new_account "user123")))
    = (Some (run_calls [("t0", Deposit 1000); ("t1", BuyShares "AAPL" 2);
                        ("t2", BuyShares "TSLA" 1)] (new_account "user123")),
       Returned (match lines with
                 | [] => "No holdings."
                 | _ => String.concat newline ("Holdings:" :: lines)
                 end)).
Proof.
  apply (show_holdings_lists_every_holding "user123"
           [("t0", Deposit 1000); ("t1", BuyShares "AAPL" 2); ("t2", BuyShares "TSLA" 1)]).
  repeat constructor; discriminate.
Defined.

(** * Rounding at the interface *)

(** X21: the prices never change, and yet a loss can show.  With amounts that are
    not whole numbers the sums are rounded, the cash balance and the initial
    deposit not in the same way: there are calls with finite amounts, all of
    which return, after which [get_profit_loss] is below zero and the
    interface shows, in red, a loss of [$-0.00]. *)
Theorem rounding_can_show_a_loss (builtin_sum : list float -> float) :
  builtin_sum [] = 0%float ->
  exists cs pl,
    let self := run_calls cs (new_account "user123") in
    forallb
      (fun nc =>
         match snd nc with
         | Deposit amount | Withdraw amount => is_finite amount
         | _ => true
         end) cs = true /\
    List.length (transactions self) = List.length cs /\
    get_profit_loss builtin_sum self = Returned pl /\
    (pl <? 0)%float = true /\
    App.show_profit_loss builtin_sum (Some self)
    = (Some self,
       Returned ("<span style=" ++ double_quote ++ "color:red;" ++ double_quote
                 ++ ">Profit/Loss: $-0.00</span>")).
Proof.
  intros H.
  (* 150, the float nearest to 100.1, one AAPL share, the float nearest to 0.3 *)
  exists [("t0", Deposit 150); ("t1", Deposit 0x1.9066666666666p+6);
          ("t2", BuyShares "AAPL" 1); ("t3", Deposit 0x1.3333333333333p-2)],
         (-0x1p-45)%float.
  cbv zeta.
  set (self := run_calls _ _).
  assert (Ew : amounts_of "withdraw" (transactions self) = []) by (vm_compute; reflexivity).
  unfold App.show_profit_loss, get_profit_loss, net_deposits. rewrite Ew, H.
  vm_compute. repeat split.
Qed.

Lemma rounding_can_show_a_loss_witness :
  exists cs pl,
    let self := run_calls cs (new_account "user123") in
    forallb
      (fun nc =>
         match snd nc with
         | Deposit amount | Withdraw amount => is_finite amount
         | _ => true
         end) cs = true /\
    List.length (transactions self) = List.length cs /\
    get_profit_loss sum_left self = Returned pl /\
    (pl <? 0)%float = true /\
    App.show_profit_loss sum_left (Some self)
    = (Some self,
       Returned ("<span style=" ++ double_quote ++ "color:red;" ++ double_quote
                 ++ ">Profit/Loss: $-0.00</span>")).
Proof. exact (rounding_can_show_a_loss sum_left eq_refl). Defined.

(** The formats: on numbers half way between two hundredths; on the floats
    nearest to 2.675 and 1.005, which are below them; on a negative number
    that rounds to zero (the float nearest to -0.001); on large and special
    numbers; and the whole text of the holdings of a small account. *)
Example texts_of_the_interface :
  format_2f 0.125 = "0.12" /\ format_2f 0.375 = "0.38" /\
  format_2f 0x1.5666666666666p+1 = "2.67" /\ format_2f 0x1.0147ae147ae14p+0 = "1.00" /\
  format_2f 150 = "150.00" /\ format_2f (-0x1.0624dd2f1a9fcp-10) = "-0.00" /\
  format_2f 1e22 = "10000000000000000000000.00" /\
  format_2f infinity = "inf" /\ format_2f nan = "nan" /\
  str_of_int (-12) = "-12" /\ upper "aApl" = "AAPL" /\ capitalize "deposit" = "Deposit" /\
  snd (App.show_holdings
         (Some (run_calls [("t0", Deposit 1000); ("t1", BuyShares "AAPL" 2);
                           ("t2", BuyShares "TSLA" 1)] (new_account "user123"))))
  = Returned ("Holdings:" ++ newline ++ "AAPL: 2 shares @ $150.00 = $300.00" ++ newline
              ++ "TSLA: 1 shares @ $700.00 = $700.00").
Proof. vm_compute. repeat split. Qed.
